(** * EbayXlister: a Rocq model of [ebay_xlister.py]

    The development has three layers.

    - [Py] models the part of the Python runtime that the program calls:
      exceptions, [str] helpers, [int(str)], [float(str)], the conversion of
      an [int] operand of a [float] product, and the format [.2f].
    - [Csv] and [Json] model [csv.DictReader], [json.dump] and [json.load].
    - [Xlister] is the program itself, one definition per function of the
      source, written in a state and exception monad over a world made of
      the file system, the standard output and the clock.

    A Python [str] is a [string]: one [ascii] per character.  A Python
    [float] is a primitive binary64 [float]; a Python [int] is a [Z]. *)

From Stdlib Require Import ZArith Floats Ascii String.
From stdpp Require Import gmap strings list.

(* ===================================================================== *)
(** * The Python runtime *)
(* ===================================================================== *)

Module Py.

Local Open Scope Z_scope.

(** ** Exceptions and results *)

Inductive exn_class :=
  | FileNotFoundError
  | IsADirectoryError
  | PermissionError
  | ValueError
  | TypeError
  | OverflowError
  | CsvError
  | JSONDecodeError.

Record exn := mk_exn { exn_cls : exn_class; exn_msg : string }.

Inductive result (A : Type) :=
  | Ok (a : A)
  | Raise (e : exn).
Arguments Ok {A} a.
Arguments Raise {A} e.

#[global] Instance result_ret : MRet result := @Ok.
#[global] Instance result_bind : MBind result := fun A B f m =>
  match m with Ok a => f a | Raise e => Raise e end.
#[global] Instance result_fmap : FMap result := fun A B f m =>
  match m with Ok a => Ok (f a) | Raise e => Raise e end.

(** ** Values

    The values that the program hands to [json.dump] and that [json.load]
    returns.  A [dict] keeps its items in insertion order. *)

#[local] Set Warnings "-register-all".

Inductive value :=
  | VNone
  | VBool (b : bool)
  | VInt (z : Z)
  | VFloat (x : float)
  | VStr (s : string)
  | VList (l : list value)
  | VDict (d : list (string * value)).

Definition of_str_or_none (v : option string) : value :=
  match v with Some s => VStr s | None => VNone end.

(** [v[key]] for a [dict] [v]. *)
Definition item (v : value) (key : string) : option value :=
  match v with
  | VDict d => snd <$> find (fun kv => String.eqb kv.1 key) d
  | _ => None
  end.

(** ** Characters *)

Definition code (c : ascii) : Z := Z.of_N (N_of_ascii c).

Definition chr (n : Z) : ascii := ascii_of_N (Z.to_N n).

Definition is_digit (c : ascii) : bool := (48 <=? code c) && (code c <=? 57).

Definition digit_val (c : ascii) : Z := code c - 48.

(** The characters that [int()] and [float()] skip around a literal. *)
Definition is_space (c : ascii) : bool :=
  ((9 <=? code c) && (code c <=? 13)) || (code c =? 32)
  || (code c =? 133) || (code c =? 160).

Definition lower (c : ascii) : ascii :=
  if (65 <=? code c) && (code c <=? 90) then chr (code c + 32) else c.

Fixpoint lstrip (s : list ascii) : list ascii :=
  match s with
  | c :: s' => if is_space c then lstrip s' else s
  | [] => []
  end.

Definition strip (s : list ascii) : list ascii :=
  rev (lstrip (rev (lstrip s))).

(** ** Decimal digits *)

Fixpoint digits_val (acc : Z) (ds : list ascii) : Z :=
  match ds with
  | [] => acc
  | d :: ds' => digits_val (10 * acc + digit_val d) ds'
  end.

Fixpoint take_digits (s : list ascii) : list ascii * list ascii :=
  match s with
  | c :: s' =>
      if is_digit c then let '(ds, r) := take_digits s' in (c :: ds, r)
      else ([], s)
  | [] => ([], [])
  end.

(** An underscore of a numeric literal stands between two digits; the
    literal is read with its underscores removed. *)
Fixpoint drop_underscores (prev : option ascii) (s : list ascii)
  : option (list ascii) :=
  match s with
  | [] =>
      match prev with
      | Some p => if Ascii.eqb p "_" then None else Some []
      | None => Some []
      end
  | c :: s' =>
      if Ascii.eqb c "_" then
        match prev with
        | Some p => if is_digit p then drop_underscores (Some c) s' else None
        | None => None
        end
      else
        let after_underscore :=
          match prev with Some p => Ascii.eqb p "_" | None => false end in
        if after_underscore && negb (is_digit c) then None
        else cons c <$> drop_underscores (Some c) s'
  end.

Definition take_sign (s : list ascii) : bool * list ascii :=
  match s with
  | c :: s' =>
      if Ascii.eqb c "-" then (true, s')
      else if Ascii.eqb c "+" then (false, s')
      else (false, s)
  | [] => (false, [])
  end.

(** ** [int(str)]

    The conversions between [int] and [str] are those of the language:
    the limit that CPython puts on the number of digits by default since
    3.11 ([sys.set_int_max_str_digits]) is a setting of the interpreter
    and is not part of them. *)

Definition int_literal (s : string) : option Z :=
  body ← drop_underscores None (strip (list_ascii_of_string s));
  let '(neg, r) := take_sign body in
  let '(ds, rest) := take_digits r in
  match ds, rest with
  | _ :: _, [] => Some (if neg then - digits_val 0 ds else digits_val 0 ds)
  | _, _ => None
  end.

(** ** binary64 values

    A finite binary64 number is [m * 2^e] with [m] below [2^53] and [e]
    between [-1074] and [971]; [round_ratio] is the nearest such number to
    a positive rational [n / d], ties to the even mantissa, as IEEE 754
    requires of a decimal-to-binary conversion. *)

Definition prec : Z := 53.
Definition emax : Z := 1024.

(** [d * 2^l <= n], for an exponent [l] of either sign. *)
Definition scale_le (d n l : Z) : bool :=
  if 0 <=? l then d * 2 ^ l <=? n else d <=? n * 2 ^ (- l).

(** The [l] with [2^l <= n / d < 2^(l+1)]. *)
Definition floor_log2_ratio (n d : Z) : Z :=
  let l := Z.log2 n - Z.log2 d in
  if scale_le d n l then l else l - 1.

(** The integer nearest to [num / den], ties to even. *)
Definition div_nearest_even (num den : Z) : Z :=
  let q := num / den in
  let r := num mod den in
  match 2 * r ?= den with
  | Lt => q
  | Eq => if Z.even q then q else q + 1
  | Gt => q + 1
  end.

Definition sf_of_mantissa (s : bool) (m e : Z) : spec_float :=
  match m with
  | Zpos p =>
      if m =? 2 ^ prec then
        if e + 1 <=? emax - prec
        then S754_finite s (Z.to_pos (2 ^ (prec - 1))) (e + 1)
        else S754_infinity s
      else if e <=? emax - prec then S754_finite s p e
      else S754_infinity s
  | _ => S754_zero s
  end.

Definition round_ratio (s : bool) (n d : Z) : spec_float :=
  let e := fexp prec emax (floor_log2_ratio n d + 1) in
  let m :=
    if 0 <=? e then div_nearest_even n (d * 2 ^ e)
    else div_nearest_even (n * 2 ^ (- e)) d in
  sf_of_mantissa s m e.

(** The binary64 value of the decimal [D * 10^E], whose digit string had
    [nd] digits.  A value of more than 400 or less than -400 decimal orders
    of magnitude is outside the binary64 range whatever its digits are. *)
Definition decimal_to_sf (s : bool) (D E nd : Z) : spec_float :=
  if D =? 0 then S754_zero s
  else if 400 <? E then S754_infinity s
  else if nd + E <? -400 then S754_zero s
  else if 0 <=? E then round_ratio s (D * 10 ^ E) 1
  else round_ratio s D (10 ^ (- E)).

(** ** [float(str)] *)

Definition lower_all (s : list ascii) : string :=
  string_of_list_ascii (map lower s).

Definition starts_with_any (cs : list ascii) (s : list ascii) : option (list ascii) :=
  match s with
  | c :: s' => if existsb (Ascii.eqb c) cs then Some s' else None
  | [] => None
  end.

(** [digits [. digits] [(e|E) [sign] digits]], with a digit on one side of
    the point at least; the result is the digit string, the decimal
    exponent and the number of digits. *)
Definition decimal_literal (r : list ascii) : option (Z * Z * Z) :=
  let '(ip, r1) := take_digits r in
  let '(fp, r2) :=
    match starts_with_any ["."%char] r1 with
    | Some r1' => take_digits r1'
    | None => ([], r1)
    end in
  let ds := ip ++ fp in
  match ds with
  | [] => None
  | _ :: _ =>
      let mant E := Some (digits_val 0 ds, E - Z.of_nat (length fp),
                          Z.of_nat (length ds)) in
      match starts_with_any ["e"%char; "E"%char] r2 with
      | Some r3 =>
          let '(eneg, r4) := take_sign r3 in
          let '(eds, r5) := take_digits r4 in
          match eds, r5 with
          | _ :: _, [] =>
              mant (if eneg then - digits_val 0 eds else digits_val 0 eds)
          | _, _ => None
          end
      | None => match r2 with [] => mant 0 | _ => None end
      end
  end.

Definition float_literal_sf (s : string) : option spec_float :=
  body ← drop_underscores None (strip (list_ascii_of_string s));
  let '(neg, r) := take_sign body in
  let word := lower_all r in
  if (String.eqb word "inf" || String.eqb word "infinity")%bool
  then Some (S754_infinity neg)
  else if String.eqb word "nan" then Some S754_nan
  else '(D, E, nd) ← decimal_literal r; Some (decimal_to_sf neg D E nd).

Definition float_literal (s : string) : option float :=
  SF2Prim <$> float_literal_sf s.

(** ** [int] to [float]

    The conversion that [float * int] applies to its [int] operand: the
    nearest binary64 value, and [OverflowError] when that is not finite. *)

Definition int_to_sf (z : Z) : spec_float :=
  match z with
  | Z0 => S754_zero false
  | Zpos _ => round_ratio false z 1
  | Zneg _ => round_ratio true (- z) 1
  end.

Definition not_inf (f : spec_float) : bool :=
  match f with S754_infinity _ => false | _ => true end.

Definition float_of_int (z : Z) : result float :=
  match int_to_sf z with
  | S754_infinity _ =>
      Raise (mk_exn OverflowError "int too large to convert to float")
  | f => Ok (SF2Prim f)
  end.

(** ** [str(int)] *)

Fixpoint digits_of (fuel : nat) (n : Z) (acc : list ascii) : list ascii :=
  match fuel with
  | O => acc
  | S fuel' =>
      let acc' := chr (48 + n mod 10) :: acc in
      if n <? 10 then acc' else digits_of fuel' (n / 10) acc'
  end.

(** The decimal digits of [n >= 0], without leading zeros. *)
Definition nat_digits (n : Z) : list ascii :=
  digits_of (S (Z.to_nat (Z.log2 n))) n [].

Definition int_digits (z : Z) : list ascii :=
  if z <? 0 then "-"%char :: nat_digits (- z) else nat_digits z.

Definition str_of_int (z : Z) : string := string_of_list_ascii (int_digits z).

(** ** The format [.2f] *)

Definition pad2 (n : Z) : list ascii := [chr (48 + n / 10); chr (48 + n mod 10)].

Definition sign_chars (s : bool) : list ascii := if s then ["-"%char] else [].

Definition fixed2_chars (s : bool) (hundredths : Z) : list ascii :=
  sign_chars s ++ nat_digits (hundredths / 100) ++ "."%char :: pad2 (hundredths mod 100).

Definition format_2f_sf (f : spec_float) : string :=
  match f with
  | S754_nan => "nan"
  | S754_infinity s => if s then "-inf" else "inf"
  | S754_zero s => string_of_list_ascii (fixed2_chars s 0)
  | S754_finite s m e =>
      let h := if 0 <=? e then Z.pos m * 2 ^ e * 100
               else div_nearest_even (Z.pos m * 100) (2 ^ (- e)) in
      string_of_list_ascii (fixed2_chars s h)
  end.

Definition format_2f (x : float) : string := format_2f_sf (Prim2SF x).

(** ** [repr(float)]

    The shortest decimal string that [float()] reads back as the same
    value and, among the strings of that length, the one nearest to the
    value (ties to the even digit). *)

Definition scale10_le (d n k : Z) : bool :=
  if 0 <=? k then d * 10 ^ k <=? n else d <=? n * 10 ^ (- k).

Definition ndigits (n : Z) : Z := Z.of_nat (length (nat_digits n)).

(** The [k] with [10^k <= n / d < 10^(k+1)]. *)
Definition floor_log10_ratio (n d : Z) : Z :=
  let k := ndigits n - ndigits d in
  if scale10_le d n k then k else k - 1.

Fixpoint strip_trailing_zeros (rev_ds : list ascii) (q : Z) : list ascii * Z :=
  match rev_ds with
  | c :: r =>
      if Ascii.eqb c "0" then
        match r with
        | [] => (rev rev_ds, q)
        | _ :: _ => strip_trailing_zeros r (q + 1)
        end
      else (rev rev_ds, q)
  | [] => ([], q)
  end.

Definition zeros (n : Z) : list ascii := repeat "0"%char (Z.to_nat n).

(** The text of the decimal [D * 10^q] in the style of [repr]: positional
    when the decimal point falls within [-4 < decpt <= 16], with an
    exponent of two digits at least otherwise. *)
Definition repr_chars (D q : Z) : list ascii :=
  let '(ds, q') := strip_trailing_zeros (rev (nat_digits D)) q in
  let nd := Z.of_nat (length ds) in
  let decpt := nd + q' in
  if (-4 <? decpt) && (decpt <=? 16) then
    if decpt <=? 0 then "0"%char :: "."%char :: zeros (- decpt) ++ ds
    else if nd <=? decpt then ds ++ zeros (decpt - nd) ++ [".";"0"]%char
    else take (Z.to_nat decpt) ds ++ "."%char :: drop (Z.to_nat decpt) ds
  else
    let x := decpt - 1 in
    let mant :=
      match ds with
      | d :: ((_ :: _) as fr) => d :: "."%char :: fr
      | _ => ds
      end in
    mant ++ "e"%char :: (if x <? 0 then "-"%char else "+"%char)
         :: (if Z.abs x <? 10 then "0"%char :: nat_digits (Z.abs x)
             else nat_digits (Z.abs x)).

(** Whether [float()] reads the text [cs] as [m * 2^e] with sign [s]. *)
Definition reads_back (s : bool) (m : positive) (e : Z) (cs : list ascii) : bool :=
  match float_literal_sf (string_of_list_ascii cs) with
  | Some (S754_finite s' m' e') => Bool.eqb s s' && Pos.eqb m m' && Z.eqb e e'
  | _ => false
  end.

(** The two decimals of [p] significant digits around [n / d], the nearer
    first. *)
Definition candidates (n d k : Z) (p : Z) : list (Z * Z) :=
  let s := p - 1 - k in
  let '(num, den) := if 0 <=? s then (n * 10 ^ s, d) else (n, d * 10 ^ (- s)) in
  let lo := num / den in
  let r := num mod den in
  let hi := lo + 1 in
  match 2 * r ?= den with
  | Lt => [(lo, - s); (hi, - s)]
  | Gt => [(hi, - s); (lo, - s)]
  | Eq => if Z.even lo then [(lo, - s); (hi, - s)] else [(hi, - s); (lo, - s)]
  end.

Fixpoint first_reading_back (s : bool) (m : positive) (e : Z)
    (cands : list (Z * Z)) : option (list ascii) :=
  match cands with
  | [] => None
  | (D, q) :: rest =>
      let cs := sign_chars s ++ repr_chars D q in
      if reads_back s m e cs then Some cs else first_reading_back s m e rest
  end.

(** The exact decimal expansion of [m * 2^e], written [digits e exponent]. *)
Definition exact_chars (m : positive) (e : Z) : list ascii :=
  if 0 <=? e then nat_digits (Z.pos m * 2 ^ e) ++ ["e"; "0"]%char
  else nat_digits (Z.pos m * 5 ^ (- e)) ++ "e"%char :: "-"%char :: nat_digits (- e).

(** Precisions 1 to 17 in turn.  Seventeen significant digits identify
    every binary64 value, so the search ends there at the latest; the
    exact expansion after it only makes the function total without an
    appeal to that fact. *)
Fixpoint shortest_chars (fuel : nat) (p : Z) (s : bool) (m : positive) (e : Z)
    (n d k : Z) : list ascii :=
  match fuel with
  | O => sign_chars s ++ exact_chars m e
  | S fuel' =>
      match first_reading_back s m e (candidates n d k p) with
      | Some cs => cs
      | None => shortest_chars fuel' (p + 1) s m e n d k
      end
  end.

(** The text of [m * 2^e] with sign [s]. *)
Definition finite_repr_chars (s : bool) (m : positive) (e : Z) : list ascii :=
  let '(n, d) := if 0 <=? e then (Z.pos m * 2 ^ e, 1) else (Z.pos m, 2 ^ (- e)) in
  shortest_chars 17 1 s m e n d (floor_log10_ratio n d).

Definition float_repr_sf (f : spec_float) : string :=
  match f with
  | S754_nan => "nan"
  | S754_infinity s => if s then "-inf" else "inf"
  | S754_zero s => if s then "-0.0" else "0.0"
  | S754_finite s m e => string_of_list_ascii (finite_repr_chars s m e)
  end.

Definition float_repr (x : float) : string := float_repr_sf (Prim2SF x).

(** ** [repr(str)] and the messages of the conversion errors *)

Definition hex_digit (n : Z) : ascii :=
  if n <? 10 then chr (48 + n) else chr (87 + n).

Definition is_printable (c : ascii) : bool :=
  ((32 <=? code c) && (code c <=? 126))
  || ((161 <=? code c) && negb (code c =? 173)).

Definition repr_char (quote : ascii) (c : ascii) : list ascii :=
  if Ascii.eqb c quote || Ascii.eqb c "\" then ["\"%char; c]
  else if code c =? 9 then ["\"; "t"]%char
  else if code c =? 10 then ["\"; "n"]%char
  else if code c =? 13 then ["\"; "r"]%char
  else if is_printable c then [c]
  else ["\"%char; "x"%char; hex_digit (code c / 16); hex_digit (code c mod 16)].

Definition dquote : ascii := chr 34.

(** Single quotes, unless the text has a single quote and no double one. *)
Definition str_repr (s : string) : string :=
  let cs := list_ascii_of_string s in
  let has q := existsb (Ascii.eqb q) cs in
  let quote := if has "'"%char && negb (has dquote) then dquote else "'"%char in
  string_of_list_ascii (quote :: flat_map (repr_char quote) cs ++ [quote]).

(** [float(v)] and [int(v)] for [v] a [str] or [None]. *)
Definition float_of (v : option string) : result float :=
  match v with
  | Some s =>
      match float_literal s with
      | Some x => Ok x
      | None =>
          Raise (mk_exn ValueError
                   ("could not convert string to float: " ++ str_repr s))
      end
  | None =>
      Raise (mk_exn TypeError
               "float() argument must be a string or a real number, not 'NoneType'")
  end.

Definition int_of (v : option string) : result Z :=
  match v with
  | Some s =>
      match int_literal s with
      | Some z => Ok z
      | None =>
          Raise (mk_exn ValueError
                   ("invalid literal for int() with base 10: " ++ str_repr s))
      end
  | None =>
      Raise (mk_exn TypeError
               "int() argument must be a string, a bytes-like object or a real number, not 'NoneType'")
  end.

(** [str(v)] for [v] a [str] or [None], as an f-string renders it. *)
Definition str_of (v : option string) : string :=
  match v with Some s => s | None => "None" end.

(** The truth value of a [str] or [None]. *)
Definition truthy (v : option string) : bool :=
  match v with Some (String _ _) => true | _ => false end.

(** ** [==]

    Numbers are compared by value, an [int] with a [float] exactly, and a
    [bool] as the [int] 0 or 1; two floats by the IEEE 754 comparison,
    under which NaN is equal to nothing, itself included.  Lists are equal
    when their items are, in order; dicts when they have the same keys with
    equal values. *)

Definition int_eq_float (z : Z) (x : float) : bool :=
  match Prim2SF x with
  | S754_zero _ => z =? 0
  | S754_finite s m e =>
      let v := if s then Z.neg m else Z.pos m in
      if 0 <=? e then z =? v * 2 ^ e else z * 2 ^ (- e) =? v
  | _ => false
  end.

Fixpoint py_eq (a b : value) : bool :=
  match a, b with
  | VNone, VNone => true
  | VStr s, VStr t => String.eqb s t
  | VBool p, VBool q => Bool.eqb p q
  | VBool p, VInt z | VInt z, VBool p => Z.b2z p =? z
  | VBool p, VFloat x | VFloat x, VBool p => int_eq_float (Z.b2z p) x
  | VInt z, VInt z' => z =? z'
  | VInt z, VFloat x | VFloat x, VInt z => int_eq_float z x
  | VFloat x, VFloat y => PrimFloat.eqb x y
  | VList l, VList l' =>
      (fix items (l l' : list value) : bool :=
         match l, l' with
         | [], [] => true
         | v :: r, v' :: r' => py_eq v v' && items r r'
         | _, _ => false
         end) l l'
  | VDict d, VDict d' =>
      (length d =? length d')%nat
      && forallb (fun kv => match item (VDict d') kv.1 with
                            | Some w => py_eq kv.2 w
                            | None => false
                            end) d
  | _, _ => false
  end.

End Py.

(* ===================================================================== *)
(** * [csv.reader] and [csv.DictReader] *)
(* ===================================================================== *)

Module Csv.
Import Py.

Local Open Scope Z_scope.

(** The lines of a text file opened with [newline='']: a line ends after
    ["\n"], ["\r\n"] or a lone ["\r"], and keeps its terminator. *)
Fixpoint lines (cur : list ascii) (s : list ascii) : list (list ascii) :=
  match s with
  | [] => match cur with [] => [] | _ :: _ => [rev cur] end
  | c :: s' =>
      if code c =? 10 then rev (c :: cur) :: lines [] s'
      else if code c =? 13 then
        match s' with
        | c2 :: s'' =>
            if code c2 =? 10 then rev (c2 :: c :: cur) :: lines [] s''
            else rev (c :: cur) :: lines [] s'
        | [] => [rev (c :: cur)]
        end
      else lines (c :: cur) s'
  end.

(** The states of the reader that the dialect [excel] reaches: comma
    delimiter, double-quote quoting with doubled quotes, no escape
    character, not strict. *)
Inductive state :=
  | START_RECORD
  | START_FIELD
  | IN_FIELD
  | IN_QUOTED_FIELD
  | QUOTE_IN_QUOTED_FIELD
  | EAT_CRNL.

Record reader := mk_reader {
  r_state : state;
  r_fields : list string;   (* the fields of the record so far, last first *)
  r_field : list ascii;     (* the field being read, last character first *)
  r_len : Z
}.

Definition parse_reset : reader := mk_reader START_RECORD [] [] 0.

Definition field_limit : Z := 131072.

Definition set_state (r : reader) (st : state) : reader :=
  mk_reader st (r_fields r) (r_field r) (r_len r).

Definition parse_add_char (r : reader) (st : state) (c : ascii) : result reader :=
  if field_limit <=? r_len r
  then Raise (mk_exn CsvError "field larger than field limit (131072)")
  else Ok (mk_reader st (r_fields r) (c :: r_field r) (r_len r + 1)).

Definition parse_save_field (r : reader) (st : state) : reader :=
  mk_reader st (string_of_list_ascii (rev (r_field r)) :: r_fields r) [] 0.

Definition is_newline (c : ascii) : bool := (code c =? 10) || (code c =? 13).

(** One step of the reader; [None] is the end of a line. *)
Definition parse_process_char (r : reader) (c : option ascii) : result reader :=
  let start_field :=
    match c with
    | None => Ok (parse_save_field r START_RECORD)
    | Some ch =>
        if is_newline ch then Ok (parse_save_field r EAT_CRNL)
        else if Ascii.eqb ch dquote then Ok (set_state r IN_QUOTED_FIELD)
        else if Ascii.eqb ch "," then Ok (parse_save_field r START_FIELD)
        else parse_add_char r IN_FIELD ch
    end in
  match r_state r with
  | START_RECORD =>
      match c with
      | None => Ok r
      | Some ch => if is_newline ch then Ok (set_state r EAT_CRNL) else start_field
      end
  | START_FIELD => start_field
  | IN_FIELD =>
      match c with
      | None => Ok (parse_save_field r START_RECORD)
      | Some ch =>
          if is_newline ch then Ok (parse_save_field r EAT_CRNL)
          else if Ascii.eqb ch "," then Ok (parse_save_field r START_FIELD)
          else parse_add_char r IN_FIELD ch
      end
  | IN_QUOTED_FIELD =>
      match c with
      | None => Ok r
      | Some ch =>
          if Ascii.eqb ch dquote then Ok (set_state r QUOTE_IN_QUOTED_FIELD)
          else parse_add_char r IN_QUOTED_FIELD ch
      end
  | QUOTE_IN_QUOTED_FIELD =>
      match c with
      | None => Ok (parse_save_field r START_RECORD)
      | Some ch =>
          if Ascii.eqb ch dquote then parse_add_char r IN_QUOTED_FIELD ch
          else if Ascii.eqb ch "," then Ok (parse_save_field r START_FIELD)
          else if is_newline ch then Ok (parse_save_field r EAT_CRNL)
          else parse_add_char r IN_FIELD ch
      end
  | EAT_CRNL =>
      match c with
      | None => Ok (set_state r START_RECORD)
      | Some ch =>
          if is_newline ch then Ok r
          else Raise (mk_exn CsvError
                        "new-line character seen in unquoted field - do you need to open the file with newline=''?")
      end
  end.

Fixpoint feed_line (r : reader) (cs : list ascii) : result reader :=
  match cs with
  | [] => parse_process_char r None
  | c :: cs' => r' ← parse_process_char r (Some c); feed_line r' cs'
  end.

Definition in_quoted (r : reader) : bool :=
  match r_state r with IN_QUOTED_FIELD => true | _ => false end.

Definition at_start (r : reader) : bool :=
  match r_state r with START_RECORD => true | _ => false end.

(** The records that iterating the reader yields, and the error that ends
    the iteration when one is raised.  A record ends with the line that
    brings the reader back to [START_RECORD]; at the end of the input a
    pending field closes the last record. *)
Fixpoint records (r : reader) (ls : list (list ascii))
  : list (list string) * option exn :=
  match ls with
  | [] =>
      if negb (r_len r =? 0) || in_quoted r
      then ([rev (r_fields (parse_save_field r START_RECORD))], None)
      else ([], None)
  | l :: ls' =>
      match feed_line r l with
      | Raise e => ([], Some e)
      | Ok r' =>
          if at_start r' then
            let '(rs, err) := records parse_reset ls' in
            (rev (r_fields r') :: rs, err)
          else records r' ls'
      end
  end.

Definition reader_rows (text : string) : list (list string) * option exn :=
  records parse_reset (lines [] (list_ascii_of_string text)).

(** A row of [DictReader]: a [dict] from the field names to the fields of
    the record, a later duplicate of a name replacing an earlier one, and
    the names beyond the end of a short record mapped to [None].  (The
    surplus fields of a long record go under the key [None], which no
    lookup by name reaches; the model leaves that item out.) *)
Definition row : Type := gmap string (option string).

Definition make_row (fieldnames : list string) (rec : list string) : row :=
  let d := fold_left (fun (d : row) kv => <[kv.1 := Some kv.2]> d)
                     (zip fieldnames rec) ∅ in
  fold_left (fun (d : row) k => <[k := None]> d)
            (drop (length rec) fieldnames) d.

Definition is_blank (rec : list string) : bool :=
  match rec with [] => true | _ :: _ => false end.

(** The first record is the header; blank records after it are skipped. *)
Definition DictReader (text : string) : list row * option exn :=
  let '(recs, err) := reader_rows text in
  match recs with
  | [] => ([], err)
  | fieldnames :: rest =>
      (make_row fieldnames <$> filter (fun rec => negb (is_blank rec)) rest, err)
  end.

(** [row.get(key, default)]. *)
Definition get {D : Type} (r : row) (key : string) (default : D)
  : option string + D :=
  match r !! key with
  | Some v => inl v
  | None => inr default
  end.

End Csv.

(* ===================================================================== *)
(** * [json.dump] *)
(* ===================================================================== *)

Module Json.
Import Py.

Local Open Scope Z_scope.

Definition chars (s : string) : list ascii := list_ascii_of_string s.

(** [ensure_ascii]: a character outside [' '..'~'], a double quote and a
    backslash are escaped. *)
Definition escape_char (c : ascii) : list ascii :=
  if Ascii.eqb c dquote then ["\"%char; dquote]
  else if Ascii.eqb c "\" then ["\"; "\"]%char
  else if code c =? 10 then ["\"; "n"]%char
  else if code c =? 13 then ["\"; "r"]%char
  else if code c =? 9 then ["\"; "t"]%char
  else if code c =? 8 then ["\"; "b"]%char
  else if code c =? 12 then ["\"; "f"]%char
  else if (32 <=? code c) && (code c <=? 126) then [c]
  else ["\"; "u"; "0"; "0"]%char ++ [hex_digit (code c / 16); hex_digit (code c mod 16)].

Definition encode_str (s : string) : list ascii :=
  dquote :: flat_map escape_char (chars s) ++ [dquote].

Definition encode_float (x : float) : list ascii :=
  match Prim2SF x with
  | S754_nan => chars "NaN"
  | S754_infinity s => chars (if s then "-Infinity" else "Infinity")
  | f => chars (float_repr_sf f)
  end.

(** The line break and indentation before an item at nesting depth
    [level], for [indent=2]. *)
Definition newline_indent (level : nat) : list ascii :=
  chr 10 :: repeat " "%char (2 * level).

Fixpoint join (sep : list ascii) (items : list (list ascii)) : list ascii :=
  match items with
  | [] => []
  | [x] => x
  | x :: rest => x ++ sep ++ join sep rest
  end.

Fixpoint encode (level : nat) (v : value) : list ascii :=
  match v with
  | VNone => chars "null"
  | VBool b => chars (if b then "true" else "false")
  | VInt z => int_digits z
  | VFloat x => encode_float x
  | VStr s => encode_str s
  | VList [] => chars "[]"
  | VList l =>
      "["%char :: newline_indent (S level)
        ++ join (","%char :: newline_indent (S level)) (map (encode (S level)) l)
        ++ newline_indent level ++ ["]"%char]
  | VDict [] => chars "{}"
  | VDict d =>
      "{"%char :: newline_indent (S level)
        ++ join (","%char :: newline_indent (S level))
             (map (fun kv => encode_str kv.1 ++ ":"%char :: " "%char
                               :: encode (S level) kv.2) d)
        ++ newline_indent level ++ ["}"%char]
  end.

(** The text that [json.dump(v, f, indent=2)] writes. *)
Definition dumps (v : value) : string := string_of_list_ascii (encode 0 v).

(** ** [json.load]

    The decoder reads one value and the text after it.  A character
    escaped as [\uXXXX] with a code above 255 is outside the characters of
    the model and is refused. *)

Definition is_ws (c : ascii) : bool :=
  (code c =? 32) || (code c =? 9) || (code c =? 10) || (code c =? 13).

Fixpoint skip_ws (s : list ascii) : list ascii :=
  match s with
  | c :: s' => if is_ws c then skip_ws s' else s
  | [] => []
  end.

Definition hex_val (c : ascii) : option Z :=
  if is_digit c then Some (code c - 48)
  else if (97 <=? code c) && (code c <=? 102) then Some (code c - 87)
  else if (65 <=? code c) && (code c <=? 70) then Some (code c - 55)
  else None.

Definition unescape (c : ascii) : option ascii :=
  if Ascii.eqb c dquote then Some dquote
  else if Ascii.eqb c "\" then Some "\"%char
  else if Ascii.eqb c "/" then Some "/"%char
  else if Ascii.eqb c "b" then Some (chr 8)
  else if Ascii.eqb c "f" then Some (chr 12)
  else if Ascii.eqb c "n" then Some (chr 10)
  else if Ascii.eqb c "r" then Some (chr 13)
  else if Ascii.eqb c "t" then Some (chr 9)
  else None.

(** The text of a string after its opening quote, up to the closing one. *)
Fixpoint scanstring (s : list ascii) : option (list ascii * list ascii) :=
  match s with
  | [] => None
  | c :: s' =>
      if Ascii.eqb c dquote then Some ([], s')
      else if Ascii.eqb c "\" then
        match s' with
        | [] => None
        | e :: s'' =>
            if Ascii.eqb e "u" then
              match s'' with
              | h1 :: h2 :: h3 :: h4 :: s3 =>
                  a ← hex_val h1; b ← hex_val h2;
                  c ← hex_val h3; d ← hex_val h4;
                  let uni := ((a * 16 + b) * 16 + c) * 16 + d in
                  if uni <? 256 then
                    '(str, r) ← scanstring s3; Some (chr uni :: str, r)
                  else None
              | _ => None
              end
            else
              ch ← unescape e;
              '(str, r) ← scanstring s''; Some (ch :: str, r)
        end
      else if code c <? 32 then None
      else '(str, r) ← scanstring s'; Some (c :: str, r)
  end.

(** A number: an optional minus sign; a zero, or digits that do not start
    with a zero; then optionally a point and digits; then optionally [e] or
    [E], a sign and digits.  Each part is returned with the text after
    it. *)
Definition number_sign (s : list ascii) : list ascii * list ascii :=
  match s with
  | c :: r => if Ascii.eqb c "-" then ([c], r) else ([], s)
  | [] => ([], s)
  end.

Definition number_int (r0 : list ascii) : option (list ascii * list ascii) :=
  match r0 with
  | c :: r =>
      if Ascii.eqb c "0" then Some ([c], r)
      else if is_digit c then Some (take_digits r0)
      else None
  | [] => None
  end.

Definition number_frac (r1 : list ascii) : list ascii * list ascii :=
  match r1 with
  | c :: r =>
      if Ascii.eqb c "." then
        match take_digits r with
        | ((_ :: _) as fd, r') => (c :: fd, r')
        | _ => ([], r1)
        end
      else ([], r1)
  | [] => ([], r1)
  end.

Definition number_exp (r2 : list ascii) : list ascii * list ascii :=
  match r2 with
  | c :: r =>
      if Ascii.eqb c "e" || Ascii.eqb c "E" then
        let '(sg, r') :=
          match r with
          | g :: t => if Ascii.eqb g "-" || Ascii.eqb g "+"
                      then ([g], t) else ([], r)
          | [] => ([], r)
          end in
        match take_digits r' with
        | ((_ :: _) as ed, r'') => (c :: sg ++ ed, r'')
        | _ => ([], r2)
        end
      else ([], r2)
  | [] => ([], r2)
  end.

(** The number is an [int] when it has neither a fraction nor an exponent,
    and a [float] otherwise. *)
Definition scan_number (s : list ascii) : option (value * list ascii) :=
  let '(sign, r0) := number_sign s in
  '(ip, r1) ← number_int r0;
  let '(frac, r2) := number_frac r1 in
  let '(ex, r3) := number_exp r2 in
  match frac, ex with
  | [], [] =>
      z ← int_literal (string_of_list_ascii (sign ++ ip)); Some (VInt z, r3)
  | _, _ =>
      x ← float_literal (string_of_list_ascii (sign ++ ip ++ frac ++ ex));
      Some (VFloat x, r3)
  end.

Fixpoint strip_prefix (p s : list ascii) : option (list ascii) :=
  match p, s with
  | [], _ => Some s
  | a :: p', b :: s' => if Ascii.eqb a b then strip_prefix p' s' else None
  | _ :: _, [] => None
  end.

(** [d[key] = v]: a key already present keeps its place. *)
Fixpoint dict_set (d : list (string * value)) (key : string) (v : value)
  : list (string * value) :=
  match d with
  | [] => [(key, v)]
  | (k, w) :: d' =>
      if String.eqb k key then (k, v) :: d' else (k, w) :: dict_set d' key v
  end.

Definition dict_of_pairs (pairs : list (string * value)) : list (string * value) :=
  fold_left (fun d kv => dict_set d kv.1 kv.2) pairs [].

Section Composite.
(** The decoder of the items. *)
Variable scan : list ascii -> option (value * list ascii).

(** The items of an array after the first [skip_ws], with the closing
    bracket. *)
Fixpoint array_items (n : nat) (s : list ascii)
  : option (list value * list ascii) :=
  match n with
  | O => None
  | S n' =>
      '(v, r) ← scan s;
      match skip_ws r with
      | c :: r' =>
          if Ascii.eqb c "]" then Some ([v], r')
          else if Ascii.eqb c "," then
            '(vs, r'') ← array_items n' (skip_ws r'); Some (v :: vs, r'')
          else None
      | [] => None
      end
  end.

(** The pairs of an object from the opening quote of a key, with the
    closing brace. *)
Fixpoint object_pairs (n : nat) (s : list ascii)
  : option (list (string * value) * list ascii) :=
  match n with
  | O => None
  | S n' =>
      match s with
      | q :: s0 =>
          if Ascii.eqb q dquote then
            '(key, r0) ← scanstring s0;
            match skip_ws r0 with
            | c :: r1 =>
                if Ascii.eqb c ":" then
                  '(v, r2) ← scan (skip_ws r1);
                  let kv := (string_of_list_ascii key, v) in
                  match skip_ws r2 with
                  | c' :: r3 =>
                      if Ascii.eqb c' "}" then Some ([kv], r3)
                      else if Ascii.eqb c' "," then
                        '(kvs, r4) ← object_pairs n' (skip_ws r3);
                        Some (kv :: kvs, r4)
                      else None
                  | [] => None
                  end
                else None
            | [] => None
            end
          else None
      | [] => None
      end
  end.
End Composite.

Fixpoint scan_once (fuel : nat) (s : list ascii) : option (value * list ascii) :=
  match fuel with
  | O => None
  | S fuel' =>
      match s with
      | [] => None
      | c :: s' =>
          if Ascii.eqb c dquote then
            '(str, r) ← scanstring s'; Some (VStr (string_of_list_ascii str), r)
          else if Ascii.eqb c "{" then
            match skip_ws s' with
            | c' :: r =>
                if Ascii.eqb c' "}" then Some (VDict [], r)
                else
                  '(pairs, r') ← object_pairs (scan_once fuel') fuel' (c' :: r);
                  Some (VDict (dict_of_pairs pairs), r')
            | [] => None
            end
          else if Ascii.eqb c "[" then
            match skip_ws s' with
            | c' :: r =>
                if Ascii.eqb c' "]" then Some (VList [], r)
                else
                  '(vs, r') ← array_items (scan_once fuel') fuel' (c' :: r);
                  Some (VList vs, r')
            | [] => None
            end
          else
            match strip_prefix (chars "null") s, strip_prefix (chars "true") s,
                  strip_prefix (chars "false") s with
            | Some r, _, _ => Some (VNone, r)
            | _, Some r, _ => Some (VBool true, r)
            | _, _, Some r => Some (VBool false, r)
            | None, None, None =>
                match scan_number s with
                | Some res => Some res
                | None =>
                    match strip_prefix (chars "NaN") s,
                          strip_prefix (chars "Infinity") s,
                          strip_prefix (chars "-Infinity") s with
                    | Some r, _, _ => Some (VFloat nan, r)
                    | _, Some r, _ => Some (VFloat infinity, r)
                    | _, _, Some r => Some (VFloat neg_infinity, r)
                    | None, None, None => None
                    end
                end
            end
      end
  end.

(** [json.loads]: one value between optional white space, and nothing
    after it. *)
Definition loads (text : string) : result value :=
  let s := chars text in
  match scan_once (S (length s)) (skip_ws s) with
  | Some (v, r) =>
      match skip_ws r with
      | [] => Ok v
      | _ :: _ => Raise (mk_exn JSONDecodeError "Extra data")
      end
  | None => Raise (mk_exn JSONDecodeError "Expecting value")
  end.

End Json.

(* ===================================================================== *)
(** * The world outside the program *)
(* ===================================================================== *)

Module Os.
Import Py.

(** What a path names.  A path absent from the map names nothing, in a
    directory where a file can be created; [NoParent] is a path whose
    directory does not exist.  The data of a file is its decoded text. *)
Inductive node :=
  | File (readable writable : bool) (data : string)
  | Directory
  | NoParent.

Record world := mk_world {
  fs : gmap string node;
  stdout : list string;     (* the text of each [print], oldest first *)
  clock : nat -> string;    (* the ISO-8601 text of the n-th reading *)
  ticks : nat
}.

Definition os_error (cls : exn_class) (what path : string) : exn :=
  mk_exn cls (what ++ ": " ++ str_repr path).

(** [open(path, 'r')] followed by reading the whole file. *)
Definition read_file (w : world) (path : string) : result string :=
  match fs w !! path with
  | Some (File true _ data) => Ok data
  | Some (File false _ _) =>
      Raise (os_error PermissionError "[Errno 13] Permission denied" path)
  | Some Directory =>
      Raise (os_error IsADirectoryError "[Errno 21] Is a directory" path)
  | Some NoParent | None =>
      Raise (os_error FileNotFoundError "[Errno 2] No such file or directory" path)
  end.

(** [open(path, 'w')]: the file is created or emptied. *)
Definition open_write (w : world) (path : string) : result world :=
  let emptied r :=
    mk_world (<[path := File r true ""]> (fs w)) (stdout w) (clock w) (ticks w) in
  match fs w !! path with
  | Some (File r true _) => Ok (emptied r)
  | None => Ok (emptied true)
  | Some (File _ false _) =>
      Raise (os_error PermissionError "[Errno 13] Permission denied" path)
  | Some Directory =>
      Raise (os_error IsADirectoryError "[Errno 21] Is a directory" path)
  | Some NoParent =>
      Raise (os_error FileNotFoundError "[Errno 2] No such file or directory" path)
  end.

(** Writing [text] at the end of an open file. *)
Definition write (w : world) (path : string) (text : string) : world :=
  match fs w !! path with
  | Some (File r wr data) =>
      mk_world (<[path := File r wr (data ++ text)]> (fs w))
               (stdout w) (clock w) (ticks w)
  | _ => w
  end.

Definition print (w : world) (text : string) : world :=
  mk_world (fs w) (stdout w ++ [text]) (clock w) (ticks w).

(** [datetime.now().isoformat()]. *)
Definition now (w : world) : string * world :=
  (clock w (ticks w), mk_world (fs w) (stdout w) (clock w) (S (ticks w))).

End Os.

(* ===================================================================== *)
(** * The program *)
(* ===================================================================== *)

Module Xlister.
Import Py.

Local Open Scope Z_scope.

(** ** class EbayListing *)

Record EbayListing := mk_listing {
  title : option string;
  price : float;
  description : option string;
  category : option string;
  condition : option string;
  quantity : Z;
  created_at : string
}.

(** ** class EbayXlister *)

Record EbayXlister := mk_xlister { listings : list EbayListing }.

(** ** Statements

    A statement runs on the [EbayXlister] object and the world, and ends
    normally or by raising; what it did before raising stays done. *)

Record state := mk_state { self : EbayXlister; os : Os.world }.

Definition M (A : Type) : Type := state -> result A * state.

#[global] Instance M_ret : MRet M := fun A a st => (Ok a, st).
#[global] Instance M_bind : MBind M := fun A B f m st =>
  match m st with
  | (Ok a, st') => f a st'
  | (Raise e, st') => (Raise e, st')
  end.

Definition raise {A : Type} (e : exn) : M A := fun st => (Raise e, st).

Definition lift {A : Type} (r : result A) : M A := fun st => (r, st).

(** [try: body except ...: handler]; a handler that does not match the
    exception raises it again. *)
Definition try_except {A : Type} (body : M A) (handler : exn -> M A) : M A :=
  fun st =>
    match body st with
    | (Ok a, st') => (Ok a, st')
    | (Raise e, st') => handler e st'
    end.

Definition print (text : string) : M unit :=
  fun st => (Ok (), mk_state (self st) (Os.print (os st) text)).

Definition now : M string :=
  fun st => let '(t, w) := Os.now (os st) in (Ok t, mk_state (self st) w).

Definition read_file (path : string) : M string :=
  fun st => (Os.read_file (os st) path, st).

Definition open_write (path : string) : M unit :=
  fun st =>
    match Os.open_write (os st) path with
    | Ok w => (Ok (), mk_state (self st) w)
    | Raise e => (Raise e, st)
    end.

Definition write (path text : string) : M unit :=
  fun st => (Ok (), mk_state (self st) (Os.write (os st) path text)).

Definition get_listings : M (list EbayListing) :=
  fun st => (Ok (listings (self st)), st).

Definition listings_append (l : EbayListing) : M unit :=
  fun st => (Ok (), mk_state (mk_xlister (listings (self st) ++ [l])) (os st)).

Fixpoint for_each {A : Type} (xs : list A) (body : A -> M unit) : M unit :=
  match xs with
  | [] => mret ()
  | x :: xs' => body x;; for_each xs' body
  end.

Definition nl : string := String (chr 10) "".

(** ** EbayListing.__init__, to_dict, __str__ *)

Definition EbayListing_init (title : option string) (price : float)
    (description category condition : option string) (quantity : Z)
  : M EbayListing :=
  created ← now;
  mret (mk_listing title price description category condition quantity created).

Definition to_dict (l : EbayListing) : value :=
  VDict [("title", of_str_or_none (title l));
         ("price", VFloat (price l));
         ("description", of_str_or_none (description l));
         ("category", of_str_or_none (category l));
         ("condition", of_str_or_none (condition l));
         ("quantity", VInt (quantity l));
         ("created_at", VStr (created_at l))].

Definition EbayListing_str (l : EbayListing) : string :=
  str_of (title l) ++ " - $" ++ format_2f (price l)
    ++ " (" ++ str_of (condition l) ++ ")".

(** ** EbayXlister.add_listing *)

Definition add_listing (l : EbayListing) : M unit :=
  listings_append l;;
  print ("✓ Added listing: " ++ EbayListing_str l).

(** ** EbayXlister.import_from_csv *)

(** [row.get(key, default)] with a [str] default. *)
Definition get_str (row : Csv.row) (key default : string) : option string :=
  match Csv.get row key default with
  | inl v => v
  | inr d => Some d
  end.

(** [float(row.get(key, default))] and [int(row.get(key, default))] with
    an [int] default. *)
Definition get_float (row : Csv.row) (key : string) (default : Z) : result float :=
  match Csv.get row key default with
  | inl v => float_of v
  | inr d => float_of_int d
  end.

Definition get_int (row : Csv.row) (key : string) (default : Z) : result Z :=
  match Csv.get row key default with
  | inl v => int_of v
  | inr d => Ok d
  end.

(** The body of the loop over the rows. *)
Definition import_row (row : Csv.row) : M unit :=
  let title := get_str row "title" "" in
  price ← lift (get_float row "price" 0);
  let description := get_str row "description" "" in
  let category := get_str row "category" "" in
  let condition := get_str row "condition" "New" in
  quantity ← lift (get_int row "quantity" 1);
  listing ← EbayListing_init title price description category condition quantity;
  add_listing listing.

Definition import_from_csv (filepath : string) : M unit :=
  try_except
    (csvfile ← read_file filepath;
     let '(rows, err) := Csv.DictReader csvfile in
     for_each rows import_row;;
     match err with
     | Some e => raise e
     | None =>
         print (nl ++ "✓ Successfully imported "
                   ++ str_of_int (Z.of_nat (length rows))
                   ++ " listings from " ++ filepath)
     end)
    (fun e =>
       match exn_cls e with
       | FileNotFoundError =>
           print ("✗ Error: File '" ++ filepath ++ "' not found")
       | _ => print ("✗ Error importing CSV: " ++ exn_msg e)
       end).

(** ** EbayXlister.export_to_json *)

Definition export_to_json (filepath : string) : M unit :=
  try_except
    (ls ← get_listings;
     let data := VList (to_dict <$> ls) in
     open_write filepath;;
     write filepath (Json.dumps data);;
     print ("✓ Exported " ++ str_of_int (Z.of_nat (length ls))
              ++ " listings to " ++ filepath))
    (fun e => print ("✗ Error exporting JSON: " ++ exn_msg e)).

(** ** EbayXlister.list_all *)

Definition rule : string := string_of_list_ascii (repeat "="%char 60).

(** [s[:n]]. *)
Definition prefix (n : nat) (s : string) : string := substring 0 n s.

(** What the loop prints for the listing at position [idx], counted
    from 1. *)
Definition list_entry (idx : Z) (l : EbayListing) : M unit :=
  print (str_of_int idx ++ ". " ++ EbayListing_str l);;
  (if truthy (description l)
   then print ("   Description: " ++ prefix 50 (str_of (description l)) ++ "...")
   else mret ());;
  print ("   Category: " ++ str_of (category l)
           ++ " | Quantity: " ++ str_of_int (quantity l));;
  print "".

Fixpoint enumerate {A : Type} (start : Z) (xs : list A) : list (Z * A) :=
  match xs with
  | [] => []
  | x :: xs' => (start, x) :: enumerate (start + 1) xs'
  end.

Definition list_all : M unit :=
  ls ← get_listings;
  match ls with
  | [] => print "No listings found."
  | _ :: _ =>
      print (nl ++ rule);;
      print ("Total Listings: " ++ str_of_int (Z.of_nat (length ls)));;
      print (rule ++ nl);;
      for_each (enumerate 1 ls) (fun il => list_entry il.1 il.2)
  end.

(** ** EbayXlister.get_total_value *)

(** A number: what [sum] returns is the [int] 0 it starts from, or the
    [float] it has accumulated. *)
Inductive number :=
  | Int (z : Z)
  | Float (x : float).

(** [a + x] for a [float] [x]. *)
Definition add_float (a : number) (x : float) : result float :=
  match a with
  | Int z => y ← float_of_int z; Ok (PrimFloat.add y x)
  | Float y => Ok (PrimFloat.add y x)
  end.

(** [x * z] for a [float] [x] and an [int] [z]. *)
Definition mul_float_int (x : float) (z : Z) : result float :=
  y ← float_of_int z; Ok (PrimFloat.mul x y).

(** [sum(price * quantity for ...)]: the terms are computed and added
    one at a time, from the left, starting from the [int] 0. *)
Fixpoint sum_values (acc : number) (ls : list EbayListing) : result number :=
  match ls with
  | [] => Ok acc
  | l :: ls' =>
      t ← mul_float_int (price l) (quantity l);
      acc' ← add_float acc t;
      sum_values (Float acc') ls'
  end.

Definition get_total_value : M number :=
  ls ← get_listings;
  lift (sum_values (Int 0) ls).

(** ** main *)

(** The namespace that [parse_args] returns. *)
Record args := mk_args {
  csv_file : option string;
  json_file : option string;
  list_flag : bool;
  add : option (list string)
}.





Definition nonempty {A : Type} (v : option (list A)) : bool :=
  match v with Some (_ :: _) => true | _ => false end.

Definition format_number (n : number) : result string :=
  match n with
  | Int z => format_2f <$> float_of_int z
  | Float x => Ok (format_2f x)
  end.

Definition main_import (a : args) : M unit :=
  if truthy (csv_file a) then import_from_csv (str_of (csv_file a)) else mret ().

Definition main_add (a : args) : M unit :=
  if nonempty (add a) then
    let values := default [] (add a) in
    if 2 <=? Z.of_nat (length values) then
      let title := default "" (values !! 0%nat) in
      try_except
        (price ← lift (float_of (values !! 1%nat));
         let description := if 2 <? Z.of_nat (length values)
                            then default "" (values !! 2%nat) else "" in
         listing ← EbayListing_init (Some title) price (Some description)
                     (Some "") (Some "New") 1;
         add_listing listing)
        (fun e =>
           match exn_cls e with
           | ValueError => print "✗ Error: Price must be a number"
           | _ => raise e
           end)
    else print "✗ Error: --add requires at least title and price"
  else mret ().

Definition shows_listings (a : args) : bool :=
  list_flag a
  || (negb (truthy (csv_file a)) && negb (nonempty (add a))
      && negb (truthy (json_file a))).

Definition main_list (a : args) : M unit :=
  if shows_listings a then
    list_all;;
    ls ← get_listings;
    match ls with
    | [] => mret ()
    | _ :: _ =>
        total_value ← get_total_value;
        text ← lift (format_number total_value);
        print ("Total Inventory Value: $" ++ text ++ nl)
    end
  else mret ().

Definition main_export (a : args) : M unit :=
  if truthy (json_file a) then export_to_json (str_of (json_file a)) else mret ().

(** The statements of [main] after [parse_args], on a new [EbayXlister]. *)
Definition main_body (a : args) : M unit :=
  main_import a;; main_add a;; main_list a;; main_export a.

Definition EbayXlister_init : EbayXlister := mk_xlister [].

Definition main (a : args) (w : Os.world) : result unit * state :=
  main_body a (mk_state EbayXlister_init w).

End Xlister.

(* ===================================================================== *)
(** * What the operations amount to *)
(* ===================================================================== *)

Module Spec.
Import Py Xlister.

Local Open Scope Z_scope.

(** The listing that a row of an import becomes, created at [created]. *)
Definition row_listing (row : Csv.row) (created : string) : result EbayListing :=
  price ← get_float row "price" 0;
  quantity ← get_int row "quantity" 1;
  Ok (mk_listing (get_str row "title" "") price
        (get_str row "description" "") (get_str row "category" "")
        (get_str row "condition" "New") quantity created).

Definition parses (row : Csv.row) : bool :=
  match row_listing row "" with Ok _ => true | Raise _ => false end.

(** The listings of the rows up to the first one that does not parse,
    the [i]-th created at the [i]-th reading of the clock from [n] on,
    and the exception of that row. *)
Fixpoint imported (clock : nat -> string) (n : nat) (rows : list Csv.row)
  : list EbayListing * option exn :=
  match rows with
  | [] => ([], None)
  | row :: rows' =>
      match row_listing row (clock n) with
      | Ok l => let '(ls, e) := imported clock (S n) rows' in (l :: ls, e)
      | Raise e => ([], Some e)
      end
  end.

Definition added_line (l : EbayListing) : string :=
  "✓ Added listing: " ++ EbayListing_str l.

(** The store and the world after listings [ls] were created and added. *)
Definition after_adding (st : state) (ls : list EbayListing) : state :=
  mk_state (mk_xlister (listings (self st) ++ ls))
    (Os.mk_world (Os.fs (os st)) (Os.stdout (os st) ++ (added_line <$> ls))
       (Os.clock (os st)) (Os.ticks (os st) + length ls)%nat).

(** The state after the lines [texts] were printed. *)
Definition printing (st : state) (texts : list string) : state :=
  mk_state (self st)
    (Os.mk_world (Os.fs (os st)) (Os.stdout (os st) ++ texts)
       (Os.clock (os st)) (Os.ticks (os st))).

(** The last line of an import that read its file. *)
Definition import_report (filepath : string) (n_rows : nat)
    (row_error reader_error : option exn) : string :=
  match row_error, reader_error with
  | Some e, _ | None, Some e => "✗ Error importing CSV: " ++ exn_msg e
  | None, None =>
      nl ++ "✓ Successfully imported " ++ str_of_int (Z.of_nat n_rows)
         ++ " listings from " ++ filepath
  end.

(** The state after [text] was written to a new or emptied [path]. *)
Definition written (st : state) (path : string) (readable : bool) (text : string)
  : state :=
  mk_state (self st)
    (Os.mk_world (<[path := Os.File readable true text]> (Os.fs (os st)))
       (Os.stdout (os st)) (Os.clock (os st)) (Os.ticks (os st))).

(** The text that an export writes. *)
Definition export_text (st : state) : string :=
  Json.dumps (VList (to_dict <$> listings (self st))).

(** The text that the file [path] holds. *)
Definition file_text (w : Os.world) (path : string) : option string :=
  match Os.fs w !! path with
  | Some (Os.File _ _ data) => Some data
  | _ => None
  end.

(** What [json.load] returns for the file [path]. *)
Definition reparsed (w : Os.world) (path : string) : option (result value) :=
  Json.loads <$> file_text w path.

(** The keys of the dict of a listing. *)
Definition fields : list string :=
  ["title"; "price"; "description"; "category"; "condition"; "quantity";
   "created_at"].

(** [data[i][key]]. *)
Definition field (data : value) (i : nat) (key : string) : option value :=
  match data with
  | VList vs => v ← vs !! i; item v key
  | _ => None
  end.

(** Whether a value is the float NaN. *)
Definition nan_value (v : value) : bool :=
  match v with VFloat x => PrimFloat.is_nan x | _ => false end.

Definition export_success (st : state) (path : string) : string :=
  "✓ Exported " ++ str_of_int (Z.of_nat (length (listings (self st))))
    ++ " listings to " ++ path.

(** [float(quantity)], when the conversion does not overflow. *)
Definition to_float (z : Z) : float := SF2Prim (int_to_sf z).

Definition convertible (z : Z) : bool := not_inf (int_to_sf z).

Definition all_convertible (ls : list EbayListing) : bool :=
  forallb (fun l => convertible (quantity l)) ls.


Definition term (l : EbayListing) : float :=
  PrimFloat.mul (price l) (to_float (quantity l)).

(** The sum, from the left, of [price * quantity] over the listings. *)
Definition total (ls : list EbayListing) : number :=
  match ls with
  | [] => Int 0
  | _ :: _ => Float (fold_left (fun acc l => PrimFloat.add acc (term l)) ls 0%float)
  end.

Definition overflow : exn :=
  mk_exn OverflowError "int too large to convert to float".

(** The rows up to the first one that does not parse. *)
Fixpoint parsed_prefix (rows : list Csv.row) : list Csv.row :=
  match rows with
  | [] => []
  | row :: rows' => if parses row then row :: parsed_prefix rows' else []
  end.

(** Whether [path] names a file, and whether it can be opened for
    writing. *)
Definition names_file (w : Os.world) (path : string) : bool :=
  match Os.fs w !! path with Some (Os.File _ _ _) => true | _ => false end.

Definition writable (w : Os.world) (path : string) : bool :=
  match Os.fs w !! path with
  | None | Some (Os.File _ true _) => true
  | _ => false
  end.

(** The last line of the listing step when the store is not empty. *)
Definition total_line (x : string) : string :=
  "Total Inventory Value: $" ++ x ++ nl.

(** What [list_all] prints for the listing at position [idx]. *)
Definition entry_lines (idx : Z) (l : EbayListing) : list string :=
  [(str_of_int idx ++ ". " ++ EbayListing_str l)%string]
  ++ (if truthy (description l)
      then [("   Description: " ++ prefix 50 (str_of (description l)) ++ "...")%string]
      else [])
  ++ [("   Category: " ++ str_of (category l)
         ++ " | Quantity: " ++ str_of_int (quantity l))%string; ""].

Definition listing_lines (ls : list EbayListing) : list string :=
  match ls with
  | [] => ["No listings found."]
  | _ :: _ =>
      [(nl ++ rule)%string;
       ("Total Listings: " ++ str_of_int (Z.of_nat (length ls)))%string;
       (rule ++ nl)%string]
      ++ flat_map (fun il => entry_lines il.1 il.2) (enumerate 1 ls)
  end.

(** The listing that [--add] creates from its values. *)
Definition added_listing (title price_text : string) (more : list string)
    (x : float) (created : string) : EbayListing :=
  mk_listing (Some title) x (Some (default "" (head more))) (Some "")
    (Some "New") 1 created.



(** What [float(None)] raises. *)
Definition no_price : exn :=
  mk_exn TypeError
    "float() argument must be a string or a real number, not 'NoneType'".

End Spec.

(* ===================================================================== *)
(** * Sample inventories *)
(* ===================================================================== *)

Module Samples.
Import Py Xlister Spec.

Local Open Scope string_scope.

Definition clock (n : nat) : string :=
  "2024-05-01T10:00:0" ++ str_of_int (Z.of_nat n).

Definition line (s : string) : string := s ++ nl.

Definition inventory_csv : string :=
  line "title,price,description,quantity"
  ++ line "Widget,29.5,A fine widget,2"
  ++ line "Gadget,5,,3"
  ++ line "Broken,abc,x,1"
  ++ line "Last,1,y,1".

Definition blanks_csv : string :=
  line "title,price,quantity"
  ++ line "Widget,29.5,2"
  ++ line "Unpriced,,1"
  ++ line "Last,1,1".

Definition shop : Os.world :=
  Os.mk_world
    (<["inventory.csv" := Os.File true true inventory_csv]>
       (<["blanks.csv" := Os.File true true blanks_csv]>
          (<["archive" := Os.Directory]> ∅)))
    [] clock 0.

Definition fresh (w : Os.world) : state := mk_state EbayXlister_init w.

Definition inventory_header : list string :=
  ["title"; "price"; "description"; "quantity"].

Definition widget_row : Csv.row :=
  Csv.make_row inventory_header ["Widget"; "29.5"; "A fine widget"; "2"].
Definition gadget_row : Csv.row :=
  Csv.make_row inventory_header ["Gadget"; "5"; ""; "3"].
Definition broken_row : Csv.row :=
  Csv.make_row inventory_header ["Broken"; "abc"; "x"; "1"].
Definition last_row : Csv.row :=
  Csv.make_row inventory_header ["Last"; "1"; "y"; "1"].

Definition blanks_header : list string := ["title"; "price"; "quantity"].

Definition unpriced_row : Csv.row :=
  Csv.make_row blanks_header ["Unpriced"; ""; "1"].

Definition widget : EbayListing :=
  mk_listing (Some "Widget") 29.5 (Some "A fine widget") (Some "Tools")
    (Some "New") 2 "2024-05-01T10:00:00".

Definition manual : EbayListing :=
  mk_listing (Some "Manual") 4
    (Some "A long description that runs well past the fifty characters shown")
    (Some "Books") (Some "Used") 3 "2024-05-01T10:00:01".

Definition stocked : state := mk_state (mk_xlister [widget; manual]) shop.

(** A quantity of 309 digits, as an import reads it from a file. *)
Definition bulk : EbayListing :=
  mk_listing (Some "Bulk") 1 (Some "") (Some "") (Some "New") (10 ^ 308 * 2)
    "2024-05-01T10:00:00".

Definition overstocked : state := mk_state (mk_xlister [bulk]) shop.

Definition bulk_csv : string :=
  line "title,price,quantity"
  ++ line ("Bulk,1," ++ str_of_int (10 ^ 308 * 2)).

Definition warehouse : Os.world :=
  Os.mk_world (<["bulk.csv" := Os.File true true bulk_csv]> ∅) [] clock 0.


(** A price that is not a number, as an import reads it from the text
    [nan]. *)
Definition ghost : EbayListing :=
  mk_listing (Some "Ghost") nan (Some "") (Some "") (Some "New") 1
    "2024-05-01T10:00:00".

Definition haunted : state := mk_state (mk_xlister [widget; ghost]) shop.

(** A file whose rows are all accepted, and a file with a row that ends
    before the price. *)
Definition tidy_csv : string :=
  line "title,price,quantity"
  ++ line "Lamp,12.5,2"
  ++ line "Desk,80,1".

Definition short_csv : string :=
  line "title,price"
  ++ line "Lamp,12.5"
  ++ line "Desk".

Definition depot : Os.world :=
  Os.mk_world
    (<["tidy.csv" := Os.File true true tidy_csv]>
       (<["short.csv" := Os.File true true short_csv]> ∅))
    [] clock 0.

Definition lamp_row : Csv.row :=
  Csv.make_row ["title"; "price"] ["Lamp"; "12.5"].



Definition only_title : args := mk_args None None false (Some ["Lamp"]).
Definition no_number : args := mk_args None None false (Some ["Lamp"; "cheap"]).
Definition lamp_args : args :=
  mk_args None None false (Some ["Lamp"; "12.5"; "Brass"; "extra"]).
Definition list_and_export : args := mk_args None (Some "out.json") true None.
Definition convert : args :=
  mk_args (Some "tidy.csv") (Some "out.json") false None.

End Samples.

(* ===================================================================== *)
(** * The texts of values *)
(* ===================================================================== *)

Module Text.
Import Py Xlister.

Local Open Scope Z_scope.

(** What the digits of a number are. *)
Record digits_of_number (n : Z) (ds : list ascii) : Prop := {
  don_digits : Forall (fun c => is_digit c = true) ds;
  don_nonempty : ds <> [];
  don_value : forall a, digits_val a ds = a * 10 ^ Z.of_nat (length ds) + n;
  don_bound : n < 10 ^ Z.of_nat (length ds);
  don_lead : 0 < n -> exists c r, ds = c :: r /\ Ascii.eqb c "0" = false /\ is_digit c = true;
  don_zero : n = 0 -> ds = ["0"%char];
  don_lower : 0 < n -> 10 ^ (Z.of_nat (length ds) - 1) <= n
}.

(** ** The characters of numbers *)

Definition number_char (c : ascii) : bool :=
  is_digit c || Ascii.eqb c "-" || Ascii.eqb c "+" || Ascii.eqb c "."
  || Ascii.eqb c "e".

Definition starts (P : ascii -> bool) (s : list ascii) : bool :=
  match s with c :: _ => P c | [] => false end.

(** ** The parts of a number *)

Definition digits (ds : list ascii) : Prop := Forall (fun c => is_digit c = true) ds.

Inductive int_part : list ascii -> Prop :=
  | ip_zero : int_part ["0"%char]
  | ip_digits c ds :
      is_digit c = true -> Ascii.eqb c "0" = false -> digits ds ->
      int_part (c :: ds).

Inductive frac_part : list ascii -> Prop :=
  | fp_none : frac_part []
  | fp_digits fd : fd <> [] -> digits fd -> frac_part ("."%char :: fd).

Inductive exp_sign : list ascii -> Prop :=
  | es_none : exp_sign []
  | es_minus : exp_sign ["-"%char]
  | es_plus : exp_sign ["+"%char].

Inductive exp_part : list ascii -> Prop :=
  | ep_none : exp_part []
  | ep_digits sg ed :
      exp_sign sg -> ed <> [] -> digits ed -> exp_part ("e"%char :: sg ++ ed).

(** What may follow a value in the text that [encode] writes: a comma, a
    line break, or nothing. *)
Definition after_value (rest : list ascii) : bool :=
  match rest with
  | [] => true
  | c :: _ => Ascii.eqb c "," || Ascii.eqb c (chr 10)
  end.

(** ** The shape of the text of a float *)

Definition float_token (body : list ascii) : Prop :=
  exists ip frac ex,
    body = ip ++ frac ++ ex /\ int_part ip /\ frac_part frac /\ exp_part ex
    /\ (frac <> [] \/ ex <> []).

Definition scalar (v : value) : Prop :=
  match v with
  | VNone | VInt _ | VFloat _ | VStr _ => True
  | _ => False
  end.

(** The text of one pair of a dict. *)
Definition encode_pair (lvl : nat) (kv : string * value) : list ascii :=
  Json.encode_str kv.1 ++ ":"%char :: " "%char :: Json.encode lvl kv.2.

(** A dict of seven values, none of them a list or a dict. *)
Definition listing_dict (v : value) : Prop := exists l, v = to_dict l.

(** A line break or a printable ASCII character. *)
Definition ascii_text (c : ascii) : bool :=
  (code c =? 10) || ((32 <=? code c) && (code c <=? 126)).

Definition all_ascii (s : list ascii) : bool := forallb ascii_text s.


End Text.

(* ===================================================================== *)
(** * Integers that convert to binary64 *)
(* ===================================================================== *)

Module Binary64.
Import Py Xlister Spec.

Local Open Scope Z_scope.


Lemma div_nearest_even_bounds (num den : Z) :
  0 < den -> 0 <= num ->
  let m := div_nearest_even num den in
  num / den <= m <= num / den + 1
  /\ (2 * (num mod den) < den -> m = num / den)
  /\ (den <= 2 * (num mod den) -> Z.odd (num / den) = true -> m = num / den + 1)
  /\ (den < 2 * (num mod den) -> m = num / den + 1).
Proof.
  intros Hd Hn. unfold div_nearest_even. cbv zeta.
  destruct (Z.compare_spec (2 * (num mod den)) den) as [E|E|E].
  - destruct (Z.even (num / den)) eqn:Ev.
    + repeat split; try lia.
      intros _ Ho. rewrite <- Z.negb_even, Ev in Ho. discriminate.
    + repeat split; lia.
  - repeat split; lia.
  - repeat split; lia.
Qed.




End Binary64.

(* ===================================================================== *)
(** * Decimal digits and the reading of numbers *)
(* ===================================================================== *)

Module Decimal.
Import Py Xlister Spec Text.

Local Open Scope Z_scope.

Lemma code_chr (n : Z) : 0 <= n < 256 -> code (chr n) = n.
Proof.
  intros H. unfold code, chr. rewrite N_ascii_embedding; lia.
Qed.

Lemma code_range (c : ascii) : 0 <= code c < 256.
Proof.
  unfold code. pose proof (N_ascii_bounded c). lia.
Qed.

Lemma chr_code (c : ascii) : chr (code c) = c.
Proof. unfold code, chr. rewrite N2Z.id. apply ascii_N_embedding. Qed.

Lemma is_digit_chr (n : Z) : 0 <= n < 10 -> is_digit (chr (48 + n)) = true.
Proof. intros H. unfold is_digit. rewrite code_chr by lia. lia. Qed.

Lemma digit_val_chr (n : Z) : 0 <= n < 10 -> digit_val (chr (48 + n)) = n.
Proof. intros H. unfold digit_val. rewrite code_chr by lia. lia. Qed.

Lemma digits_val_app (xs ys : list ascii) (a : Z) :
  digits_val a (xs ++ ys) = digits_val (digits_val a xs) ys.
Proof. revert a. induction xs as [|x xs IH]; intros a; simpl; auto. Qed.

Lemma digits_of_S (fuel : nat) (n : Z) (acc : list ascii) :
  digits_of (S fuel) n acc
  = if n <? 10 then chr (48 + n mod 10) :: acc
    else digits_of fuel (n / 10) (chr (48 + n mod 10) :: acc).
Proof. reflexivity. Qed.

Lemma digits_of_spec (fuel : nat) (n : Z) (acc : list ascii) :
  0 <= n < 10 ^ Z.of_nat (S fuel) ->
  exists ds, digits_of (S fuel) n acc = ds ++ acc /\ digits_of_number n ds.
Proof.
  revert n acc. induction fuel as [|fuel IH]; intros n acc Hn;
    (assert (Hm : 0 <= n mod 10 < 10) by (apply Z.mod_pos_bound; lia));
    rewrite digits_of_S; destruct (Z.ltb_spec n 10) as [Hs|Hb].
  1, 3:
    (exists [chr (48 + n mod 10)]; split; [reflexivity|];
     rewrite Z.mod_small by lia;
     split;
     [ constructor; [apply is_digit_chr; lia|constructor]
     | discriminate
     | intros a; simpl; rewrite digit_val_chr by lia; lia
     | simpl; lia
     | intros Hp; eexists _, _; split; [reflexivity|]; split;
       [ apply Ascii.eqb_neq; intros E;
         apply (f_equal code) in E; rewrite code_chr in E by lia;
         change (code "0") with 48 in E; lia
       | apply is_digit_chr; lia ]
     | intros ->; reflexivity
     | intros Hp; simpl; lia ]).
  - change (10 ^ Z.of_nat 1) with 10 in Hn. lia.
  - assert (Hq : 0 <= n / 10 < 10 ^ Z.of_nat (S fuel)).
    { split; [apply Z.div_pos; lia|].
      apply Z.div_lt_upper_bound; [lia|].
      rewrite (Nat2Z.inj_succ (S fuel)), Z.pow_succ_r in Hn by lia. lia. }
    destruct (IH (n / 10) (chr (48 + n mod 10) :: acc) Hq) as (ds & E & Hds).
    exists (ds ++ [chr (48 + n mod 10)]). split.
    { rewrite E, <- app_assoc. reflexivity. }
    destruct Hds as [Hd Hne Hv Hbd Hl Hz Hlow].
    assert (Hlen : Z.of_nat (length (ds ++ [chr (48 + n mod 10)]))
                   = Z.of_nat (length ds) + 1).
    { rewrite length_app. simpl. lia. }
    split.
    + apply Forall_app. split; [exact Hd|].
      constructor; [apply is_digit_chr; lia|constructor].
    + destruct ds; discriminate.
    + intros a. rewrite digits_val_app, Hv. simpl.
      rewrite digit_val_chr by lia. rewrite Hlen, Z.pow_add_r by lia.
      pose proof (Z.div_mod n 10 ltac:(lia)). lia.
    + rewrite Hlen, Z.pow_add_r by lia.
      pose proof (Z.div_mod n 10 ltac:(lia)). lia.
    + intros Hp. destruct (Hl ltac:(apply Z.div_str_pos; lia)) as (c & r & -> & Hc).
      exists c, (r ++ [chr (48 + n mod 10)]). split; [reflexivity|exact Hc].
    + intros ->. lia.
    + intros Hp. rewrite Hlen.
      replace (Z.of_nat (length ds) + 1 - 1) with (Z.succ (Z.of_nat (length ds) - 1))
        by lia.
      assert (0 < Z.of_nat (length ds)) by (destruct ds; [congruence|simpl; lia]).
      rewrite Z.pow_succ_r by lia.
      specialize (Hlow ltac:(apply Z.div_str_pos; lia)).
      pose proof (Z.div_mod n 10 ltac:(lia)). lia.
Qed.

Lemma nat_digits_spec (n : Z) : 0 <= n -> digits_of_number n (nat_digits n).
Proof.
  intros Hn. unfold nat_digits.
  assert (Hb : 0 <= n < 10 ^ Z.of_nat (S (Z.to_nat (Z.log2 n)))).
  { split; [exact Hn|].
    rewrite Nat2Z.inj_succ, Z2Nat.id by apply Z.log2_nonneg.
    destruct (Z.eq_dec n 0) as [->|Hz]; [reflexivity|].
    pose proof (Z.log2_spec n ltac:(lia)) as [_ Hhi].
    eapply Z.lt_le_trans; [exact Hhi|].
    apply Z.pow_le_mono_l. pose proof (Z.log2_nonneg n). lia. }
  destruct (digits_of_spec _ n [] Hb) as (ds & E & Hds).
  rewrite E, app_nil_r. exact Hds.
Qed.

Lemma number_char_facts (c : ascii) :
  number_char c = true ->
  is_space c = false /\ Ascii.eqb c "_" = false /\ Json.is_ws c = false
  /\ Ascii.eqb c dquote = false /\ Ascii.eqb c "{" = false
  /\ Ascii.eqb c "[" = false /\ Ascii.eqb "n" c = false
  /\ Ascii.eqb "t" c = false /\ Ascii.eqb "f" c = false.
Proof.
  destruct c as [[] [] [] [] [] [] [] []]; vm_compute; intros H;
    try discriminate H; repeat split.
Qed.

Lemma digit_facts (c : ascii) :
  is_digit c = true ->
  number_char c = true /\ Ascii.eqb c "-" = false /\ Ascii.eqb c "+" = false
  /\ Ascii.eqb c "." = false /\ Ascii.eqb c "e" = false
  /\ Ascii.eqb c "E" = false /\ lower c = c
  /\ Ascii.eqb c "i" = false /\ Ascii.eqb c "n" = false.
Proof.
  destruct c as [[] [] [] [] [] [] [] []]; vm_compute; intros H;
    try discriminate H; repeat split.
Qed.

Lemma take_digits_app (ds rest : list ascii) :
  Forall (fun c => is_digit c = true) ds ->
  starts is_digit rest = false ->
  take_digits (ds ++ rest) = (ds, rest).
Proof.
  intros Hd Hr. induction Hd as [|c ds Hc Hd IH]; cbn [app].
  - destruct rest as [|c r]; [reflexivity|].
    cbn [starts] in Hr. cbn [take_digits]. now rewrite Hr.
  - cbn [take_digits]. now rewrite Hc, IH.
Qed.

Lemma lstrip_id (c : ascii) (s : list ascii) :
  is_space c = false -> lstrip (c :: s) = c :: s.
Proof. intros H. simpl. now rewrite H. Qed.

Lemma strip_id (s : list ascii) :
  starts is_space s = false ->
  starts is_space (rev s) = false ->
  strip s = s.
Proof.
  intros H1 H2. unfold strip.
  destruct s as [|c s]; [reflexivity|].
  rewrite lstrip_id by exact H1.
  destruct (rev (c :: s)) as [|c' s'] eqn:E.
  - now rewrite <- (rev_involutive (c :: s)), E.
  - rewrite lstrip_id by exact H2. now rewrite <- E, rev_involutive.
Qed.

Lemma drop_underscores_id (s : list ascii) (prev : option ascii) :
  Forall (fun c => Ascii.eqb c "_" = false) s ->
  match prev with Some p => Ascii.eqb p "_" = false | None => True end ->
  drop_underscores prev s = Some s.
Proof.
  intros Hs. revert prev. induction Hs as [|c s Hc Hs IH]; intros prev Hp; simpl.
  - destruct prev as [p|]; [now rewrite Hp|reflexivity].
  - rewrite Hc.
    assert (match prev with Some p => Ascii.eqb p "_" | None => false end = false)
      as -> by (destruct prev; auto).
    simpl. now rewrite (IH (Some c) Hc).
Qed.

Lemma starts_rev_last (P : ascii -> bool) (s : list ascii) (c : ascii) :
  starts P (rev (s ++ [c])) = P c.
Proof. rewrite rev_app_distr. reflexivity. Qed.

(** Texts made of characters of numbers, with a digit at the end, are
    read as they are. *)
Lemma number_text_body (s : list ascii) :
  Forall (fun c => number_char c = true) s ->
  drop_underscores None (strip s) = Some s.
Proof.
  intros Hs.
  assert (Hstrip : strip s = s).
  { apply strip_id.
    - destruct Hs as [|c s Hc _]; [reflexivity|]. simpl.
      apply (number_char_facts c Hc).
    - apply Forall_rev in Hs. destruct Hs as [|c s' Hc _]; [reflexivity|].
      simpl. apply (number_char_facts c Hc). }
  rewrite Hstrip. apply drop_underscores_id; [|exact I].
  eapply Forall_impl; [exact Hs|]. intros c Hc. apply (number_char_facts c Hc).
Qed.

Lemma digits_number_chars (ds : list ascii) :
  Forall (fun c => is_digit c = true) ds ->
  Forall (fun c => number_char c = true) ds.
Proof.
  intros H. eapply Forall_impl; [exact H|]. intros c Hc. apply (digit_facts c Hc).
Qed.

Lemma chars_of_string (l : list ascii) :
  list_ascii_of_string (string_of_list_ascii l) = l.
Proof. apply list_ascii_of_string_of_list_ascii. Qed.

Lemma int_digits_chars (z : Z) :
  Forall (fun c => number_char c = true) (int_digits z).
Proof.
  unfold int_digits. destruct (Z.ltb_spec z 0).
  - constructor; [reflexivity|].
    apply digits_number_chars, (nat_digits_spec (- z)). lia.
  - apply digits_number_chars, (nat_digits_spec z). lia.
Qed.

Lemma take_sign_digit (c : ascii) (s : list ascii) :
  is_digit c = true -> take_sign (c :: s) = (false, c :: s).
Proof.
  intros Hc. unfold take_sign.
  destruct (digit_facts c Hc) as (_ & -> & -> & _). reflexivity.
Qed.

Lemma nat_digits_cons (n : Z) :
  0 <= n -> exists c r, nat_digits n = c :: r /\ is_digit c = true.
Proof.
  intros Hn. destruct (nat_digits_spec n Hn) as [Hd Hne _ _ _ _ _].
  destruct (nat_digits n) as [|c r]; [congruence|].
  exists c, r. split; [reflexivity|]. now inversion Hd.
Qed.

Lemma digits_val_nat_digits (n : Z) : 0 <= n -> digits_val 0 (nat_digits n) = n.
Proof.
  intros Hn. rewrite (don_value _ _ (nat_digits_spec n Hn)). lia.
Qed.

(** [int(str(z))] is [z]. *)
Lemma int_literal_str_of_int (z : Z) :
  int_literal (string_of_list_ascii (int_digits z)) = Some z.
Proof.
  unfold int_literal. rewrite chars_of_string.
  rewrite (number_text_body _ (int_digits_chars z)). simpl.
  unfold int_digits. destruct (Z.ltb_spec z 0) as [Hneg|Hpos].
  - cbn [take_sign Ascii.eqb]. simpl.
    pose proof (nat_digits_spec (- z) ltac:(lia)) as [Hd Hne Hv _ _ _ _].
    rewrite <- (app_nil_r (nat_digits (- z))) at 1.
    rewrite (take_digits_app _ [] Hd eq_refl).
    destruct (nat_digits (- z)) as [|c r] eqn:E; [congruence|].
    rewrite <- E, digits_val_nat_digits by lia. f_equal. lia.
  - destruct (nat_digits_cons z Hpos) as (c & r & E & Hc).
    pose proof (nat_digits_spec z Hpos) as [Hd Hne Hv _ _ _ _].
    rewrite E, (take_sign_digit c r Hc), <- E.
    rewrite <- (app_nil_r (nat_digits z)) at 1.
    rewrite (take_digits_app _ [] Hd eq_refl).
    rewrite E at 1. rewrite digits_val_nat_digits by lia. reflexivity.
Qed.

End Decimal.

(* ===================================================================== *)
(** * [float(repr(x))] *)
(* ===================================================================== *)

Module Exact.
Import Py Xlister Spec Text Decimal.

Local Open Scope Z_scope.

Lemma pow2_pos (k : Z) : 0 <= k -> 0 < 2 ^ k.
Proof. intros. apply Z.pow_pos_nonneg; lia. Qed.

Lemma scale_le_shift (d n l K : Z) :
  0 <= K -> 0 <= l + K ->
  scale_le d n l = (d * 2 ^ (l + K) <=? n * 2 ^ K).
Proof.
  intros HK HlK. unfold scale_le.
  pose proof (pow2_pos K HK) as HpK.
  destruct (Z.leb_spec 0 l) as [Hl|Hl].
  - rewrite Z.pow_add_r by lia.
    pose proof (pow2_pos l Hl).
    destruct (Z.leb_spec (d * 2 ^ l) n), (Z.leb_spec (d * (2 ^ l * 2 ^ K)) (n * 2 ^ K));
      try reflexivity; nia.
  - replace (2 ^ K) with (2 ^ (l + K) * 2 ^ (- l))
      by (rewrite <- Z.pow_add_r by lia; f_equal; lia).
    pose proof (pow2_pos (l + K) HlK). pose proof (pow2_pos (- l) ltac:(lia)).
    destruct (Z.leb_spec d (n * 2 ^ (- l))),
      (Z.leb_spec (d * 2 ^ (l + K)) (n * (2 ^ (l + K) * 2 ^ (- l))));
      try reflexivity; nia.
Qed.

Lemma scale_le_antitone (d n l l' : Z) :
  0 < d -> l' <= l -> scale_le d n l = true -> scale_le d n l' = true.
Proof.
  intros Hd Hl H.
  rewrite (scale_le_shift d n l (Z.max 0 (- l'))) in H by lia.
  rewrite (scale_le_shift d n l' (Z.max 0 (- l'))) by lia.
  apply Z.leb_le in H. apply Z.leb_le.
  eapply Z.le_trans; [|exact H].
  apply Z.mul_le_mono_nonneg_l; [lia|].
  apply Z.pow_le_mono_r; lia.
Qed.

Lemma scale_le_below (d n : Z) :
  0 < d -> 0 < n -> scale_le d n (Z.log2 n - Z.log2 d - 1) = true.
Proof.
  intros Hd Hn.
  pose proof (Z.log2_nonneg n). pose proof (Z.log2_nonneg d).
  rewrite (scale_le_shift d n _ (Z.log2 d + 1)) by lia.
  replace (Z.log2 n - Z.log2 d - 1 + (Z.log2 d + 1)) with (Z.log2 n) by lia.
  destruct (Z.log2_spec n Hn) as [Hn1 _]. destruct (Z.log2_spec d Hd) as [_ Hd2].
  replace (Z.succ (Z.log2 d)) with (Z.log2 d + 1) in Hd2 by lia.
  pose proof (pow2_pos (Z.log2 n) ltac:(lia)).
  pose proof (pow2_pos (Z.log2 d + 1) ltac:(lia)).
  apply Z.leb_le. nia.
Qed.

Lemma scale_le_above (d n : Z) :
  0 < d -> 0 < n -> scale_le d n (Z.log2 n - Z.log2 d + 1) = false.
Proof.
  intros Hd Hn.
  pose proof (Z.log2_nonneg n). pose proof (Z.log2_nonneg d).
  rewrite (scale_le_shift d n _ (Z.log2 d)) by lia.
  replace (Z.log2 n - Z.log2 d + 1 + Z.log2 d) with (Z.log2 n + 1) by lia.
  destruct (Z.log2_spec n Hn) as [_ Hn2]. destruct (Z.log2_spec d Hd) as [Hd1 _].
  replace (Z.succ (Z.log2 n)) with (Z.log2 n + 1) in Hn2 by lia.
  pose proof (pow2_pos (Z.log2 n + 1) ltac:(lia)).
  pose proof (pow2_pos (Z.log2 d) ltac:(lia)).
  apply Z.leb_gt. nia.
Qed.

Lemma floor_log2_ratio_spec (n d L : Z) :
  0 < n -> 0 < d ->
  scale_le d n L = true -> scale_le d n (L + 1) = false ->
  floor_log2_ratio n d = L.
Proof.
  intros Hn Hd Hlo Hhi. unfold floor_log2_ratio.
  set (l0 := Z.log2 n - Z.log2 d).
  pose proof (scale_le_below d n Hd Hn) as Hb. fold l0 in Hb.
  pose proof (scale_le_above d n Hd Hn) as Ha. fold l0 in Ha.
  assert (HL1 : L < l0 + 1).
  { destruct (Z.lt_ge_cases L (l0 + 1)) as [|Hge]; [assumption|].
    rewrite (scale_le_antitone d n L (l0 + 1) Hd Hge Hlo) in Ha. discriminate. }
  assert (HL2 : l0 - 1 < L + 1).
  { destruct (Z.lt_ge_cases (l0 - 1) (L + 1)) as [|Hge]; [assumption|].
    rewrite (scale_le_antitone d n (l0 - 1) (L + 1) Hd Hge Hb) in Hhi. discriminate. }
  destruct (scale_le d n l0) eqn:E.
  - destruct (Z.eq_dec L l0) as [|Hne]; [congruence|].
    assert (Hge : L + 1 <= l0) by lia.
    rewrite (scale_le_antitone d n l0 (L + 1) Hd Hge E) in Hhi. discriminate.
  - destruct (Z.eq_dec L l0) as [->|Hne]; [congruence|]. lia.
Qed.

Lemma digits2_size (m : positive) : digits2_pos m = Pos.size m.
Proof. induction m as [m IH|m IH|]; simpl; congruence. Qed.

Lemma digits2_log2 (m : positive) :
  Z.pos (digits2_pos m) = Z.log2 (Z.pos m) + 1.
Proof.
  destruct m as [m|m|]; simpl; rewrite ?digits2_size; lia.
Qed.

Lemma div_nearest_even_exact (m den : Z) :
  0 < den -> div_nearest_even (m * den) den = m.
Proof.
  intros Hd. unfold div_nearest_even.
  rewrite Z.div_mul, Z.mod_mul by lia.
  destruct (Z.compare_spec (2 * 0) den); first [reflexivity | lia].
Qed.

(** A canonical mantissa and exponent. *)
Lemma bounded_facts (m : positive) (e : Z) :
  bounded prec emax m e = true ->
  fexp prec emax (Z.log2 (Z.pos m) + 1 + e) = e
  /\ Z.pos m < 2 ^ 53 /\ -1074 <= e <= 971.
Proof.
  unfold bounded, canonical_mantissa. intros H.
  apply andb_true_iff in H as [Hc He].
  apply Z.eqb_eq in Hc. apply Z.leb_le in He.
  rewrite digits2_log2 in Hc. split; [exact Hc|].
  unfold fexp, emin, prec, emax in *.
  split; [|lia].
  assert (Z.log2 (Z.pos m) < 53) by lia.
  apply Z.log2_lt_pow2; lia.
Qed.

(** The nearest binary64 value to a ratio that is one already. *)
Lemma round_ratio_exact (s : bool) (m : positive) (e n d : Z) :
  bounded prec emax m e = true ->
  0 < n -> 0 < d ->
  (if 0 <=? e then n = Z.pos m * 2 ^ e * d else n * 2 ^ (- e) = Z.pos m * d) ->
  round_ratio s n d = S754_finite s m e.
Proof.
  intros Hb Hn Hd Hx.
  destruct (bounded_facts m e Hb) as (Hf & Hm & He).
  pose proof (Z.log2_spec (Z.pos m) ltac:(lia)) as [Hlo Hhi].
  pose proof (Z.log2_nonneg (Z.pos m)) as H0.
  replace (Z.succ (Z.log2 (Z.pos m))) with (Z.log2 (Z.pos m) + 1) in Hhi by lia.
  pose proof (pow2_pos (Z.log2 (Z.pos m)) H0) as Hp.
  assert (HL : floor_log2_ratio n d = Z.log2 (Z.pos m) + e).
  { apply floor_log2_ratio_spec; try assumption.
    - destruct (Z.leb_spec 0 e) as [Hpos|Hneg].
      + rewrite (scale_le_shift d n _ 0) by lia.
        rewrite Z.add_0_r, Z.pow_0_r, Z.mul_1_r, Z.pow_add_r by lia.
        pose proof (pow2_pos e Hpos). apply Z.leb_le. nia.
      + rewrite (scale_le_shift d n _ (- e)) by lia.
        replace (Z.log2 (Z.pos m) + e + - e) with (Z.log2 (Z.pos m)) by lia.
        apply Z.leb_le. nia.
    - destruct (Z.leb_spec 0 e) as [Hpos|Hneg].
      + rewrite (scale_le_shift d n _ 0) by lia.
        rewrite Z.add_0_r, Z.pow_0_r, Z.mul_1_r.
        replace (Z.log2 (Z.pos m) + e + 1) with (Z.log2 (Z.pos m) + 1 + e) by lia.
        rewrite Z.pow_add_r by lia.
        pose proof (pow2_pos e Hpos). apply Z.leb_gt. nia.
      + rewrite (scale_le_shift d n _ (- e)) by lia.
        replace (Z.log2 (Z.pos m) + e + 1 + - e) with (Z.log2 (Z.pos m) + 1) by lia.
        apply Z.leb_gt. nia. }
  unfold round_ratio. rewrite HL.
  replace (Z.log2 (Z.pos m) + e + 1) with (Z.log2 (Z.pos m) + 1 + e) by lia.
  rewrite Hf.
  assert (Hmant : (if 0 <=? e then div_nearest_even n (d * 2 ^ e)
                   else div_nearest_even (n * 2 ^ (- e)) d) = Z.pos m).
  { destruct (Z.leb_spec 0 e) as [Hpos|Hneg].
    - rewrite Hx. replace (Z.pos m * 2 ^ e * d) with (Z.pos m * (d * 2 ^ e)) by lia.
      apply div_nearest_even_exact. pose proof (pow2_pos e Hpos). nia.
    - rewrite Hx. apply div_nearest_even_exact. exact Hd. }
  rewrite Hmant. unfold sf_of_mantissa.
  change (2 ^ prec) with (2 ^ 53). change (emax - prec) with 971.
  destruct (Z.eqb_spec (Z.pos m) (2 ^ 53)); [lia|].
  destruct (Z.leb_spec e 971); [reflexivity|lia].
Qed.

Lemma lower_all_cons (c : ascii) (r : list ascii) :
  lower_all (c :: r) = String (lower c) (lower_all r).
Proof. reflexivity. Qed.

Lemma sign_chars_number (s : bool) :
  Forall (fun c => number_char c = true) (sign_chars s).
Proof. destruct s; repeat constructor. Qed.

(** A text that starts with a digit, after its sign, is a decimal. *)
Lemma float_literal_sf_signed (s : bool) (r : list ascii) :
  Forall (fun c => number_char c = true) r ->
  starts is_digit r = true ->
  float_literal_sf (string_of_list_ascii (sign_chars s ++ r))
  = match decimal_literal r with
    | Some (D, E, nd) => Some (decimal_to_sf s D E nd)
    | None => None
    end.
Proof.
  intros Hr Hd. unfold float_literal_sf.
  rewrite chars_of_string.
  rewrite number_text_body
    by (apply Forall_app; split; [apply sign_chars_number|exact Hr]).
  cbn [mbind option_bind].
  destruct r as [|c r]; [discriminate|]. cbn [starts] in Hd.
  assert (Hsign : take_sign (sign_chars s ++ c :: r) = (s, c :: r)).
  { destruct s; [reflexivity|]. apply (take_sign_digit c r Hd). }
  rewrite Hsign. rewrite lower_all_cons.
  destruct (digit_facts c Hd) as (_ & _ & _ & _ & _ & _ & -> & Hi & Hn).
  cbn [String.eqb]. rewrite Hi, Hn. cbn [orb].
  destruct (decimal_literal (c :: r)) as [[[D E] nd]|]; reflexivity.
Qed.

Lemma take_digits_all (ds : list ascii) :
  Forall (fun c => is_digit c = true) ds -> take_digits ds = (ds, []).
Proof.
  intros H. rewrite <- (app_nil_r ds) at 1. now apply take_digits_app.
Qed.

(** The decimal [digits e exponent]. *)
Lemma decimal_literal_exponent (D : Z) (neg : bool) (k : Z) :
  0 <= D -> 0 <= k ->
  decimal_literal (nat_digits D ++ "e"%char :: sign_chars neg ++ nat_digits k)
  = Some (D, (if neg then - k else k), Z.of_nat (length (nat_digits D))).
Proof.
  intros HD Hk. unfold decimal_literal.
  pose proof (nat_digits_spec D HD) as [Hd Hne Hv _ _ _ _].
  pose proof (nat_digits_spec k Hk) as [Hdk Hnek Hvk _ _ _ _].
  rewrite (take_digits_app _ _ Hd) by reflexivity.
  cbn [starts_with_any existsb Ascii.eqb Bool.eqb orb].
  rewrite app_nil_r.
  destruct (nat_digits D) as [|c r] eqn:ED; [congruence|]. rewrite <- ED.
  assert (Hs : take_sign (sign_chars neg ++ nat_digits k) = (neg, nat_digits k)).
  { destruct neg; [reflexivity|].
    destruct (nat_digits_cons k Hk) as (c' & r' & -> & Hc').
    apply take_sign_digit. exact Hc'. }
  rewrite Hs, (take_digits_all _ Hdk).
  destruct (nat_digits k) as [|c' r'] eqn:Ek; [congruence|]. rewrite <- Ek.
  rewrite !digits_val_nat_digits by lia. cbn [length].
  rewrite Z.sub_0_r. reflexivity.
Qed.

Lemma pow10_split (k : Z) : 0 <= k -> 10 ^ k = 5 ^ k * 2 ^ k.
Proof. intros H. rewrite <- Z.pow_mul_l. reflexivity. Qed.

Lemma exact_digits_not_tiny (m : positive) (k nd : Z) :
  0 < k <= 1074 -> 0 <= nd ->
  Z.pos m * 5 ^ k < 10 ^ nd ->
  (nd + - k <? -400) = false.
Proof.
  intros Hk Hnd Hlt. apply Z.ltb_ge.
  destruct (Z.le_gt_cases (-400) (nd + - k)) as [|Hs]; [assumption|exfalso].
  assert (H5 : 0 < 5 ^ k) by (apply Z.pow_pos_nonneg; lia).
  assert (H2 : 0 < 2 ^ k) by (apply Z.pow_pos_nonneg; lia).
  assert (Hle : 10 ^ nd <= 10 ^ (k - 401)) by (apply Z.pow_le_mono_r; lia).
  assert (Hsplit : 10 ^ (k - 401) * 10 ^ 401 = 5 ^ k * 2 ^ k).
  { rewrite <- Z.pow_add_r by lia. replace (k - 401 + 401) with k by lia.
    apply pow10_split. lia. }
  assert (H2k : 2 ^ k <= 2 ^ 1074) by (apply Z.pow_le_mono_r; lia).
  assert (Hc : 2 ^ 1074 < 10 ^ 401) by (vm_compute; reflexivity).
  assert (HA : 5 ^ k < 10 ^ (k - 401)) by nia.
  assert (H1 : 5 ^ k * 2 ^ k < 10 ^ (k - 401) * 2 ^ k)
    by (apply Z.mul_lt_mono_pos_r; assumption).
  assert (H3 : 10 ^ (k - 401) * 2 ^ k < 10 ^ (k - 401) * 10 ^ 401).
  { apply Z.mul_lt_mono_pos_l; lia. }
  lia.
Qed.

(** The exact expansion of a binary64 value is read as that value. *)
Lemma float_literal_sf_exact (s : bool) (m : positive) (e : Z) :
  bounded prec emax m e = true ->
  float_literal_sf (string_of_list_ascii (sign_chars s ++ exact_chars m e))
  = Some (S754_finite s m e).
Proof.
  intros Hb. destruct (bounded_facts m e Hb) as (_ & Hm & He).
  unfold exact_chars. destruct (Z.leb_spec 0 e) as [Hpos|Hneg].
  - assert (HD : 0 < Z.pos m * 2 ^ e).
    { pose proof (pow2_pos e Hpos). nia. }
    pose proof (nat_digits_spec _ (Z.lt_le_incl _ _ HD)) as [Hd Hne Hv Hbd Hl Hz _].
    rewrite float_literal_sf_signed.
    + change ["e"; "0"]%char with ("e"%char :: sign_chars false ++ nat_digits 0).
      rewrite (decimal_literal_exponent _ false 0) by lia.
      unfold decimal_to_sf.
      destruct (Z.eqb_spec (Z.pos m * 2 ^ e) 0); [lia|].
      cbn [Z.ltb Z.compare Z.leb].
      destruct (Z.ltb_spec (Z.of_nat (length (nat_digits (Z.pos m * 2 ^ e))) + 0) (-400));
        [lia|].
      f_equal. apply round_ratio_exact; try assumption; try lia.
      destruct (Z.leb_spec 0 e); lia.
    + apply Forall_app. split; [apply digits_number_chars, Hd|repeat constructor].
    + destruct (Hl HD) as (c & r & -> & _ & Hc). exact Hc.
  - assert (H5 : 0 < 5 ^ (- e)) by (apply Z.pow_pos_nonneg; lia).
    assert (HD : 0 < Z.pos m * 5 ^ (- e)) by nia.
    pose proof (nat_digits_spec _ (Z.lt_le_incl _ _ HD)) as [Hd Hne Hv Hbd Hl Hz _].
    pose proof (nat_digits_spec (- e) ltac:(lia)) as [Hdk _ _ _ _ _ _].
    rewrite float_literal_sf_signed.
    + change ("e"%char :: "-"%char :: nat_digits (- e))
        with ("e"%char :: sign_chars true ++ nat_digits (- e)).
      rewrite (decimal_literal_exponent _ true (- e)) by lia.
      rewrite Z.opp_involutive.
      unfold decimal_to_sf.
      destruct (Z.eqb_spec (Z.pos m * 5 ^ (- e)) 0); [lia|].
      destruct (Z.ltb_spec 400 e); [lia|].
      replace e with (- - e) at 2 by lia.
      rewrite (exact_digits_not_tiny m (- e)) by (try lia; exact Hbd).
      destruct (Z.leb_spec 0 e); [lia|].
      f_equal. apply round_ratio_exact; try assumption.
      * apply Z.pow_pos_nonneg; lia.
      * destruct (Z.leb_spec 0 e); [lia|].
        rewrite (pow10_split (- e)) by lia. lia.
    + apply Forall_app. split; [apply digits_number_chars, Hd|].
      constructor; [reflexivity|]. constructor; [reflexivity|].
      apply digits_number_chars, Hdk.
    + destruct (Hl HD) as (c & r & -> & _ & Hc). exact Hc.
Qed.

Lemma pow10_pos (k : Z) : 0 <= k -> 0 < 10 ^ k.
Proof. intros. apply Z.pow_pos_nonneg; lia. Qed.

Lemma pow10_ge_1 (k : Z) : 0 <= k -> 1 <= 10 ^ k.
Proof. intros. pose proof (pow10_pos k). lia. Qed.

Lemma ndigits_bounds (n : Z) :
  0 < n -> 1 <= ndigits n /\ 10 ^ (ndigits n - 1) <= n < 10 ^ ndigits n.
Proof.
  intros Hn. unfold ndigits.
  pose proof (nat_digits_spec n ltac:(lia)) as [_ Hne _ Hb _ _ Hl].
  split; [destruct (nat_digits n); [congruence|simpl; lia]|].
  split; [apply Hl; exact Hn|exact Hb].
Qed.

(** [10^k <= n / d] for the [k] that [floor_log10_ratio] returns. *)
Lemma floor_log10_ratio_below (n d : Z) :
  0 < n -> 0 < d -> scale10_le d n (floor_log10_ratio n d) = true.
Proof.
  intros Hn Hd. unfold floor_log10_ratio.
  destruct (scale10_le d n (ndigits n - ndigits d)) eqn:E; [exact E|].
  destruct (ndigits_bounds n Hn) as (Ha & Hnlo & _).
  destruct (ndigits_bounds d Hd) as (Hb & _ & Hdhi).
  set (a := ndigits n) in *. set (b := ndigits d) in *.
  unfold scale10_le. destruct (Z.leb_spec 0 (a - b - 1)) as [Hk|Hk]; apply Z.leb_le.
  - assert (H1 : 10 ^ b * 10 ^ (a - b - 1) = 10 ^ (a - 1)).
    { rewrite <- Z.pow_add_r by lia. f_equal. lia. }
    pose proof (pow10_pos (a - b - 1) Hk). nia.
  - assert (H1 : 10 ^ (a - 1) * 10 ^ (- (a - b - 1)) = 10 ^ b).
    { rewrite <- Z.pow_add_r by lia. f_equal. lia. }
    pose proof (pow10_pos (- (a - b - 1)) ltac:(lia)). nia.
Qed.

Lemma candidates_positive (n d k p D q : Z) :
  0 < n -> 0 < d -> 1 <= p ->
  scale10_le d n k = true ->
  In (D, q) (candidates n d k p) -> 0 < D.
Proof.
  intros Hn Hd Hp Hk Hin. unfold candidates in Hin. cbv zeta in Hin.
  set (s := p - 1 - k) in *.
  assert (Hlo : exists num den,
             (if 0 <=? s then (n * 10 ^ s, d) else (n, d * 10 ^ (- s))) = (num, den)
             /\ 0 < den <= num).
  { unfold scale10_le in Hk.
    destruct (Z.leb_spec 0 s) as [Hs|Hs]; eexists _, _; (split; [reflexivity|]).
    - split; [exact Hd|].
      destruct (Z.leb_spec 0 k) as [Hk0|Hk0]; apply Z.leb_le in Hk.
      + pose proof (pow10_ge_1 k Hk0). pose proof (pow10_ge_1 s Hs). nia.
      + assert (10 ^ (- k) <= 10 ^ s) by (apply Z.pow_le_mono_r; lia).
        pose proof (pow10_pos (- k) ltac:(lia)). nia.
    - destruct (Z.leb_spec 0 k) as [Hk0|Hk0]; [|lia]. apply Z.leb_le in Hk.
      assert (10 ^ (- s) <= 10 ^ k) by (apply Z.pow_le_mono_r; lia).
      pose proof (pow10_pos (- s) ltac:(lia)). split; nia. }
  destruct Hlo as (num & den & E & Hden & Hnum). rewrite E in Hin.
  assert (Hq : 0 < num / den) by (apply Z.div_str_pos; lia).
  destruct (2 * (num mod den) ?= den); [destruct (Z.even (num / den))| |];
    simpl in Hin; destruct Hin as [E'|[E'|[]]]; injection E' as <- _; lia.
Qed.

Lemma reads_back_true (s : bool) (m : positive) (e : Z) (cs : list ascii) :
  reads_back s m e cs = true ->
  float_literal_sf (string_of_list_ascii cs) = Some (S754_finite s m e).
Proof.
  unfold reads_back.
  destruct (float_literal_sf (string_of_list_ascii cs)) as [[| | |s' m' e']|];
    try discriminate.
  intros H. apply andb_true_iff in H as [H He]. apply andb_true_iff in H as [Hs Hm].
  apply Bool.eqb_prop in Hs. apply Pos.eqb_eq in Hm. apply Z.eqb_eq in He.
  congruence.
Qed.

Lemma first_reading_back_some (s : bool) (m : positive) (e : Z)
    (cands : list (Z * Z)) (cs : list ascii) :
  first_reading_back s m e cands = Some cs ->
  exists D q, In (D, q) cands /\ cs = sign_chars s ++ repr_chars D q
              /\ reads_back s m e cs = true.
Proof.
  induction cands as [|[D q] cands IH]; simpl; [discriminate|].
  destruct (reads_back s m e (sign_chars s ++ repr_chars D q)) eqn:E.
  - intros H; injection H as <-. exists D, q. auto.
  - intros H. destruct (IH H) as (D' & q' & Hin & Hcs & Hr).
    exists D', q'. auto.
Qed.

(** The text of a finite value is a decimal that reads back, or the
    exact expansion. *)
Lemma shortest_chars_cases (fuel : nat) (p : Z) (s : bool) (m : positive)
    (e n d k : Z) :
  0 < n -> 0 < d -> 1 <= p -> scale10_le d n k = true ->
  shortest_chars fuel p s m e n d k = sign_chars s ++ exact_chars m e
  \/ exists D q,
       0 < D
       /\ shortest_chars fuel p s m e n d k = sign_chars s ++ repr_chars D q
       /\ reads_back s m e (sign_chars s ++ repr_chars D q) = true.
Proof.
  intros Hn Hd. revert p. induction fuel as [|fuel IH]; intros p Hp Hk; simpl.
  - now left.
  - destruct (first_reading_back s m e (candidates n d k p)) as [cs|] eqn:E.
    + destruct (first_reading_back_some _ _ _ _ _ E) as (D & q & Hin & -> & Hr).
      right. exists D, q. split; [|split; [reflexivity|exact Hr]].
      exact (candidates_positive n d k p D q Hn Hd Hp Hk Hin).
    + apply IH; [lia|exact Hk].
Qed.

Lemma finite_repr_chars_cases (s : bool) (m : positive) (e : Z) :
  finite_repr_chars s m e = sign_chars s ++ exact_chars m e
  \/ exists D q,
       0 < D
       /\ finite_repr_chars s m e = sign_chars s ++ repr_chars D q
       /\ reads_back s m e (sign_chars s ++ repr_chars D q) = true.
Proof.
  unfold finite_repr_chars.
  destruct (Z.leb_spec 0 e) as [He|He].
  - assert (0 < Z.pos m * 2 ^ e) by (pose proof (pow2_pos e He); nia).
    apply shortest_chars_cases; try lia.
    apply floor_log10_ratio_below; lia.
  - assert (0 < 2 ^ (- e)) by (apply pow2_pos; lia).
    apply shortest_chars_cases; try lia.
    apply floor_log10_ratio_below; lia.
Qed.

(** [float(repr(x))] is [x], for a finite [x]. *)
Lemma float_literal_sf_finite_repr (s : bool) (m : positive) (e : Z) :
  bounded prec emax m e = true ->
  float_literal_sf (string_of_list_ascii (finite_repr_chars s m e))
  = Some (S754_finite s m e).
Proof.
  intros Hb. destruct (finite_repr_chars_cases s m e) as [->|(D & q & _ & -> & Hr)].
  - apply float_literal_sf_exact. exact Hb.
  - apply reads_back_true. exact Hr.
Qed.

End Exact.

(* ===================================================================== *)
(** * [json.loads(json.dumps(data))] *)
(* ===================================================================== *)

Module Decode.
Import Py Xlister Spec Text Decimal Exact.

Local Open Scope Z_scope.

(** ** Strings *)

Lemma scanstring_escape_char (c : ascii) (tail : list ascii) :
  Json.scanstring (Json.escape_char c ++ tail)
  = '(str, r) ← Json.scanstring tail; Some (c :: str, r).
Proof. destruct c as [[] [] [] [] [] [] [] []]; reflexivity. Qed.

Lemma scanstring_escaped (cs rest : list ascii) :
  Json.scanstring (flat_map Json.escape_char cs ++ dquote :: rest) = Some (cs, rest).
Proof.
  induction cs as [|c cs IH]; [reflexivity|].
  change (flat_map Json.escape_char (c :: cs))
    with (Json.escape_char c ++ flat_map Json.escape_char cs).
  rewrite <- app_assoc, scanstring_escape_char, IH. reflexivity.
Qed.

Lemma scan_once_str (fuel : nat) (s : string) (rest : list ascii) :
  Json.scan_once (S fuel) (Json.encode_str s ++ rest) = Some (VStr s, rest).
Proof.
  unfold Json.encode_str. cbn [app Json.scan_once].
  change (Ascii.eqb dquote dquote) with true. cbv iota.
  rewrite <- app_assoc. cbn [app]. rewrite scanstring_escaped.
  unfold Json.chars. cbn. now rewrite string_of_list_ascii_of_string.
Qed.

Lemma after_value_facts (rest : list ascii) :
  after_value rest = true ->
  starts is_digit rest = false
  /\ starts (fun c => Ascii.eqb c ".") rest = false
  /\ starts (fun c => Ascii.eqb c "e" || Ascii.eqb c "E") rest = false.
Proof.
  destruct rest as [|c rest]; [easy|]. simpl.
  destruct c as [[] [] [] [] [] [] [] []]; vm_compute; intros; try discriminate; auto.
Qed.

Lemma int_part_digits (ip : list ascii) : int_part ip -> digits ip.
Proof.
  intros [|c ds Hc _ Hds]; [repeat constructor|now constructor].
Qed.

Lemma number_sign_digit (s : bool) (c : ascii) (r : list ascii) :
  is_digit c = true ->
  Json.number_sign (sign_chars s ++ c :: r) = (sign_chars s, c :: r).
Proof.
  intros Hc. destruct s; [reflexivity|]. simpl.
  destruct (digit_facts c Hc) as (_ & -> & _). reflexivity.
Qed.

Lemma number_int_part (ip r : list ascii) :
  int_part ip -> starts is_digit r = false ->
  Json.number_int (ip ++ r) = Some (ip, r).
Proof.
  intros [|c ds Hc Hz Hds] Hr; [reflexivity|].
  cbn [app]. unfold Json.number_int. rewrite Hz, Hc.
  change (c :: ds ++ r) with ((c :: ds) ++ r).
  rewrite take_digits_app; [reflexivity|now constructor|exact Hr].
Qed.

Lemma number_frac_part (frac r : list ascii) :
  frac_part frac ->
  starts is_digit r = false ->
  (frac = [] -> starts (fun c => Ascii.eqb c ".") r = false) ->
  Json.number_frac (frac ++ r) = (frac, r).
Proof.
  intros [|[|d ds] Hne Hds] Hr Hp; [|congruence|].
  - cbn [app]. destruct r as [|c r]; [reflexivity|].
    specialize (Hp eq_refl). unfold starts in Hp. unfold Json.number_frac.
    rewrite Hp. reflexivity.
  - cbn [app]. unfold Json.number_frac. cbn [Ascii.eqb Bool.eqb]. cbv iota.
    change (d :: ds ++ r) with ((d :: ds) ++ r).
    rewrite take_digits_app by assumption. reflexivity.
Qed.

Lemma number_exp_part (ex r : list ascii) :
  exp_part ex ->
  starts is_digit r = false ->
  (ex = [] -> starts (fun c => Ascii.eqb c "e" || Ascii.eqb c "E") r = false) ->
  Json.number_exp (ex ++ r) = (ex, r).
Proof.
  intros [|sg [|d ds] Hsg Hne Hds] Hr He; [|congruence|].
  - cbn [app]. destruct r as [|c r]; [reflexivity|].
    specialize (He eq_refl). unfold starts in He. unfold Json.number_exp.
    rewrite He. reflexivity.
  - assert (Hd : is_digit d = true) by now inversion Hds.
    destruct (digit_facts d Hd) as (_ & Hm & Hpl & _).
    cbn [app]. unfold Json.number_exp. cbn [Ascii.eqb Bool.eqb orb]. cbv iota.
    rewrite <- app_assoc.
    destruct Hsg; cbn [app Ascii.eqb Bool.eqb orb]; cbv iota;
      rewrite ?Hm, ?Hpl; cbn [orb]; cbv iota;
      change (d :: ds ++ r) with ((d :: ds) ++ r);
      rewrite take_digits_app by assumption; reflexivity.
Qed.

Lemma starts_app (P : ascii -> bool) (a b : list ascii) :
  starts P (a ++ b) = match a with [] => starts P b | c :: _ => P c end.
Proof. now destruct a. Qed.

(** A text with a fraction or an exponent is read as a [float]. *)
Lemma scan_number_float (s : bool) (ip frac ex rest : list ascii) :
  int_part ip -> frac_part frac -> exp_part ex ->
  (frac <> [] \/ ex <> []) ->
  after_value rest = true ->
  Json.scan_number (sign_chars s ++ ip ++ frac ++ ex ++ rest)
  = x ← float_literal (string_of_list_ascii (sign_chars s ++ ip ++ frac ++ ex));
    Some (VFloat x, rest).
Proof.
  intros Hip Hfrac Hex Hne Hrest.
  destruct (after_value_facts rest Hrest) as (Hr1 & Hr2 & Hr3).
  unfold Json.scan_number.
  assert (Hhead : exists c tl, ip = c :: tl /\ is_digit c = true).
  { destruct Hip as [|c ds Hc _ _]; eauto. }
  destruct Hhead as (c & tl & Eip & Hc).
  assert (E1 : Json.number_sign (sign_chars s ++ ip ++ frac ++ ex ++ rest)
               = (sign_chars s, ip ++ frac ++ ex ++ rest)).
  { rewrite Eip. cbn [app]. now apply number_sign_digit. }
  rewrite E1.
  assert (Hex_r : starts is_digit (ex ++ rest) = false).
  { rewrite starts_app. destruct Hex; [exact Hr1|reflexivity]. }
  rewrite number_int_part; [|exact Hip|].
  2:{ rewrite starts_app. destruct Hfrac; [exact Hex_r|reflexivity]. }
  cbn [mbind option_bind].
  rewrite number_frac_part; [|exact Hfrac|exact Hex_r|].
  2:{ intros _. rewrite starts_app. destruct Hex; [exact Hr2|reflexivity]. }
  rewrite number_exp_part; [|exact Hex|exact Hr1|intros _; exact Hr3].
  destruct frac as [|f frac]; [destruct ex as [|x ex]|]; [|reflexivity..].
  destruct Hne as [H|H]; congruence.
Qed.

(** A text without them is read as an [int]. *)
Lemma scan_number_int (z : Z) (rest : list ascii) :
  after_value rest = true ->
  Json.scan_number (int_digits z ++ rest) = Some (VInt z, rest).
Proof.
  intros Hrest.
  destruct (after_value_facts rest Hrest) as (Hr1 & Hr2 & Hr3).
  pose proof (int_literal_str_of_int z) as Hz.
  set (n := Z.abs z).
  assert (Hn : 0 <= n) by (unfold n; lia).
  assert (E : int_digits z = sign_chars (z <? 0) ++ nat_digits n).
  { unfold int_digits, n. destruct (Z.ltb_spec z 0).
    - now rewrite Z.abs_neq by lia.
    - now rewrite Z.abs_eq by lia. }
  assert (Hip : int_part (nat_digits n)).
  { pose proof (nat_digits_spec n Hn) as [Hd _ _ _ Hl H0 _].
    destruct (Z.eq_dec n 0) as [E0|E0].
    - rewrite (H0 E0). constructor.
    - destruct (Hl ltac:(lia)) as (c & r & Er & Hc0 & Hc).
      rewrite Er in Hd |- *. constructor; [exact Hc|exact Hc0|now inversion Hd]. }
  rewrite E in Hz |- *. rewrite <- app_assoc.
  unfold Json.scan_number.
  destruct (nat_digits_cons n Hn) as (c & tl & Ec & Hc).
  assert (E1 : Json.number_sign (sign_chars (z <? 0) ++ nat_digits n ++ rest)
               = (sign_chars (z <? 0), nat_digits n ++ rest)).
  { rewrite Ec. cbn [app]. now apply number_sign_digit. }
  rewrite E1, number_int_part by assumption.
  cbn [mbind option_bind].
  pose proof (number_frac_part [] rest fp_none Hr1 (fun _ => Hr2)) as E2.
  pose proof (number_exp_part [] rest ep_none Hr1 (fun _ => Hr3)) as E3.
  cbn [app] in E2, E3. rewrite E2, E3, Hz. reflexivity.
Qed.

Lemma zeros_digits (n : Z) : digits (zeros n).
Proof.
  unfold zeros, digits. induction (Z.to_nat n); simpl; constructor; auto.
Qed.

Lemma nat_digits_digits (n : Z) : 0 <= n -> digits (nat_digits n).
Proof. intros Hn. apply (nat_digits_spec n Hn). Qed.

Lemma nat_digits_nonempty (n : Z) : 0 <= n -> nat_digits n <> [].
Proof. intros Hn. apply (nat_digits_spec n Hn). Qed.

Lemma nat_digits_int_part (n : Z) : 0 <= n -> int_part (nat_digits n).
Proof.
  intros Hn. pose proof (nat_digits_spec n Hn) as [Hd _ _ _ Hl H0 _].
  destruct (Z.eq_dec n 0) as [E0|E0].
  - rewrite (H0 E0). constructor.
  - destruct (Hl ltac:(lia)) as (c & r & Er & Hc0 & Hc).
    rewrite Er in Hd |- *. constructor; [exact Hc|exact Hc0|now inversion Hd].
Qed.

(** The digits that are left are a prefix of the digits, and not empty. *)
Lemma strip_trailing_zeros_prefix (rev_ds : list ascii) (q : Z) :
  rev_ds <> [] ->
  exists zs, rev rev_ds = (strip_trailing_zeros rev_ds q).1 ++ zs
             /\ (strip_trailing_zeros rev_ds q).1 <> [].
Proof.
  revert q. induction rev_ds as [|c r IH]; intros q Hne; [congruence|].
  assert (Hrev : rev (c :: r) <> []).
  { simpl. destruct (rev r); discriminate. }
  cbn [strip_trailing_zeros]. destruct (Ascii.eqb c "0").
  - destruct r as [|c' r'].
    + exists []. cbn [fst]. now rewrite app_nil_r.
    + destruct (IH (q + 1) ltac:(discriminate)) as (zs & E & Hn).
      exists (zs ++ [c]). split; [|exact Hn].
      change (rev (c :: c' :: r')) with (rev (c' :: r') ++ [c]).
      rewrite E at 1. now rewrite <- app_assoc.
  - exists []. cbn [fst]. now rewrite app_nil_r.
Qed.

(** The significant digits of a positive number start with a digit that is
    not a zero. *)
Lemma significant_digits (D q : Z) :
  0 < D ->
  exists c ds, (strip_trailing_zeros (rev (nat_digits D)) q).1 = c :: ds
               /\ is_digit c = true /\ Ascii.eqb c "0" = false /\ digits ds.
Proof.
  intros HD.
  pose proof (nat_digits_spec D ltac:(lia)) as [Hd Hne _ _ Hl _ _].
  destruct (Hl HD) as (c & r & Er & Hc0 & Hc).
  destruct (strip_trailing_zeros_prefix (rev (nat_digits D)) q) as (zs & E & Hn).
  { intros H. apply (f_equal (@rev ascii)) in H. rewrite rev_involutive in H.
    now apply Hne. }
  rewrite rev_involutive in E.
  destruct ((strip_trailing_zeros (rev (nat_digits D)) q).1) as [|c' ds]; [congruence|].
  rewrite Er in E. cbn [app] in E. injection E as Ec Er'. subst c'.
  exists c, ds. repeat split; try assumption.
  rewrite Er in Hd. inversion Hd as [|? ? _ Hr]; subst.
  unfold digits. now apply Forall_app in Hr as [? _].
Qed.

Lemma repr_chars_token (D q : Z) : 0 < D -> float_token (repr_chars D q).
Proof.
  intros HD. unfold repr_chars.
  destruct (significant_digits D q HD) as (c & ds & E & Hc & Hc0 & Hds).
  destruct (strip_trailing_zeros (rev (nat_digits D)) q) as [sd q'].
  cbn [fst] in E. subst sd.
  set (nd := Z.of_nat (length (c :: ds))).
  set (decpt := nd + q').
  assert (Hall : digits (c :: ds)) by now constructor.
  destruct ((-4 <? decpt) && (decpt <=? 16)).
  - destruct (Z.leb_spec decpt 0) as [H0|H0]; [|destruct (Z.leb_spec nd decpt) as [H1|H1]].
    + exists ["0"%char], ("."%char :: zeros (- decpt) ++ c :: ds), [].
      split; [now rewrite app_nil_r|].
      split; [constructor|]. split; [|split; [constructor|left; discriminate]].
      constructor; [now destruct (zeros (- decpt))|].
      apply Forall_app. split; [apply zeros_digits|exact Hall].
    + exists (c :: ds ++ zeros (decpt - nd)), [".";"0"]%char, [].
      split; [cbn [app]; now rewrite <- app_assoc|].
      split; [|split; [|split; [constructor|left; discriminate]]].
      * constructor; [exact Hc|exact Hc0|].
        apply Forall_app. split; [exact Hds|apply zeros_digits].
      * constructor; [discriminate|repeat constructor].
    + exists (take (Z.to_nat decpt) (c :: ds)),
             ("."%char :: drop (Z.to_nat decpt) (c :: ds)), [].
      split; [now rewrite app_nil_r|].
      split; [|split; [|split; [constructor|left; discriminate]]].
      * destruct (Z.to_nat decpt) as [|n] eqn:En; [lia|].
        cbn [take]. constructor; [exact Hc|exact Hc0|].
        now apply Forall_take.
      * constructor; [|now apply Forall_drop].
        intros Hd. apply (f_equal (@length ascii)) in Hd.
        rewrite length_drop in Hd. unfold nd in H1. cbn [length] in Hd, H1. lia.
  - set (x := decpt - 1).
    set (e10 := if Z.abs x <? 10 then "0"%char :: nat_digits (Z.abs x)
                else nat_digits (Z.abs x)).
    assert (He : e10 <> [] /\ digits e10).
    { unfold e10. destruct (Z.abs x <? 10).
      - split; [discriminate|]. constructor; [reflexivity|].
        apply nat_digits_digits; lia.
      - split; [apply nat_digits_nonempty|apply nat_digits_digits]; lia. }
    destruct He as [He1 He2].
    set (sg := if x <? 0 then "-"%char else "+"%char).
    assert (Hsg : exp_sign [sg]) by (unfold sg; destruct (x <? 0); constructor).
    exists [c], (match ds with [] => [] | _ :: _ => "."%char :: ds end),
           ("e"%char :: [sg] ++ e10).
    split; [now destruct ds|].
    split; [constructor; [exact Hc|exact Hc0|constructor]|].
    split; [destruct ds; constructor; [discriminate|exact Hds]|].
    split; [now constructor|right; discriminate].
Qed.

Lemma exact_chars_token (m : positive) (e : Z) : float_token (exact_chars m e).
Proof.
  unfold exact_chars. destruct (Z.leb_spec 0 e) as [He|He].
  - exists (nat_digits (Z.pos m * 2 ^ e)), [], ("e"%char :: [] ++ ["0"%char]).
    split; [reflexivity|].
    split; [apply nat_digits_int_part; pose proof (pow2_pos e He); nia|].
    split; [constructor|]. split; [|right; discriminate].
    constructor; [constructor|discriminate|repeat constructor].
  - exists (nat_digits (Z.pos m * 5 ^ (- e))), [],
           ("e"%char :: ["-"%char] ++ nat_digits (- e)).
    split; [reflexivity|].
    split; [apply nat_digits_int_part;
            assert (0 < 5 ^ (- e)) by (apply Z.pow_pos_nonneg; lia); nia|].
    split; [constructor|]. split; [|right; discriminate].
    constructor; [constructor|apply nat_digits_nonempty; lia|apply nat_digits_digits; lia].
Qed.

Lemma finite_repr_token (s : bool) (m : positive) (e : Z) :
  exists body, finite_repr_chars s m e = sign_chars s ++ body /\ float_token body.
Proof.
  destruct (finite_repr_chars_cases s m e) as [E|(D & q & HD & E & _)].
  - exists (exact_chars m e). split; [exact E|apply exact_chars_token].
  - exists (repr_chars D q). split; [exact E|now apply repr_chars_token].
Qed.

(** ** The decoder on the text of a value that is not a list or dict *)

Lemma float_literal_finite_repr (s : bool) (m : positive) (e : Z) :
  bounded prec emax m e = true ->
  float_literal (string_of_list_ascii (finite_repr_chars s m e))
  = Some (SF2Prim (S754_finite s m e)).
Proof.
  intros Hb. unfold float_literal.
  now rewrite float_literal_sf_finite_repr.
Qed.

Lemma scan_number_finite (s : bool) (m : positive) (e : Z) (rest : list ascii) :
  bounded prec emax m e = true ->
  after_value rest = true ->
  Json.scan_number (finite_repr_chars s m e ++ rest)
  = Some (VFloat (SF2Prim (S754_finite s m e)), rest).
Proof.
  intros Hb Hrest. pose proof (float_literal_finite_repr s m e Hb) as Hf.
  destruct (finite_repr_token s m e)
    as (body & E & ip & frac & ex & -> & Hip & Hfrac & Hex & Hne).
  rewrite E in Hf |- *.
  replace ((sign_chars s ++ ip ++ frac ++ ex) ++ rest)
    with (sign_chars s ++ ip ++ frac ++ ex ++ rest)
    by now rewrite <- !app_assoc.
  rewrite scan_number_float by assumption.
  rewrite Hf. reflexivity.
Qed.

Lemma scan_once_number (fuel : nat) (s : list ascii) (res : value * list ascii) :
  starts number_char s = true ->
  Json.scan_number s = Some res ->
  Json.scan_once (S fuel) s = Some res.
Proof.
  destruct s as [|c tl]; [discriminate|]. cbn [starts]. intros Hc Hs.
  destruct (number_char_facts c Hc) as (_ & _ & _ & Hq & Hb & Hk & Hn & Ht & Hf).
  cbn [Json.scan_once]. rewrite Hq, Hb, Hk.
  unfold Json.chars. cbn [list_ascii_of_string Json.strip_prefix].
  rewrite Hn, Ht, Hf, Hs. reflexivity.
Qed.

Lemma starts_finite_repr (s : bool) (m : positive) (e : Z) (rest : list ascii) :
  starts number_char (finite_repr_chars s m e ++ rest) = true.
Proof.
  destruct (finite_repr_token s m e)
    as (body & E & ip & frac & ex & -> & Hip & _).
  rewrite E. destruct s; [reflexivity|]. cbn [sign_chars app].
  destruct Hip as [|c ds Hc _ _]; [reflexivity|].
  cbn [app starts]. now destruct (digit_facts c Hc) as (-> & _).
Qed.

Lemma starts_int_digits (z : Z) (rest : list ascii) :
  starts number_char (int_digits z ++ rest) = true.
Proof.
  pose proof (int_digits_chars z) as H.
  assert (Hne : int_digits z <> []).
  { unfold int_digits. destruct (Z.ltb_spec z 0).
    - discriminate.
    - apply nat_digits_nonempty. lia. }
  destruct (int_digits z) as [|c tl]; [congruence|].
  cbn [app starts]. now inversion H.
Qed.

Lemma scan_once_int (fuel : nat) (z : Z) (rest : list ascii) :
  after_value rest = true ->
  Json.scan_once (S fuel) (int_digits z ++ rest) = Some (VInt z, rest).
Proof.
  intros Hrest. apply scan_once_number.
  - apply starts_int_digits.
  - now apply scan_number_int.
Qed.

Lemma scan_once_float (fuel : nat) (x : float) (rest : list ascii) :
  after_value rest = true ->
  Json.scan_once (S fuel) (Json.encode_float x ++ rest) = Some (VFloat x, rest).
Proof.
  intros Hrest. unfold Json.encode_float.
  pose proof (SF2Prim_Prim2SF x) as Hx.
  pose proof (Prim2SF_valid x) as Hv.
  destruct (Prim2SF x) as [s|s| |s m e].
  - (* zero *)
    assert (E : Json.chars (float_repr_sf (S754_zero s)) ++ rest
                = sign_chars s ++ ["0"%char] ++ [".";"0"]%char ++ [] ++ rest)
      by now destruct s.
    rewrite E. apply scan_once_number; [now destruct s|].
    rewrite scan_number_float; try assumption.
    + rewrite <- Hx. now destruct s.
    + constructor.
    + constructor; [discriminate|repeat constructor].
    + constructor.
    + left. discriminate.
  - (* infinity *)
    rewrite <- Hx. now destruct s.
  - rewrite <- Hx. reflexivity.
  - unfold float_repr_sf, Json.chars. rewrite chars_of_string.
    apply scan_once_number; [apply starts_finite_repr|].
    rewrite scan_number_finite; [now rewrite Hx|exact Hv|exact Hrest].
Qed.

Lemma scan_once_null (fuel : nat) (rest : list ascii) :
  Json.scan_once (S fuel) (Json.chars "null" ++ rest) = Some (VNone, rest).
Proof. reflexivity. Qed.

Lemma scan_once_scalar (fuel lvl : nat) (v : value) (rest : list ascii) :
  scalar v -> after_value rest = true ->
  Json.scan_once (S fuel) (Json.encode lvl v ++ rest) = Some (v, rest).
Proof.
  destruct v; try contradiction; intros _ Hrest.
  - apply scan_once_null.
  - now apply scan_once_int.
  - now apply scan_once_float.
  - apply scan_once_str.
Qed.

Lemma starts_encode_float (x : float) (rest : list ascii) :
  starts (fun c => negb (Json.is_ws c)) (Json.encode_float x ++ rest) = true.
Proof.
  unfold Json.encode_float. destruct (Prim2SF x) as [s|s| |s m e];
    try (now destruct s); try reflexivity.
  unfold float_repr_sf, Json.chars. rewrite chars_of_string.
  pose proof (starts_finite_repr s m e rest) as H.
  destruct (finite_repr_chars s m e ++ rest) as [|c tl]; [discriminate|].
  cbn [starts] in *. now destruct (number_char_facts c H) as (_ & _ & -> & _).
Qed.

(** No white space stands before the text of a value. *)
Lemma skip_ws_scalar (lvl : nat) (v : value) (rest : list ascii) :
  scalar v ->
  Json.skip_ws (Json.encode lvl v ++ rest) = Json.encode lvl v ++ rest.
Proof.
  assert (H : forall s, starts (fun c => negb (Json.is_ws c)) s = true ->
                        Json.skip_ws s = s).
  { intros [|c tl]; [reflexivity|]. cbn [starts Json.skip_ws].
    now destruct (Json.is_ws c). }
  intros Hv. apply H. destruct v; try contradiction.
  - reflexivity.
  - pose proof (starts_int_digits z rest) as Hz. cbn [Json.encode].
    destruct (int_digits z ++ rest) as [|c tl]; [discriminate|].
    cbn [starts] in *. now destruct (number_char_facts c Hz) as (_ & _ & -> & _).
  - apply starts_encode_float.
  - reflexivity.
Qed.

(** ** Lists and dicts *)

Lemma skip_ws_newline_indent (k : nat) (s : list ascii) :
  Json.skip_ws (Json.newline_indent k ++ s) = Json.skip_ws s.
Proof.
  unfold Json.newline_indent. cbn [app Json.skip_ws].
  change (Json.is_ws (chr 10)) with true. cbv iota.
  induction (2 * k)%nat as [|n IH]; [reflexivity|exact IH].
Qed.

Lemma after_value_newline_indent (k : nat) (s : list ascii) :
  after_value (Json.newline_indent k ++ s) = true.
Proof. reflexivity. Qed.

Lemma join_cons_app (sep x : list ascii) (xs : list (list ascii)) (tail : list ascii) :
  Json.join sep (x :: xs) ++ tail
  = x ++ match xs with
         | [] => tail
         | _ :: _ => sep ++ Json.join sep xs ++ tail
         end.
Proof.
  destruct xs as [|y ys]; [reflexivity|].
  change (Json.join sep (x :: y :: ys))
    with (x ++ sep ++ Json.join sep (y :: ys)).
  now rewrite <- !app_assoc.
Qed.

Lemma length_join (k : nat) (sep : list ascii) (items : list (list ascii)) :
  Forall (fun x => (k <= length x)%nat) items ->
  (k * length items <= length (Json.join sep items))%nat.
Proof.
  induction 1 as [|x xs Hx _ IH]; [simpl; lia|].
  destruct xs as [|y ys].
  - cbn [Json.join length]. lia.
  - change (Json.join sep (x :: y :: ys))
      with (x ++ sep ++ Json.join sep (y :: ys)).
    rewrite !length_app. cbn [length] in *. lia.
Qed.

Lemma encode_dict_cons (lvl : nat) (kv : string * value) (d : list (string * value)) :
  Json.encode lvl (VDict (kv :: d))
  = "{"%char :: Json.newline_indent (S lvl)
      ++ Json.join (","%char :: Json.newline_indent (S lvl))
           (map (encode_pair (S lvl)) (kv :: d))
      ++ Json.newline_indent lvl ++ ["}"%char].
Proof. reflexivity. Qed.

Lemma encode_list_cons (lvl : nat) (v : value) (l : list value) :
  Json.encode lvl (VList (v :: l))
  = "["%char :: Json.newline_indent (S lvl)
      ++ Json.join (","%char :: Json.newline_indent (S lvl))
           (map (Json.encode (S lvl)) (v :: l))
      ++ Json.newline_indent lvl ++ ["]"%char].
Proof. reflexivity. Qed.

Section Pairs.
Variable scan : list ascii -> option (value * list ascii).
Variable lvl : nat.
Hypothesis scan_scalar :
  forall v rest, scalar v -> after_value rest = true ->
                 scan (Json.encode lvl v ++ rest) = Some (v, rest).

Lemma object_pairs_step (n : nat) (k : string) (v : value) (tail : list ascii) :
  scalar v -> after_value tail = true ->
  Json.object_pairs scan (S n) (encode_pair lvl (k, v) ++ tail)
  = match Json.skip_ws tail with
    | c :: r =>
        if Ascii.eqb c "}" then Some ([(k, v)], r)
        else if Ascii.eqb c "," then
          '(kvs, r') ← Json.object_pairs scan n (Json.skip_ws r);
          Some ((k, v) :: kvs, r')
        else None
    | [] => None
    end.
Proof.
  intros Hv Htail. unfold encode_pair, Json.encode_str. cbn [fst snd].
  cbn [app Json.object_pairs].
  change (Ascii.eqb dquote dquote) with true. cbv iota.
  rewrite <- !app_assoc. cbn [app].
  rewrite scanstring_escaped. cbn [mbind option_bind].
  cbn [Json.skip_ws].
  change (Json.is_ws ":") with false. change (Json.is_ws " ") with true.
  cbv iota. change (Ascii.eqb ":" ":") with true. cbv iota.
  change (Json.skip_ws (" "%char :: Json.encode lvl v ++ tail))
    with (Json.skip_ws (Json.encode lvl v ++ tail)).
  rewrite skip_ws_scalar by exact Hv.
  rewrite scan_scalar by assumption. cbn [mbind option_bind].
  unfold Json.chars. rewrite string_of_list_ascii_of_string. reflexivity.
Qed.

Lemma skip_ws_pairs (kv : string * value) (d : list (string * value))
    (sep tail : list ascii) :
  Json.skip_ws (Json.join sep (map (encode_pair lvl) (kv :: d)) ++ tail)
  = Json.join sep (map (encode_pair lvl) (kv :: d)) ++ tail.
Proof.
  cbn [map]. rewrite join_cons_app. reflexivity.
Qed.

Lemma object_pairs_encoded (n k : nat) (d : list (string * value)) (r : list ascii) :
  Forall (fun kv => scalar kv.2) d -> d <> [] -> (length d <= n)%nat ->
  Json.object_pairs scan n
    (Json.join (","%char :: Json.newline_indent k) (map (encode_pair lvl) d)
       ++ Json.newline_indent (pred k) ++ "}"%char :: r)
  = Some (d, r).
Proof.
  intros Hd. revert n. induction Hd as [|[key v] d Hv Hd IH]; intros n Hne Hn;
    [congruence|].
  destruct n as [|n]; [cbn [length] in Hn; lia|].
  cbn [snd] in Hv.
  destruct d as [|kv' d']; cbn [map]; rewrite join_cons_app; cbv iota.
  - rewrite object_pairs_step by (auto using after_value_newline_indent).
    rewrite skip_ws_newline_indent. reflexivity.
  - rewrite object_pairs_step by (assumption || reflexivity).
    cbn [app Json.skip_ws]. change (Json.is_ws ",") with false. cbv iota.
    change (Ascii.eqb "," "}") with false. change (Ascii.eqb "," ",") with true.
    cbv iota. rewrite skip_ws_newline_indent.
    change (encode_pair lvl kv' :: map (encode_pair lvl) d')
      with (map (encode_pair lvl) (kv' :: d')).
    rewrite skip_ws_pairs.
    rewrite IH; [reflexivity|discriminate|cbn [length] in *; lia].
Qed.
End Pairs.

Lemma scan_once_brace (fuel : nat) (s : list ascii) :
  Json.scan_once (S fuel) ("{"%char :: s)
  = match Json.skip_ws s with
    | c :: r =>
        if Ascii.eqb c "}" then Some (VDict [], r)
        else
          '(pairs, r') ← Json.object_pairs (Json.scan_once fuel) fuel (c :: r);
          Some (VDict (Json.dict_of_pairs pairs), r')
    | [] => None
    end.
Proof. reflexivity. Qed.

Lemma scan_once_bracket (fuel : nat) (s : list ascii) :
  Json.scan_once (S fuel) ("["%char :: s)
  = match Json.skip_ws s with
    | c :: r =>
        if Ascii.eqb c "]" then Some (VList [], r)
        else
          '(vs, r') ← Json.array_items (Json.scan_once fuel) fuel (c :: r);
          Some (VList vs, r')
    | [] => None
    end.
Proof. reflexivity. Qed.

Lemma scan_once_dict (f lvl : nat) (d : list (string * value)) (rest : list ascii) :
  Forall (fun kv => scalar kv.2) d -> d <> [] -> (length d <= S f)%nat ->
  Json.scan_once (S (S f)) (Json.encode lvl (VDict d) ++ rest)
  = Some (VDict (Json.dict_of_pairs d), rest).
Proof.
  intros Hd Hne Hn. destruct d as [|kv d]; [congruence|].
  rewrite encode_dict_cons. cbn [app]. rewrite scan_once_brace.
  rewrite <- !app_assoc. rewrite skip_ws_newline_indent.
  cbn [app]. rewrite skip_ws_pairs.
  pose proof (object_pairs_encoded (Json.scan_once (S f)) (S lvl)
                (fun v rest => scan_once_scalar f (S lvl) v rest)
                (S f) (S lvl) (kv :: d) rest Hd Hne Hn) as H.
  cbn [pred] in H.
  destruct (Json.join _ _ ++ _) as [|c' tl] eqn:E.
  - rewrite <- E in H. cbn [map] in E. rewrite join_cons_app in E.
    unfold encode_pair, Json.encode_str in E. discriminate.
  - assert (Hc : c' = dquote).
    { cbn [map] in E. rewrite join_cons_app in E.
      unfold encode_pair, Json.encode_str in E. cbn [app] in E. congruence. }
    subst c'. change (Ascii.eqb dquote "}") with false. cbv iota.
    rewrite H. reflexivity.
Qed.

Section Items.
Variable scan : list ascii -> option (value * list ascii).
Variable lvl : nat.
Variable vs_ok : value -> Prop.
Hypothesis scan_item :
  forall v rest, vs_ok v -> after_value rest = true ->
                 scan (Json.encode lvl v ++ rest) = Some (v, rest).
Hypothesis skip_ws_item :
  forall v rest, vs_ok v ->
                 Json.skip_ws (Json.encode lvl v ++ rest) = Json.encode lvl v ++ rest.

Lemma array_items_encoded (n k : nat) (vs : list value) (r : list ascii) :
  Forall vs_ok vs -> vs <> [] -> (length vs <= n)%nat ->
  Json.array_items scan n
    (Json.join (","%char :: Json.newline_indent k) (map (Json.encode lvl) vs)
       ++ Json.newline_indent (pred k) ++ "]"%char :: r)
  = Some (vs, r).
Proof.
  intros Hvs. revert n. induction Hvs as [|v vs Hv Hvs IH]; intros n Hne Hn;
    [congruence|].
  destruct n as [|n]; [cbn [length] in Hn; lia|].
  destruct vs as [|v' vs']; cbn [map]; rewrite join_cons_app; cbv iota;
    cbn [Json.array_items].
  - rewrite scan_item by (assumption || reflexivity).
    cbn [mbind option_bind]. rewrite skip_ws_newline_indent. reflexivity.
  - rewrite scan_item by (assumption || reflexivity).
    cbn [mbind option_bind].
    cbn [app Json.skip_ws]. change (Json.is_ws ",") with false. cbv iota.
    change (Ascii.eqb "," "]") with false. change (Ascii.eqb "," ",") with true.
    cbv iota. rewrite skip_ws_newline_indent.
    change (Json.encode lvl v' :: map (Json.encode lvl) vs')
      with (map (Json.encode lvl) (v' :: vs')).
    assert (Hs : forall tail,
               Json.skip_ws (Json.join (","%char :: Json.newline_indent k)
                               (map (Json.encode lvl) (v' :: vs')) ++ tail)
               = Json.join (","%char :: Json.newline_indent k)
                   (map (Json.encode lvl) (v' :: vs')) ++ tail).
    { intros tail. cbn [map]. rewrite join_cons_app. apply skip_ws_item.
      now inversion Hvs. }
    rewrite Hs, IH; [reflexivity|discriminate|cbn [length] in *; lia].
Qed.
End Items.

(** ** The listings *)


Lemma dict_of_pairs_to_dict (l : EbayListing) :
  VDict (Json.dict_of_pairs
           [("title", of_str_or_none (title l));
            ("price", VFloat (price l));
            ("description", of_str_or_none (description l));
            ("category", of_str_or_none (category l));
            ("condition", of_str_or_none (condition l));
            ("quantity", VInt (quantity l));
            ("created_at", VStr (created_at l))])
  = to_dict l.
Proof. reflexivity. Qed.

Lemma scalar_of_str_or_none (v : option string) : scalar (of_str_or_none v).
Proof. now destruct v. Qed.

Lemma scan_once_to_dict (f lvl : nat) (l : EbayListing) (rest : list ascii) :
  (7 <= f)%nat ->
  Json.scan_once (S f) (Json.encode lvl (to_dict l) ++ rest) = Some (to_dict l, rest).
Proof.
  intros Hf. destruct f as [|f]; [lia|].
  unfold to_dict at 1. rewrite scan_once_dict.
  - now rewrite dict_of_pairs_to_dict.
  - repeat constructor; cbn [snd]; apply scalar_of_str_or_none.
  - discriminate.
  - cbn [length]. lia.
Qed.

Lemma length_encode_to_dict (lvl : nat) (l : EbayListing) :
  (8 <= length (Json.encode lvl (to_dict l)))%nat.
Proof.
  unfold to_dict. rewrite encode_dict_cons. cbn [map]. rewrite join_cons_app.
  unfold encode_pair, Json.encode_str, Json.newline_indent.
  cbn [length app]. rewrite !length_app, repeat_length. cbn [length].
  rewrite !length_app. cbn [length]. lia.
Qed.

(** [json.loads(json.dumps(data, indent=2))] is [data], for the [data] that
    export writes. *)
Lemma loads_dumps_listings (ls : list EbayListing) :
  Json.loads (Json.dumps (VList (to_dict <$> ls))) = Ok (VList (to_dict <$> ls)).
Proof.
  unfold Json.loads, Json.dumps, Json.chars. rewrite chars_of_string.
  destruct ls as [|l ls]; [reflexivity|].
  set (vs := to_dict <$> l :: ls).
  assert (Hvs : Forall listing_dict vs).
  { apply Forall_fmap, Forall_forall. intros x _. now exists x. }
  assert (Hlen : (8 * length vs + 5 <= length (Json.encode 0 (VList vs)))%nat).
  { unfold vs. cbn [fmap list_fmap]. rewrite encode_list_cons.
    cbn [length Json.newline_indent app repeat Nat.mul Nat.add].
    rewrite !length_app. cbn [length].
    pose proof (length_join 8 (","%char :: Json.newline_indent 1)
                  (map (Json.encode 1) (to_dict l :: (to_dict <$> ls)))) as H.
    rewrite length_map in H. cbn [length] in *.
    assert (Hall : Forall (fun x : list ascii => (8 <= length x)%nat)
                     (map (Json.encode 1) (to_dict l :: (to_dict <$> ls)))).
    { apply Forall_forall. intros x Hx. apply list_elem_of_fmap in Hx as (v & -> & Hv).
      change (to_dict l :: (to_dict <$> ls)) with (to_dict <$> l :: ls) in Hv.
      apply list_elem_of_fmap in Hv as (l' & -> & _).
      apply length_encode_to_dict. }
    specialize (H Hall). lia. }
  assert (Hvl : (1 <= length vs)%nat) by (unfold vs; cbn; lia).
  destruct (length (Json.encode 0 (VList vs))) as [|f]; [lia|].
  unfold vs at 1. cbn [fmap list_fmap]. rewrite encode_list_cons.
  cbn [Json.skip_ws app]. change (Json.is_ws "[") with false. cbv iota.
  rewrite scan_once_bracket, skip_ws_newline_indent.
  pose proof (array_items_encoded (Json.scan_once (S f)) 1 listing_dict) as H.
  specialize (H (fun v rest '(ex_intro _ l' E) _ =>
                   eq_ind_r (fun v => Json.scan_once (S f) (Json.encode 1 v ++ rest)
                                      = Some (v, rest))
                     (scan_once_to_dict f 1 l' rest ltac:(lia)) E)).
  assert (Hskip : forall v rest, listing_dict v ->
                    Json.skip_ws (Json.encode 1 v ++ rest) = Json.encode 1 v ++ rest).
  { intros v rest [l' ->]. reflexivity. }
  specialize (H Hskip (S f) 1%nat vs [] Hvs ltac:(discriminate) ltac:(lia)).
  cbn [pred] in H.
  change (to_dict l :: (to_dict <$> ls)) with vs.
  assert (Hs : Json.skip_ws (Json.join (","%char :: Json.newline_indent 1)
                               (map (Json.encode 1) vs)
                             ++ Json.newline_indent 0 ++ ["]"%char])
               = "{"%char :: 
                 tl (Json.join (","%char :: Json.newline_indent 1)
                               (map (Json.encode 1) vs)
                             ++ Json.newline_indent 0 ++ ["]"%char])).
  { unfold vs. cbn [fmap list_fmap map]. rewrite join_cons_app. reflexivity. }
  assert (Hj : Json.join (","%char :: Json.newline_indent 1) (map (Json.encode 1) vs)
               ++ Json.newline_indent 0 ++ ["]"%char]
               = "{"%char :: 
                 tl (Json.join (","%char :: Json.newline_indent 1)
                               (map (Json.encode 1) vs)
                             ++ Json.newline_indent 0 ++ ["]"%char])).
  { unfold vs. cbn [fmap list_fmap map]. rewrite join_cons_app. reflexivity. }
  rewrite Hs. change (Ascii.eqb "{" "]") with false. cbv iota.
  rewrite <- Hj, H. reflexivity.
Qed.

End Decode.

(* ===================================================================== *)
(** * Running statements *)
(* ===================================================================== *)

Module Run.
Import Py Xlister Spec.

Lemma bind_ok {A B : Type} (m : M A) (f : A -> M B) (st st' : state) (a : A) :
  m st = (Ok a, st') -> (m ≫= f) st = f a st'.
Proof. intros H. unfold mbind, M_bind. now rewrite H. Qed.

Lemma bind_raise {A B : Type} (m : M A) (f : A -> M B) (st st' : state) (e : exn) :
  m st = (Raise e, st') -> (m ≫= f) st = (Raise e, st').
Proof. intros H. unfold mbind, M_bind. now rewrite H. Qed.

Lemma printing_nil (st : state) : printing st [] = st.
Proof.
  destruct st as [x [f o c t]]. unfold printing. simpl. now rewrite app_nil_r.
Qed.

Lemma printing_printing (st : state) (a b : list string) :
  printing (printing st a) b = printing st (a ++ b).
Proof. unfold printing. simpl. now rewrite app_assoc. Qed.

Lemma print_run (text : string) (st : state) :
  print text st = (Ok (), printing st [text]).
Proof. reflexivity. Qed.

Lemma self_printing (st : state) (texts : list string) :
  self (printing st texts) = self st.
Proof. reflexivity. Qed.

Lemma list_entry_run (idx : Z) (l : EbayListing) (st : state) :
  list_entry idx l st = (Ok (), printing st (entry_lines idx l)).
Proof.
  unfold list_entry, entry_lines.
  erewrite bind_ok by apply print_run.
  destruct (truthy (description l)).
  - erewrite bind_ok by apply print_run.
    erewrite bind_ok by apply print_run.
    rewrite print_run. now rewrite !printing_printing.
  - erewrite bind_ok by reflexivity.
    erewrite bind_ok by apply print_run.
    rewrite print_run. now rewrite !printing_printing.
Qed.

Lemma list_entries_run (ls : list EbayListing) (k : Z) (st : state) :
  for_each (enumerate k ls) (fun il => list_entry il.1 il.2) st
  = (Ok (), printing st (flat_map (fun il => entry_lines il.1 il.2) (enumerate k ls))).
Proof.
  revert k st. induction ls as [|l ls IH]; intros k st; simpl.
  - now rewrite printing_nil.
  - erewrite bind_ok by apply list_entry_run.
    rewrite IH. now rewrite printing_printing.
Qed.

Lemma list_all_run (st : state) :
  list_all st = (Ok (), printing st (listing_lines (listings (self st)))).
Proof.
  unfold list_all, listing_lines.
  erewrite bind_ok by reflexivity.
  destruct (listings (self st)) as [|l ls] eqn:E.
  - apply print_run.
  - erewrite bind_ok by apply print_run.
    erewrite bind_ok by apply print_run.
    erewrite bind_ok by apply print_run.
    rewrite list_entries_run. now rewrite !printing_printing.
Qed.

(** ** The import loop *)

Lemma after_adding_nil (st : state) : after_adding st [] = st.
Proof.
  destruct st as [[ls] [f o c t]]. unfold after_adding. simpl.
  now rewrite !app_nil_r, Nat.add_0_r.
Qed.

Lemma after_adding_cons (st : state) (l : EbayListing) (ls : list EbayListing) :
  after_adding (after_adding st [l]) ls = after_adding st (l :: ls).
Proof.
  unfold after_adding. simpl. rewrite <- !app_assoc. simpl.
  f_equal. f_equal. lia.
Qed.

Lemma import_row_ok (row : Csv.row) (st : state) (l : EbayListing) :
  row_listing row (Os.clock (os st) (Os.ticks (os st))) = Ok l ->
  import_row row st = (Ok (), after_adding st [l]).
Proof.
  unfold row_listing, import_row. intros H.
  unfold mbind at 1, M_bind, lift.
  destruct (get_float row "price" 0) as [p|e]; [|discriminate].
  unfold mbind at 1, M_bind.
  destruct (get_int row "quantity" 1) as [q|e]; [|discriminate].
  injection H as <-.
  unfold EbayListing_init, add_listing, listings_append, now, Os.now, print,
    Os.print, mbind, M_bind, mret, M_ret, after_adding, added_line. simpl.
  f_equal. f_equal. f_equal. lia.
Qed.

Lemma import_row_raise (row : Csv.row) (st : state) (t : string) (e : exn) :
  row_listing row t = Raise e ->
  import_row row st = (Raise e, st).
Proof.
  unfold row_listing, import_row. intros H.
  unfold mbind at 1, M_bind, lift.
  destruct (get_float row "price" 0) as [p|e1]; [|now injection H as <-].
  unfold mbind at 1, M_bind.
  destruct (get_int row "quantity" 1) as [q|e2]; [discriminate|now injection H as <-].
Qed.

Lemma import_rows_run (rows : list Csv.row) (st : state) :
  for_each rows import_row st
  = (match (imported (Os.clock (os st)) (Os.ticks (os st)) rows).2 with
     | None => Ok ()
     | Some e => Raise e
     end,
     after_adding st (imported (Os.clock (os st)) (Os.ticks (os st)) rows).1).
Proof.
  revert st. induction rows as [|row rows IH]; intros st; simpl.
  - now rewrite after_adding_nil.
  - destruct (row_listing row _) as [l|e] eqn:E.
    + erewrite bind_ok by (apply import_row_ok; exact E).
      rewrite IH. simpl.
      replace (Os.ticks (os st) + 1)%nat with (S (Os.ticks (os st))) by lia.
      destruct (imported _ _ rows) as [ls e']. simpl.
      now rewrite after_adding_cons.
    + erewrite bind_raise by (eapply import_row_raise; exact E).
      simpl. now rewrite after_adding_nil.
Qed.

(** The exceptions of a row and of the reader are not [FileNotFoundError]. *)

Definition not_file_not_found (e : exn) : Prop :=
  exn_cls e <> FileNotFoundError.

Lemma float_of_not_fnf (v : option string) (e : exn) :
  float_of v = Raise e -> not_file_not_found e.
Proof.
  unfold float_of. destruct v as [s|]; [destruct (float_literal s)|];
    intros H; inversion H; discriminate.
Qed.

Lemma int_of_not_fnf (v : option string) (e : exn) :
  int_of v = Raise e -> not_file_not_found e.
Proof.
  unfold int_of. destruct v as [s|]; [destruct (int_literal s)|];
    intros H; inversion H; discriminate.
Qed.

Lemma float_of_int_not_fnf (z : Z) (e : exn) :
  float_of_int z = Raise e -> not_file_not_found e.
Proof.
  unfold float_of_int. destruct (int_to_sf z); intros H; inversion H; discriminate.
Qed.

Lemma row_listing_not_fnf (row : Csv.row) (t : string) (e : exn) :
  row_listing row t = Raise e -> not_file_not_found e.
Proof.
  unfold row_listing, get_float, get_int, Csv.get.
  destruct (row !! "price") as [v|] eqn:Ep.
  - destruct (float_of v) as [p|e1] eqn:E1; simpl.
    + destruct (row !! "quantity") as [v2|]; [|discriminate].
      destruct (int_of v2) as [q|e2] eqn:E2; simpl; [discriminate|].
      intros H; injection H as <-. eapply int_of_not_fnf; eauto.
    + intros H; injection H as <-. eapply float_of_not_fnf; eauto.
  - destruct (float_of_int 0) as [p|e1] eqn:E1; simpl.
    + destruct (row !! "quantity") as [v2|]; [|discriminate].
      destruct (int_of v2) as [q|e2] eqn:E2; simpl; [discriminate|].
      intros H; injection H as <-. eapply int_of_not_fnf; eauto.
    + intros H; injection H as <-. eapply float_of_int_not_fnf; eauto.
Qed.

Lemma imported_not_fnf (clock : nat -> string) (rows : list Csv.row) (n : nat) (e : exn) :
  (imported clock n rows).2 = Some e -> not_file_not_found e.
Proof.
  revert n. induction rows as [|row rows IH]; intros n; simpl; [discriminate|].
  destruct (row_listing row (clock n)) as [l|e1] eqn:E.
  - specialize (IH (S n)). destruct (imported clock (S n) rows). exact IH.
  - simpl. intros H; injection H as <-. eapply row_listing_not_fnf; eauto.
Qed.

Lemma process_char_not_fnf (r r' : Csv.reader) (c : option ascii) (e : exn) :
  Csv.parse_process_char r c = Raise e -> not_file_not_found e.
Proof.
  unfold Csv.parse_process_char, Csv.parse_add_char.
  intros H.
  repeat match type of H with
         | context [match ?x with _ => _ end] => destruct x
         end; inversion H; discriminate.
Qed.

Lemma feed_line_not_fnf (cs : list ascii) (r : Csv.reader) (e : exn) :
  Csv.feed_line r cs = Raise e -> not_file_not_found e.
Proof.
  revert r. induction cs as [|c cs IH]; intros r; simpl.
  - apply process_char_not_fnf. exact r.
  - destruct (Csv.parse_process_char r (Some c)) as [r'|e'] eqn:E; simpl.
    + apply IH.
    + intros H; injection H as <-. eapply process_char_not_fnf; eauto.
Qed.

Lemma records_not_fnf (ls : list (list ascii)) (r : Csv.reader) (e : exn) :
  (Csv.records r ls).2 = Some e -> not_file_not_found e.
Proof.
  revert r. induction ls as [|l ls IH]; intros r; simpl.
  - destruct (_ || _); discriminate.
  - destruct (Csv.feed_line r l) as [r'|e'] eqn:E.
    + destruct (Csv.at_start r').
      * specialize (IH Csv.parse_reset).
        destruct (Csv.records Csv.parse_reset ls). exact IH.
      * apply IH.
    + simpl. intros H; injection H as <-. eapply feed_line_not_fnf; eauto.
Qed.

Lemma DictReader_not_fnf (text : string) (e : exn) :
  (Csv.DictReader text).2 = Some e -> not_file_not_found e.
Proof.
  unfold Csv.DictReader, Csv.reader_rows.
  pose proof (records_not_fnf (Csv.lines [] (list_ascii_of_string text))
                Csv.parse_reset e) as H.
  destruct (Csv.records _ _) as [recs err]. simpl in H.
  destruct recs; exact H.
Qed.

Lemma handler_other (filepath : string) (e : exn) (st : state) :
  not_file_not_found e ->
  (match exn_cls e with
   | FileNotFoundError => print ("✗ Error: File '" ++ filepath ++ "' not found")
   | _ => print ("✗ Error importing CSV: " ++ exn_msg e)
   end) st
  = (Ok (), printing st ["✗ Error importing CSV: " ++ exn_msg e])%string.
Proof.
  unfold not_file_not_found. destruct (exn_cls e); intros H; try reflexivity.
  now destruct H.
Qed.

(** An import that reads its file adds the listings of the rows up to the
    first one that does not parse, and reports. *)
Lemma import_from_csv_run (filepath text : string) (wr : bool) (st : state) :
  Os.fs (os st) !! filepath = Some (Os.File true wr text) ->
  import_from_csv filepath st
  = (Ok (),
     let rows := (Csv.DictReader text).1 in
     let res := imported (Os.clock (os st)) (Os.ticks (os st)) rows in
     printing (after_adding st res.1)
       [import_report filepath (length rows) res.2 (Csv.DictReader text).2]).
Proof.
  intros Hf. unfold import_from_csv, try_except.
  assert (Hr : read_file filepath st = (Ok text, st)).
  { unfold read_file, Os.read_file. now rewrite Hf. }
  erewrite bind_ok by exact Hr.
  pose proof (DictReader_not_fnf text) as Herr.
  destruct (Csv.DictReader text) as [rows err]. simpl in *.
  pose proof (import_rows_run rows st) as Hloop.
  pose proof (imported_not_fnf (Os.clock (os st)) rows (Os.ticks (os st))) as Hrow.
  destruct (imported _ _ rows) as [ls e]. simpl in *.
  destruct e as [e|].
  - erewrite bind_raise by exact Hloop.
    rewrite handler_other by (apply Hrow; reflexivity). reflexivity.
  - erewrite bind_ok by exact Hloop.
    destruct err as [e|].
    + unfold raise. rewrite handler_other by (apply Herr; reflexivity). reflexivity.
    + reflexivity.
Qed.

(** An import whose path names no file changes nothing but the output. *)
Lemma import_from_csv_no_file (filepath : string) (st : state) :
  (forall r w d, Os.fs (os st) !! filepath <> Some (Os.File r w d)) ->
  exists text : string,
    import_from_csv filepath st = (Ok (), printing st [text])
    /\ (text = "✗ Error: File '" ++ filepath ++ "' not found"
        \/ exists msg, text = "✗ Error importing CSV: " ++ msg)%string.
Proof.
  intros Hf. unfold import_from_csv, try_except, read_file, Os.read_file.
  unfold mbind at 1, M_bind.
  destruct (Os.fs (os st) !! filepath) as [[r w d| |]|] eqn:E.
  - now destruct (Hf r w d).
  - eexists; split; [reflexivity|]. right. eexists; reflexivity.
  - eexists; split; [reflexivity|]. now left.
  - eexists; split; [reflexivity|]. now left.
Qed.

(** ** Export *)

Lemma open_write_ok (w w' : Os.world) (path : string) :
  Os.open_write w path = Ok w' ->
  exists r : bool,
    (Os.fs w !! path = None /\ r = true
     \/ exists d, Os.fs w !! path = Some (Os.File r true d))
    /\ w' = Os.mk_world (<[path := Os.File r true ""]> (Os.fs w))
              (Os.stdout w) (Os.clock w) (Os.ticks w).
Proof.
  unfold Os.open_write.
  destruct (Os.fs w !! path) as [[r [|] d| |]|] eqn:E; intros H; inversion H.
  - exists r. split; [right; now exists d|reflexivity].
  - exists true. split; [now left|reflexivity].
Qed.

Lemma open_write_run (path : string) (st : state) (w' : Os.world) :
  Os.open_write (os st) path = Ok w' ->
  open_write path st = (Ok (), mk_state (self st) w').
Proof. intros H. unfold open_write. now rewrite H. Qed.

Lemma open_write_raise (path : string) (st : state) (e : exn) :
  Os.open_write (os st) path = Raise e ->
  open_write path st = (Raise e, st).
Proof. intros H. unfold open_write. now rewrite H. Qed.

Lemma export_to_json_run (path : string) (st : state) :
  export_to_json path st
  = (Ok (),
     match Os.open_write (os st) path with
     | Ok w' =>
         let r := match Os.fs (os st) !! path with
                  | Some (Os.File r _ _) => r
                  | _ => true
                  end in
         printing (written st path r (export_text st)) [export_success st path]
     | Raise e => printing st ["✗ Error exporting JSON: " ++ exn_msg e]%string
     end).
Proof.
  unfold export_to_json, try_except.
  erewrite bind_ok by reflexivity.
  destruct (Os.open_write (os st) path) as [w'|e] eqn:E.
  - erewrite bind_ok by (apply open_write_run; exact E).
    destruct (open_write_ok _ _ _ E) as (r & Hr & ->).
    erewrite bind_ok by reflexivity.
    unfold print, Os.print, Os.write, printing, written, export_text,
      export_success. simpl.
    rewrite lookup_insert_eq. simpl. rewrite insert_insert_eq.
    destruct Hr as [[-> ->]|[d ->]]; reflexivity.
  - erewrite bind_raise by (apply open_write_raise; exact E). reflexivity.
Qed.

(** ** The total *)

Lemma float_of_int_convertible (z : Z) :
  convertible z = true -> float_of_int z = Ok (to_float z).
Proof.
  unfold convertible, not_inf, float_of_int, to_float.
  destruct (int_to_sf z); intros H; try reflexivity. discriminate.
Qed.

Lemma float_of_int_overflow (z : Z) :
  convertible z = false -> float_of_int z = Raise overflow.
Proof.
  unfold convertible, not_inf, float_of_int.
  destruct (int_to_sf z); intros H; try reflexivity; discriminate.
Qed.

Lemma sum_values_float (ls : list EbayListing) (a : float) :
  sum_values (Float a) ls
  = if all_convertible ls
    then Ok (Float (fold_left (fun acc l => PrimFloat.add acc (term l)) ls a))
    else Raise overflow.
Proof.
  revert a. induction ls as [|l ls IH]; intros a; simpl; [reflexivity|].
  unfold mul_float_int.
  destruct (convertible (quantity l)) eqn:E; simpl.
  - rewrite (float_of_int_convertible _ E). simpl. apply IH.
  - now rewrite (float_of_int_overflow _ E).
Qed.

Lemma sum_values_run (ls : list EbayListing) :
  sum_values (Int 0) ls
  = if all_convertible ls then Ok (total ls) else Raise overflow.
Proof.
  destruct ls as [|l ls]; simpl; [reflexivity|].
  unfold mul_float_int.
  destruct (convertible (quantity l)) eqn:E; simpl.
  - rewrite (float_of_int_convertible _ E). simpl. apply sum_values_float.
  - now rewrite (float_of_int_overflow _ E).
Qed.

Lemma get_total_value_run (st : state) :
  get_total_value st
  = (if all_convertible (listings (self st))
     then Ok (total (listings (self st))) else Raise overflow, st).
Proof.
  unfold get_total_value. erewrite bind_ok by reflexivity.
  unfold lift. now rewrite sum_values_run.
Qed.

(** ** The steps of [main] *)

Lemma import_from_csv_unread (filepath : string) (st : state) (e : exn) :
  Os.read_file (os st) filepath = Raise e ->
  exists text : string,
    import_from_csv filepath st = (Ok (), printing st [text])
    /\ (text = "✗ Error: File '" ++ filepath ++ "' not found"
        \/ exists msg, text = "✗ Error importing CSV: " ++ msg)%string.
Proof.
  intros Hf. unfold import_from_csv, try_except.
  erewrite bind_raise by (unfold read_file; rewrite Hf; reflexivity).
  destruct (exn_cls e); eexists; (split; [reflexivity|]);
    solve [ now left | right; eexists; reflexivity ].
Qed.

Lemma read_file_cases (w : Os.world) (filepath : string) :
  (exists wr text, Os.fs w !! filepath = Some (Os.File true wr text))
  \/ (exists e, Os.read_file w filepath = Raise e).
Proof.
  unfold Os.read_file.
  destruct (Os.fs w !! filepath) as [[[|] wr d| |]|]; eauto.
Qed.




Lemma main_list_run (a : args) (st : state) :
  main_list a st
  = if shows_listings a then
      let shown := printing st (listing_lines (listings (self st))) in
      match listings (self st) with
      | [] => (Ok (), shown)
      | _ :: _ =>
          if all_convertible (listings (self st))
          then
            (Ok (),
             printing shown
               [total_line
                  (match total (listings (self st)) with
                   | Int _ => "0.00"
                   | Float x => format_2f x
                   end)])
          else (Raise overflow, shown)
      end
    else (Ok (), st).
Proof.
  unfold main_list. destruct (shows_listings a); [|reflexivity].
  erewrite bind_ok by apply list_all_run.
  erewrite bind_ok by reflexivity.
  rewrite self_printing. cbv zeta.
  destruct (listings (self st)) as [|l ls] eqn:E; [reflexivity|].
  pose proof (get_total_value_run (printing st (listing_lines (l :: ls)))) as Ht.
  rewrite self_printing, E in Ht.
  destruct (all_convertible (l :: ls)).
  - erewrite bind_ok by exact Ht.
    unfold total. unfold format_number, lift, mbind at 1, M_bind.
    reflexivity.
  - erewrite bind_raise by exact Ht. reflexivity.
Qed.

Lemma main_export_returns (a : args) (st : state) :
  exists st', main_export a st = (Ok (), st').
Proof.
  unfold main_export. destruct (truthy (json_file a)).
  - rewrite export_to_json_run. eauto.
  - eexists; reflexivity.
Qed.

(** ** Rows that parse *)

Definition created_at_time (l : EbayListing) (t : string) : EbayListing :=
  mk_listing (title l) (price l) (description l) (category l) (condition l)
    (quantity l) t.

Lemma row_listing_ok_any (row : Csv.row) (t t' : string) (l : EbayListing) :
  row_listing row t = Ok l ->
  row_listing row t' = Ok (created_at_time l t').
Proof.
  unfold row_listing.
  destruct (get_float row "price" 0) as [p|e]; [|discriminate].
  destruct (get_int row "quantity" 1) as [q|e]; [|discriminate].
  simpl. intros H; injection H as <-. reflexivity.
Qed.

Lemma row_listing_raise_any (row : Csv.row) (t t' : string) (e : exn) :
  row_listing row t = Raise e -> row_listing row t' = Raise e.
Proof.
  unfold row_listing.
  destruct (get_float row "price" 0) as [p|e1]; [|trivial].
  destruct (get_int row "quantity" 1) as [q|e2]; [discriminate|trivial].
Qed.

Lemma parses_ok (row : Csv.row) (t : string) :
  parses row = true -> exists l, row_listing row t = Ok l.
Proof.
  unfold parses. destruct (row_listing row "") as [l|e] eqn:E; [|discriminate].
  intros _. eexists. eapply row_listing_ok_any. exact E.
Qed.

Lemma parses_raise (row : Csv.row) (t : string) (e : exn) :
  row_listing row t = Raise e -> parses row = false.
Proof.
  intros H. unfold parses. now rewrite (row_listing_raise_any _ _ "" _ H).
Qed.

(** The rows before one that does not parse are all imported, and the
    import stops there. *)
Lemma imported_until (clock : nat -> string) (pre post : list Csv.row)
    (bad : Csv.row) (e : exn) (n : nat) :
  forallb parses pre = true ->
  row_listing bad "" = Raise e ->
  exists ls,
    imported clock n (pre ++ bad :: post) = (ls, Some e)
    /\ Forall2 (fun row l => exists t, row_listing row t = Ok l) pre ls.
Proof.
  revert n. induction pre as [|row pre IH]; intros n Hp Hb; simpl.
  - rewrite (row_listing_raise_any _ _ (clock n) _ Hb). eauto.
  - simpl in Hp. apply andb_true_iff in Hp as [Hr Hp].
    destruct (parses_ok row (clock n) Hr) as [l El]. rewrite El.
    destruct (IH (S n) Hp Hb) as (ls & -> & HF).
    exists (l :: ls). split; [reflexivity|]. constructor; eauto.
Qed.

Lemma imported_parsed_prefix (clock : nat -> string) (rows : list Csv.row) (n : nat) :
  Forall2 (fun row l => exists t, row_listing row t = Ok l)
    (parsed_prefix rows) (imported clock n rows).1.
Proof.
  revert n. induction rows as [|row rows IH]; intros n; simpl; [constructor|].
  destruct (row_listing row (clock n)) as [l|e] eqn:E.
  - assert (Hp : parses row = true).
    { unfold parses. now rewrite (row_listing_ok_any _ _ "" _ E). }
    rewrite Hp. specialize (IH (S n)).
    destruct (imported clock (S n) rows) as [ls e']. simpl in *.
    constructor; eauto.
  - rewrite (parses_raise _ _ _ E). constructor.
Qed.

(** The message of a price that is not a number. *)
Lemma row_listing_bad_price (row : Csv.row) (s t : string) :
  row !! "price" = Some (Some s) ->
  float_literal s = None ->
  row_listing row t
  = Raise (mk_exn ValueError ("could not convert string to float: " ++ str_repr s)).
Proof.
  intros Hp Hf. unfold row_listing, get_float, Csv.get, float_of.
  now rewrite Hp, Hf.
Qed.

Lemma row_listing_bad_quantity (row : Csv.row) (s t : string) :
  row !! "quantity" = Some (Some s) ->
  int_literal s = None ->
  exists e, row_listing row t = Raise e.
Proof.
  intros Hq Hi. unfold row_listing, get_int, Csv.get, int_of.
  rewrite Hq, Hi. destruct (get_float row "price" 0); simpl; eauto.
Qed.

(** A column that the header does not name is absent from the row. *)
Lemma make_row_absent (fieldnames rec : list string) (key : string) :
  key ∉ fieldnames -> Csv.make_row fieldnames rec !! key = None.
Proof.
  intros Hk. unfold Csv.make_row, Csv.row.
  assert (Hins : forall (ks : list string) (d : gmap string (option string)),
             key ∉ ks -> d !! key = None ->
             fold_left (fun d k => <[k := None]> d) ks d !! key = None).
  { induction ks as [|k ks IH]; intros d Hn Hd; simpl; [exact Hd|].
    apply not_elem_of_cons in Hn as [Hne Hn].
    apply IH; [exact Hn|]. rewrite lookup_insert_ne; [exact Hd|congruence]. }
  assert (Hzip : forall (kvs : list (string * string))
                        (d : gmap string (option string)),
             key ∉ kvs.*1 -> d !! key = None ->
             fold_left (fun d kv => <[kv.1 := Some kv.2]> d) kvs d !! key = None).
  { induction kvs as [|[k v] kvs IH]; intros d Hn Hd; simpl; [exact Hd|].
    apply not_elem_of_cons in Hn as [Hne Hn].
    apply IH; [exact Hn|]. rewrite lookup_insert_ne; [exact Hd|].
    simpl in Hne. congruence. }
  apply Hins.
  - intros Hin. apply Hk. exact (subseteq_drop _ _ _ Hin).
  - apply Hzip; [|apply lookup_empty].
    intros Hin. apply Hk.
    apply list_elem_of_fmap in Hin as ([k v] & -> & Hin).
    apply elem_of_zip_l in Hin. exact Hin.
Qed.

End Run.


(* ===================================================================== *)
(** * The claims *)
(* ===================================================================== *)

Module Claims.
Import Py Xlister Spec Run.

(** ** Strings *)



Lemma prefix_short (n : nat) (s : string) :
  String.length s <= n -> prefix n s = s.
Proof.
  unfold prefix. revert s. induction n as [|n IH]; intros [|c s]; simpl; auto.
  - lia.
  - intros H. f_equal. apply IH. lia.
Qed.

Lemma truthy_nonempty (d : string) : d <> "" -> truthy (Some d) = true.
Proof. destruct d; [congruence|reflexivity]. Qed.


(** ** Positions in the listing *)

Lemma enumerate_lookup {A : Type} (xs : list A) (k : Z) (i : nat) (x : A) :
  xs !! i = Some x ->
  exists before after,
    enumerate k xs = before ++ (k + Z.of_nat i, x)%Z :: after.
Proof.
  revert k i. induction xs as [|y xs IH]; intros k i H; [discriminate|].
  destruct i as [|i]; simpl in *.
  - injection H as ->. exists [], (enumerate (k + 1) xs).
    simpl. now rewrite Z.add_0_r.
  - destruct (IH (k + 1)%Z i H) as (b & a & E).
    exists ((k, y) :: b), a. simpl. rewrite E.
    replace (k + Z.of_nat (S i))%Z with (k + 1 + Z.of_nat i)%Z by lia.
    reflexivity.
Qed.

Lemma listing_lines_entry (ls : list EbayListing) (i : nat) (l : EbayListing) :
  ls !! i = Some l ->
  exists before after,
    listing_lines ls = before ++ entry_lines (Z.of_nat i + 1) l ++ after.
Proof.
  intros H. destruct (enumerate_lookup ls 1 i l H) as (b & a & E).
  unfold listing_lines. destruct ls as [|l0 ls0]; [discriminate|].
  rewrite E, flat_map_app. simpl.
  eexists (_ :: _ :: _ :: flat_map _ b), _.
  replace (1 + Z.of_nat i)%Z with (Z.of_nat i + 1)%Z by lia.
  simpl. rewrite <- !app_assoc. reflexivity.
Qed.

(** ** C4 *)

(** C4: for every store state and every path that does not name an
    existing file, [import_from_csv] returns normally, prints one line
    that reports the failure, and changes neither the listings nor the
    files. *)
Theorem import_of_missing_path_changes_nothing (st : state) (filepath : string) :
  names_file (os st) filepath = false ->
  exists (st' : state) (text : string),
    import_from_csv filepath st = (Ok (), st')
    /\ self st' = self st
    /\ Os.fs (os st') = Os.fs (os st)
    /\ Os.stdout (os st') = Os.stdout (os st) ++ [text]
    /\ (text = "✗ Error: File '" ++ filepath ++ "' not found"
        \/ exists msg, text = "✗ Error importing CSV: " ++ msg)%string.
Proof.
  intros Hn.
  destruct (read_file_cases (os st) filepath) as [(wr & text & H)|(e & H)].
  - unfold names_file in Hn. rewrite H in Hn. discriminate.
  - destruct (import_from_csv_unread _ _ _ H) as (text & E & Ht).
    exists (printing st [text]), text. repeat split; assumption.
Qed.

Lemma import_of_missing_path_witness :
  exists (st' : state) (text : string),
    import_from_csv "nowhere.csv" (Samples.fresh Samples.shop) = (Ok (), st')
    /\ self st' = self (Samples.fresh Samples.shop)
    /\ Os.fs (os st') = Os.fs (os (Samples.fresh Samples.shop))
    /\ Os.stdout (os st') = Os.stdout (os (Samples.fresh Samples.shop)) ++ [text]
    /\ (text = "✗ Error: File '" ++ "nowhere.csv" ++ "' not found"
        \/ exists msg, text = "✗ Error importing CSV: " ++ msg)%string.
Proof.
  apply (import_of_missing_path_changes_nothing (Samples.fresh Samples.shop) "nowhere.csv").
  vm_compute. reflexivity.
Defined.

(** ** C8 *)


(** ** C9 *)

(** C9: for a listing whose description is not empty and has at most 50
    characters, [list_all] prints the whole description followed by the
    ellipsis all the same. *)
Theorem list_all_appends_ellipsis_to_short_description
    (st : state) (i : nat) (l : EbayListing) (d : string) :
  listings (self st) !! i = Some l ->
  description l = Some d ->
  d <> "" ->
  String.length d <= 50 ->
  exists before after,
    list_all st
    = (Ok (),
       printing st
         (before
          ++ [(str_of_int (Z.of_nat i + 1) ++ ". " ++ EbayListing_str l)%string;
              ("   Description: " ++ d ++ "...")%string;
              ("   Category: " ++ str_of (category l)
                 ++ " | Quantity: " ++ str_of_int (quantity l))%string;
              ""]
          ++ after)).
Proof.
  intros Hi Hd Hne Hlen.
  destruct (listing_lines_entry _ _ _ Hi) as (b & a & E).
  exists b, a. rewrite list_all_run, E. unfold entry_lines.
  rewrite Hd, (truthy_nonempty d Hne). simpl str_of.
  now rewrite (prefix_short 50 d Hlen).
Qed.

Lemma list_all_short_description_witness :
  exists before after,
    list_all Samples.stocked
    = (Ok (),
       printing Samples.stocked
         (before
          ++ [(str_of_int (Z.of_nat 0 + 1) ++ ". " ++ EbayListing_str Samples.widget)%string;
              ("   Description: " ++ "A fine widget" ++ "...")%string;
              ("   Category: " ++ str_of (category Samples.widget)
                 ++ " | Quantity: " ++ str_of_int (quantity Samples.widget))%string;
              ""]
          ++ after)).
Proof.
  apply (list_all_appends_ellipsis_to_short_description
           Samples.stocked 0 Samples.widget "A fine widget").
  - reflexivity.
  - reflexivity.
  - discriminate.
  - vm_compute. lia.
Defined.

(** ** C7 *)

Lemma open_write_writable (w : Os.world) (path : string) :
  writable w path = true ->
  exists w', Os.open_write w path = Ok w'.
Proof.
  unfold writable, Os.open_write.
  destruct (Os.fs w !! path) as [[r [|] d| |]|]; intros H;
    try discriminate; eauto.
Qed.

Lemma open_write_unwritable (w : Os.world) (path : string) :
  writable w path = false ->
  exists e, Os.open_write w path = Raise e.
Proof.
  unfold writable, Os.open_write.
  destruct (Os.fs w !! path) as [[r [|] d| |]|]; intros H;
    try discriminate; eauto.
Qed.

(** C7: for every store state and every destination, [export_to_json]
    returns normally after printing one line: either the success line
    with the count of the listings, the destination then holding the
    serialized listings whatever it held before, or the failure line with
    the message of the error, the files then being as they were. *)
Theorem export_reports_and_never_raises (st : state) (path : string) :
  exists (st' : state) (text : string),
    export_to_json path st = (Ok (), st')
    /\ self st' = self st
    /\ Os.stdout (os st') = Os.stdout (os st) ++ [text]
    /\ (if writable (os st) path then
          text = ("✓ Exported "
                    ++ str_of_int (Z.of_nat (length (listings (self st))))
                    ++ " listings to " ++ path)%string
          /\ exists r,
               Os.fs (os st')
               = <[path := Os.File r true
                             (Json.dumps (VList (to_dict <$> listings (self st))))]>
                   (Os.fs (os st))
        else
          exists e,
            Os.open_write (os st) path = Raise e
            /\ text = ("✗ Error exporting JSON: " ++ exn_msg e)%string
            /\ Os.fs (os st') = Os.fs (os st)).
Proof.
  rewrite export_to_json_run.
  destruct (writable (os st) path) eqn:W.
  - destruct (open_write_writable _ _ W) as [w' E]. rewrite E.
    eexists _, _. repeat split. eexists. reflexivity.
  - destruct (open_write_unwritable _ _ W) as [e E]. rewrite E.
    eexists _, _. repeat split. exists e. repeat split.
Qed.

(** ** C1 *)




(** ** C3 *)

(** C3: when the file of an import has a row whose price is a string that
    is not a number, and the rows before it parse, the import returns
    normally; the rows before it have been added to the store in order,
    each with its confirmation line; no later row is added; and the last
    line printed reports the conversion error. *)
Theorem import_stops_at_non_numeric_price
    (st : state) (filepath text : string) (wr : bool)
    (pre post : list Csv.row) (bad : Csv.row) (s : string) :
  Os.fs (os st) !! filepath = Some (Os.File true wr text) ->
  (Csv.DictReader text).1 = pre ++ bad :: post ->
  forallb parses pre = true ->
  bad !! "price" = Some (Some s) ->
  float_literal s = None ->
  exists (st' : state) (ls : list EbayListing),
    import_from_csv filepath st = (Ok (), st')
    /\ listings (self st') = listings (self st) ++ ls
    /\ Forall2 (fun row l => exists t, row_listing row t = Ok l) pre ls
    /\ Os.stdout (os st')
       = (Os.stdout (os st) ++ (added_line <$> ls))
         ++ [("✗ Error importing CSV: could not convert string to float: "
                ++ str_repr s)%string]
    /\ Os.fs (os st') = Os.fs (os st).
Proof.
  intros Hf Hrows Hpre Hprice Hlit.
  rewrite (import_from_csv_run _ _ _ _ Hf). cbv zeta. rewrite Hrows.
  pose proof (row_listing_bad_price bad s "" Hprice Hlit) as Hbad.
  destruct (imported_until (Os.clock (os st)) pre post bad _ (Os.ticks (os st))
              Hpre Hbad) as (ls & -> & HF).
  eexists _, ls. repeat split. exact HF.
Qed.

Lemma import_stops_at_abc_witness :
  exists (st' : state) (ls : list EbayListing),
    import_from_csv "inventory.csv" (Samples.fresh Samples.shop) = (Ok (), st')
    /\ listings (self st') = listings (self (Samples.fresh Samples.shop)) ++ ls
    /\ Forall2 (fun row l => exists t, row_listing row t = Ok l)
         [Samples.widget_row; Samples.gadget_row] ls
    /\ Os.stdout (os st')
       = (Os.stdout (os (Samples.fresh Samples.shop)) ++ (added_line <$> ls))
         ++ [("✗ Error importing CSV: could not convert string to float: "
                ++ str_repr "abc")%string]
    /\ Os.fs (os st') = Os.fs (os (Samples.fresh Samples.shop)).
Proof.
  apply (import_stops_at_non_numeric_price (Samples.fresh Samples.shop)
           "inventory.csv" Samples.inventory_csv true
           [Samples.widget_row; Samples.gadget_row] [Samples.last_row]
           Samples.broken_row "abc").
  - vm_compute. reflexivity.
  - vm_compute. reflexivity.
  - vm_compute. reflexivity.
  - vm_compute. reflexivity.
  - vm_compute. reflexivity.
Defined.

(** ** C5 *)

Lemma import_row_listing (row : Csv.row) (st st' : state) :
  import_row row st = (Ok (), st') ->
  exists l,
    row_listing row (Os.clock (os st) (Os.ticks (os st))) = Ok l
    /\ listings (self st') = listings (self st) ++ [l].
Proof.
  intros H.
  destruct (row_listing row (Os.clock (os st) (Os.ticks (os st)))) as [l|e] eqn:E.
  - rewrite (import_row_ok _ _ _ E) in H. injection H as <-. eauto.
  - rewrite (import_row_raise _ _ _ _ E) in H. discriminate.
Qed.

(** C5: a row of an import becomes a listing whose fields, for the
    columns that the header does not name, are the empty string for
    title, description and category, 0 for price, "New" for condition
    and 1 for quantity; every row parsed is added with [add_listing],
    and the store grows by the number of rows parsed, which are the rows
    up to the first one that does not parse. *)
Theorem import_uses_defaults_and_grows_by_parsed_rows
    (st : state) (filepath text : string) (wr : bool) :
  Os.fs (os st) !! filepath = Some (Os.File true wr text) ->
  (exists (st' : state) (ls : list EbayListing) (report : string),
     import_from_csv filepath st = (Ok (), st')
     /\ listings (self st') = listings (self st) ++ ls
     /\ length ls = length (parsed_prefix (Csv.DictReader text).1)
     /\ Forall2 (fun row l => exists t, row_listing row t = Ok l)
          (parsed_prefix (Csv.DictReader text).1) ls
     /\ Os.stdout (os st')
        = (Os.stdout (os st) ++ (added_line <$> ls)) ++ [report])
  /\ (forall (row : Csv.row) (st0 st1 : state),
        import_row row st0 = (Ok (), st1) ->
        exists l,
          listings (self st1) = listings (self st0) ++ [l]
          /\ (row !! "title" = None -> title l = Some "")
          /\ (row !! "price" = None -> price l = 0%float)
          /\ (row !! "description" = None -> description l = Some "")
          /\ (row !! "category" = None -> category l = Some "")
          /\ (row !! "condition" = None -> condition l = Some "New")
          /\ (row !! "quantity" = None -> quantity l = 1%Z))
  /\ (forall (fieldnames rec : list string) (key : string),
        key ∉ fieldnames -> Csv.make_row fieldnames rec !! key = None).
Proof.
  intros Hf. split; [|split].
  - rewrite (import_from_csv_run _ _ _ _ Hf). cbv zeta.
    pose proof (imported_parsed_prefix (Os.clock (os st)) (Csv.DictReader text).1
                  (Os.ticks (os st))) as HF.
    eexists _, _, _. repeat split.
    + symmetry. eapply Forall2_length. exact HF.
    + exact HF.
  - intros row st0 st1 H.
    destruct (import_row_listing _ _ _ H) as (l & El & Hl).
    exists l. split; [exact Hl|].
    unfold row_listing, get_float, get_int, get_str, Csv.get in El.
    destruct (row !! "price") as [vp|] eqn:Ep;
      destruct (row !! "quantity") as [vq|] eqn:Eq; simpl in El;
      repeat match type of El with
             | context [float_of ?v] => destruct (float_of v); simpl in El
             | context [int_of ?v] => destruct (int_of v); simpl in El
             end;
      try discriminate El; injection El as <-;
      repeat split; intros Hk; try discriminate Hk; simpl;
      rewrite ?Hk; reflexivity.
  - apply make_row_absent.
Qed.

Lemma import_defaults_witness :
  (exists (st' : state) (ls : list EbayListing) (report : string),
     import_from_csv "blanks.csv" (Samples.fresh Samples.shop) = (Ok (), st')
     /\ listings (self st') = listings (self (Samples.fresh Samples.shop)) ++ ls
     /\ length ls = length (parsed_prefix (Csv.DictReader Samples.blanks_csv).1)
     /\ Forall2 (fun row l => exists t, row_listing row t = Ok l)
          (parsed_prefix (Csv.DictReader Samples.blanks_csv).1) ls
     /\ Os.stdout (os st')
        = (Os.stdout (os (Samples.fresh Samples.shop)) ++ (added_line <$> ls))
          ++ [report])
  /\ (forall (row : Csv.row) (st0 st1 : state),
        import_row row st0 = (Ok (), st1) ->
        exists l,
          listings (self st1) = listings (self st0) ++ [l]
          /\ (row !! "title" = None -> title l = Some "")
          /\ (row !! "price" = None -> price l = 0%float)
          /\ (row !! "description" = None -> description l = Some "")
          /\ (row !! "category" = None -> category l = Some "")
          /\ (row !! "condition" = None -> condition l = Some "New")
          /\ (row !! "quantity" = None -> quantity l = 1%Z))
  /\ (forall (fieldnames rec : list string) (key : string),
        key ∉ fieldnames -> Csv.make_row fieldnames rec !! key = None).
Proof.
  apply (import_uses_defaults_and_grows_by_parsed_rows
           (Samples.fresh Samples.shop) "blanks.csv" Samples.blanks_csv true).
  vm_compute. reflexivity.
Defined.

(** ** C10 *)

(** C10: a row whose price, or whose quantity, is present and is the
    empty string does not parse, no default standing in for the value;
    when the rows before it parse, the import adds those rows, stops at
    that row, and reports the error without raising. *)
Theorem import_aborts_on_empty_price_or_quantity
    (st : state) (filepath text : string) (wr : bool)
    (pre post : list Csv.row) (bad : Csv.row) :
  Os.fs (os st) !! filepath = Some (Os.File true wr text) ->
  (Csv.DictReader text).1 = pre ++ bad :: post ->
  forallb parses pre = true ->
  bad !! "price" = Some (Some "") \/ bad !! "quantity" = Some (Some "") ->
  parses bad = false
  /\ exists (st' : state) (ls : list EbayListing) (msg : string),
       import_from_csv filepath st = (Ok (), st')
       /\ listings (self st') = listings (self st) ++ ls
       /\ Forall2 (fun row l => exists t, row_listing row t = Ok l) pre ls
       /\ Os.stdout (os st')
          = (Os.stdout (os st) ++ (added_line <$> ls))
            ++ [("✗ Error importing CSV: " ++ msg)%string]
       /\ Os.fs (os st') = Os.fs (os st).
Proof.
  intros Hf Hrows Hpre Hempty.
  assert (Hbad : exists e, row_listing bad "" = Raise e).
  { destruct Hempty as [Hp|Hq].
    - eexists. apply (row_listing_bad_price bad "" "" Hp). reflexivity.
    - apply (row_listing_bad_quantity bad "" "" Hq). reflexivity. }
  destruct Hbad as [e Hbad]. split; [exact (parses_raise _ _ _ Hbad)|].
  rewrite (import_from_csv_run _ _ _ _ Hf). cbv zeta. rewrite Hrows.
  destruct (imported_until (Os.clock (os st)) pre post bad _ (Os.ticks (os st))
              Hpre Hbad) as (ls & -> & HF).
  eexists _, ls, (exn_msg e). repeat split. exact HF.
Qed.

Lemma import_aborts_on_empty_price_witness :
  parses Samples.unpriced_row = false
  /\ exists (st' : state) (ls : list EbayListing) (msg : string),
       import_from_csv "blanks.csv" (Samples.fresh Samples.shop) = (Ok (), st')
       /\ listings (self st') = listings (self (Samples.fresh Samples.shop)) ++ ls
       /\ Forall2 (fun row l => exists t, row_listing row t = Ok l)
            [Csv.make_row Samples.blanks_header ["Widget"; "29.5"; "2"]] ls
       /\ Os.stdout (os st')
          = (Os.stdout (os (Samples.fresh Samples.shop)) ++ (added_line <$> ls))
            ++ [("✗ Error importing CSV: " ++ msg)%string]
       /\ Os.fs (os st') = Os.fs (os (Samples.fresh Samples.shop)).
Proof.
  apply (import_aborts_on_empty_price_or_quantity (Samples.fresh Samples.shop)
           "blanks.csv" Samples.blanks_csv true
           [Csv.make_row Samples.blanks_header ["Widget"; "29.5"; "2"]]
           [Csv.make_row Samples.blanks_header ["Last"; "1"; "1"]]
           Samples.unpriced_row).
  - vm_compute. reflexivity.
  - vm_compute. reflexivity.
  - vm_compute. reflexivity.
  - left. vm_compute. reflexivity.
Defined.

(** ** C6 *)





(** ** C2 *)

(** C2, as the claim states it, fails on a store that holds a price that
    is not a number, which an import reads from the text [nan]: the export
    writes it as [NaN], the reparsed price is NaN again, and NaN is equal
    to nothing, itself included. *)
Lemma reparsed_nan_price_is_not_equal :
  float_of (Some "nan") = Ok (price Samples.ghost)
  /\ exists data v v' : value,
       reparsed (os (export_to_json "out.json" Samples.haunted).2) "out.json"
       = Some (Ok data)
       /\ field data 1 "price" = Some v
       /\ item (to_dict Samples.ghost) "price" = Some v'
       /\ py_eq v v' = false.
Proof.
  split; [vm_compute; reflexivity|].
  eexists _, _, _.
  split; [vm_compute; reflexivity|].
  split; [vm_compute; reflexivity|].
  split; [vm_compute; reflexivity|].
  vm_compute. reflexivity.
Qed.

Lemma py_eq_of_str_or_none (v : option string) :
  py_eq (of_str_or_none v) (of_str_or_none v)
  = negb (nan_value (of_str_or_none v)).
Proof. destruct v as [s|]; [apply String.eqb_refl|reflexivity]. Qed.

Lemma reparsed_written (st : state) (path : string) (r : bool) (text : string)
    (lines : list string) :
  reparsed (os (printing (written st path r text) lines)) path
  = Some (Json.loads text).
Proof.
  unfold reparsed, file_text, printing, written. cbn [os Os.fs].
  now rewrite lookup_insert_eq.
Qed.

(** C2 (amended): for every store state and every destination that can be
    written, [json.load] reads the text that [export_to_json] leaves in
    the file as the list of the dicts of the listings at export time: for
    each listing and each of the fields title, price, description,
    category, condition, quantity and created_at, the reparsed value is
    the value of the snapshot, and the two compare equal unless the value
    is the float NaN, which is read back as NaN and is equal to nothing. *)
Theorem export_then_reparse_gives_the_snapshot (st : state) (path : string) :
  writable (os st) path = true ->
  exists (st' : state) (data : value),
    export_to_json path st = (Ok (), st')
    /\ reparsed (os st') path = Some (Ok data)
    /\ data = VList (to_dict <$> listings (self st))
    /\ forall (i : nat) (l : EbayListing),
         listings (self st) !! i = Some l ->
         (fun key => item (to_dict l) key) <$> fields
         = Some <$> [of_str_or_none (title l); VFloat (price l);
                     of_str_or_none (description l);
                     of_str_or_none (category l);
                     of_str_or_none (condition l); VInt (quantity l);
                     VStr (created_at l)]
         /\ forall key : string,
              key ∈ fields ->
              exists v v' : value,
                field data i key = Some v
                /\ item (to_dict l) key = Some v'
                /\ v = v'
                /\ py_eq v v' = negb (nan_value v').
Proof.
  intros W. rewrite export_to_json_run.
  destruct (open_write_writable _ _ W) as [w' E]. rewrite E.
  eexists _, _. split; [reflexivity|].
  split; [rewrite reparsed_written; unfold export_text;
          now rewrite Decode.loads_dumps_listings|].
  split; [reflexivity|].
  intros i l Hl. split; [reflexivity|].
  intros key Hk. unfold field. rewrite list_lookup_fmap, Hl. cbn [fmap option_fmap option_map mbind option_bind].
  unfold fields in Hk.
  repeat (apply elem_of_cons in Hk as [->|Hk]); [..|now apply elem_of_nil in Hk];
    eexists _, _; (split; [reflexivity|]); (split; [reflexivity|]);
    (split; [reflexivity|]); cbn [snd]; try apply py_eq_of_str_or_none;
    cbn [py_eq nan_value negb].
  - unfold PrimFloat.is_nan. now rewrite Bool.negb_involutive.
  - apply Z.eqb_refl.
  - apply String.eqb_refl.
Qed.

Lemma export_then_reparse_witness :
  exists (st' : state) (data : value),
    export_to_json "out.json" Samples.stocked = (Ok (), st')
    /\ reparsed (os st') "out.json" = Some (Ok data)
    /\ data = VList (to_dict <$> listings (self Samples.stocked))
    /\ forall (i : nat) (l : EbayListing),
         listings (self Samples.stocked) !! i = Some l ->
         (fun key => item (to_dict l) key) <$> fields
         = Some <$> [of_str_or_none (title l); VFloat (price l);
                     of_str_or_none (description l);
                     of_str_or_none (category l);
                     of_str_or_none (condition l); VInt (quantity l);
                     VStr (created_at l)]
         /\ forall key : string,
              key ∈ fields ->
              exists v v' : value,
                field data i key = Some v
                /\ item (to_dict l) key = Some v'
                /\ v = v'
                /\ py_eq v v' = negb (nan_value v').
Proof.
  apply (export_then_reparse_gives_the_snapshot Samples.stocked "out.json").
  vm_compute. reflexivity.
Defined.

End Claims.

(* ===================================================================== *)
(** * More of the program *)
(* ===================================================================== *)

Module Extras.
Import Py Xlister Spec Text Run Decimal Exact Decode.

Local Open Scope Z_scope.

(** ** The steps of [main] *)

Lemma add_listing_run (l : EbayListing) (st : state) :
  add_listing l st
  = (Ok (),
     mk_state (mk_xlister (listings (self st) ++ [l]))
       (Os.mk_world (Os.fs (os st)) (Os.stdout (os st) ++ [added_line l])
          (Os.clock (os st)) (Os.ticks (os st)))).
Proof. reflexivity. Qed.

Lemma main_add_values (a : args) (title price_text : string) (more : list string)
    (st : state) :
  add a = Some (title :: price_text :: more) ->
  main_add a st
  = match float_literal price_text with
    | Some x =>
        (Ok (),
         after_adding st
           [added_listing title price_text more x
              (Os.clock (os st) (Os.ticks (os st)))])
    | None => (Ok (), printing st ["✗ Error: Price must be a number"])
    end.
Proof.
  intros H. unfold main_add. rewrite H. cbn [nonempty default from_option].
  unfold id.
  assert (L : (2 <=? Z.of_nat (length (title :: price_text :: more))) = true)
    by (apply Z.leb_le; cbn [length]; lia).
  rewrite L. cbn [lookup list_lookup]. unfold try_except, float_of.
  destruct (float_literal price_text) as [x|].
  - erewrite bind_ok by reflexivity.
    match goal with
    | |- context [Some (if ?c then ?u else ?v)] =>
        assert (D : (if c then u else v) = default "" (head more))
    end.
    { destruct more as [|d more]; [reflexivity|].
      assert (E : (2 <? Z.of_nat (length (title :: price_text :: d :: more))) = true)
        by (apply Z.ltb_lt; cbn [length]; lia).
      rewrite E. reflexivity. }
    rewrite D.
    unfold EbayListing_init, add_listing, listings_append, now, Os.now, print,
      Os.print, mbind, M_bind, mret, M_ret, after_adding, added_line,
      added_listing. simpl.
    f_equal. f_equal. f_equal. lia.
  - erewrite bind_raise by reflexivity. cbn [exn_cls].
    apply print_run.
Qed.

Lemma main_add_skipped (a : args) (st : state) :
  nonempty (add a) = false -> main_add a st = (Ok (), st).
Proof. intros H. unfold main_add. now rewrite H. Qed.

Lemma main_add_one_value (a : args) (v : string) (st : state) :
  add a = Some [v] ->
  main_add a st
  = (Ok (), printing st ["✗ Error: --add requires at least title and price"]).
Proof. intros H. unfold main_add. rewrite H. apply print_run. Qed.

(** Every step before the export adds listings and prints lines, and
    does nothing else. *)
Lemma import_from_csv_effect (filepath : string) (st : state) :
  exists (ls : list EbayListing) (line : string),
    import_from_csv filepath st = (Ok (), printing (after_adding st ls) [line]).
Proof.
  destruct (read_file_cases (os st) filepath) as [(wr & text & H)|(e & H)].
  - rewrite (import_from_csv_run _ _ _ _ H). cbv zeta. eauto.
  - destruct (import_from_csv_unread _ _ _ H) as (text & E & _).
    exists [], text. now rewrite after_adding_nil.
Qed.

Lemma main_import_effect (a : args) (st : state) :
  exists (ls : list EbayListing) (lines : list string),
    main_import a st = (Ok (), printing (after_adding st ls) lines).
Proof.
  unfold main_import. destruct (truthy (csv_file a)).
  - destruct (import_from_csv_effect (str_of (csv_file a)) st) as (ls & line & E).
    eauto.
  - exists [], []. now rewrite after_adding_nil, printing_nil.
Qed.

Lemma main_add_effect (a : args) (st : state) :
  exists (ls : list EbayListing) (lines : list string),
    main_add a st = (Ok (), printing (after_adding st ls) lines).
Proof.
  destruct (add a) as [[|title [|price_text more]]|] eqn:E.
  - exists [], []. rewrite main_add_skipped by now rewrite E.
    now rewrite after_adding_nil, printing_nil.
  - rewrite (main_add_one_value _ _ _ E). eexists [], [_].
    now rewrite after_adding_nil.
  - rewrite (main_add_values _ _ _ _ _ E).
    destruct (float_literal price_text) as [x|].
    + eexists [_], []. now rewrite printing_nil.
    + eexists [], [_]. now rewrite after_adding_nil.
  - exists [], []. rewrite main_add_skipped by now rewrite E.
    now rewrite after_adding_nil, printing_nil.
Qed.

Lemma main_list_effect (a : args) (st : state) :
  exists (r : result unit) (lines : list string),
    main_list a st = (r, printing st lines).
Proof.
  rewrite main_list_run. destruct (shows_listings a).
  - cbv zeta. destruct (listings (self st)) as [|l ls]; [eauto|].
    destruct (all_convertible (l :: ls)).
    + rewrite printing_printing. eauto.
    + eauto.
  - exists (Ok ()), []. now rewrite printing_nil.
Qed.

Lemma fs_printing (st : state) (lines : list string) :
  Os.fs (os (printing st lines)) = Os.fs (os st).
Proof. reflexivity. Qed.

Lemma fs_after_adding (st : state) (ls : list EbayListing) :
  Os.fs (os (after_adding st ls)) = Os.fs (os st).
Proof. reflexivity. Qed.

(** [main] up to the export: the files are as they were. *)
Lemma main_run (a : args) (w : Os.world) :
  exists (st : state) (r : result unit),
    Os.fs (os st) = Os.fs w
    /\ main a w = match r with
                  | Ok _ => main_export a st
                  | Raise e => (Raise e, st)
                  end.
Proof.
  unfold main, main_body.
  destruct (main_import_effect a (mk_state EbayXlister_init w)) as (ls1 & t1 & E1).
  erewrite bind_ok by exact E1.
  destruct (main_add_effect a (printing (after_adding (mk_state EbayXlister_init w) ls1) t1))
    as (ls2 & t2 & E2).
  erewrite bind_ok by exact E2.
  destruct (main_list_effect a
              (printing (after_adding (printing (after_adding (mk_state EbayXlister_init w) ls1) t1) ls2) t2))
    as (r & t3 & E3).
  eexists _, r. split; [|destruct r as [[]|e]].
  2: erewrite bind_ok by exact E3; reflexivity.
  2: erewrite bind_raise by exact E3; reflexivity.
  reflexivity.
Qed.

(** X4: [main] changes no file, except that it may create or overwrite the
    destination of the export. *)
Theorem main_writes_only_the_export_destination (a : args) (w : Os.world) :
  Os.fs (os (main a w).2) = Os.fs w
  \/ exists (path : string) (r : bool) (text : string),
       json_file a = Some path
       /\ Os.fs (os (main a w).2) = <[path := Os.File r true text]> (Os.fs w).
Proof.
  destruct (main_run a w) as (st & r & F & E). rewrite E.
  destruct r as [[]|e]; [|now left].
  unfold main_export. destruct (json_file a) as [path|] eqn:J; [|now left].
  destruct (truthy (Some path)); [|now left].
  cbn [str_of]. rewrite export_to_json_run. cbn [snd].
  destruct (Os.open_write (os st) path) as [w'|e]; [|now left].
  right. eexists path, _, _. split; [reflexivity|].
  cbv zeta. unfold printing, written. cbn [os Os.fs]. now rewrite F.
Qed.

(** X5: without a file to import and without a listing to add the store of
    [main] is empty: the listing, when it is shown, is the one line
    "No listings found.", no total follows it, and the export writes the
    empty list. *)
Theorem main_on_an_empty_store (a : args) (w : Os.world) :
  truthy (csv_file a) = false ->
  nonempty (add a) = false ->
  main a w
  = main_export a
      (if shows_listings a
       then printing (mk_state EbayXlister_init w) ["No listings found."]
       else mk_state EbayXlister_init w)
  /\ (truthy (json_file a) = false -> shows_listings a = true)
  /\ (forall path : string,
        json_file a = Some path -> path <> "" -> writable w path = true ->
        (main a w).1 = Ok ()
        /\ listings (self (main a w).2) = []
        /\ file_text (os (main a w).2) path = Some "[]").
Proof.
  intros Hc Ha.
  assert (E : main a w
              = main_export a
                  (if shows_listings a
                   then printing (mk_state EbayXlister_init w) ["No listings found."]
                   else mk_state EbayXlister_init w)).
  { unfold main, main_body, main_import. rewrite Hc.
    erewrite bind_ok by reflexivity.
    erewrite bind_ok by (apply main_add_skipped; exact Ha).
    pose proof (main_list_run a (mk_state EbayXlister_init w)) as L.
    destruct (shows_listings a); cbn in L; erewrite bind_ok by exact L;
      reflexivity. }
  split; [exact E|]. split.
  - intros Hj. unfold shows_listings. rewrite Hc, Ha, Hj.
    now rewrite orb_true_r.
  - intros path J Hne W. rewrite E. unfold main_export. rewrite J.
    rewrite (Claims.truthy_nonempty path Hne). cbn [str_of].
    rewrite export_to_json_run.
    set (st := if shows_listings a then _ else _).
    assert (Wst : writable (os st) path = true)
      by (unfold st; destruct (shows_listings a); exact W).
    destruct (Claims.open_write_writable _ _ Wst) as [w' Ew]. rewrite Ew.
    cbv zeta. cbn [fst snd].
    split; [reflexivity|]. split.
    + unfold st. now destruct (shows_listings a).
    + unfold file_text, printing, written. cbn [os Os.fs].
      rewrite lookup_insert_eq. unfold export_text.
      unfold st. now destruct (shows_listings a).
Qed.

(** ** Export *)

(** X11: an export that is repeated on the same destination succeeds again
    and leaves the same file: the second one replaces the text of the
    first by the same text; the store is as it was and each export prints
    its line. *)
Theorem export_twice_is_export_once (st : state) (path : string) :
  writable (os st) path = true ->
  exists st1 st2 : state,
    export_to_json path st = (Ok (), st1)
    /\ export_to_json path st1 = (Ok (), st2)
    /\ self st2 = self st
    /\ Os.fs (os st2) = Os.fs (os st1)
    /\ file_text (os st2) path = Some (export_text st)
    /\ Os.stdout (os st2)
       = Os.stdout (os st) ++ [export_success st path; export_success st path].
Proof.
  intros W. rewrite export_to_json_run.
  destruct (Claims.open_write_writable _ _ W) as [w' E]. rewrite E. cbv zeta.
  set (r := match Os.fs (os st) !! path with
            | Some (Os.File r _ _) => r
            | _ => true
            end).
  set (st1 := printing (written st path r (export_text st)) [export_success st path]).
  assert (L1 : Os.fs (os st1) !! path
               = Some (Os.File r true (export_text st))).
  { unfold st1, printing, written. cbn [os Os.fs]. apply lookup_insert_eq. }
  assert (W1 : writable (os st1) path = true) by (unfold writable; now rewrite L1).
  destruct (Claims.open_write_writable _ _ W1) as [w1 E1].
  exists st1. eexists. split; [reflexivity|].
  rewrite export_to_json_run, E1, L1. cbv zeta.
  split; [reflexivity|]. split; [reflexivity|]. split; [|split].
  - unfold printing, written, st1, printing, written, export_text.
    cbn [os Os.fs self]. now rewrite insert_insert_eq.
  - unfold file_text, printing, written. cbn [os Os.fs].
    now rewrite lookup_insert_eq.
  - unfold printing, written, st1, printing, written, export_success.
    cbn [os Os.stdout self]. now rewrite <- app_assoc.
Qed.

Lemma to_dict_inj (l l' : EbayListing) : to_dict l = to_dict l' -> l = l'.
Proof.
  destruct l as [t p d c k q a], l' as [t' p' d' c' k' q' a'].
  unfold to_dict. cbn [title price description category condition quantity created_at].
  intros H. injection H as Ht Hp Hd Hc Hk Hq Ha.
  assert (I : forall u v : option string, of_str_or_none u = of_str_or_none v -> u = v).
  { intros [u|] [v|]; cbn; congruence. }
  apply I in Ht, Hd, Hc, Hk. congruence.
Qed.

(** X13: the exported text determines the listings: two stores that export
    the same text hold the same listings, field for field and in the same
    order. *)
Theorem export_text_determines_the_listings (st st' : state) :
  export_text st = export_text st' ->
  listings (self st) = listings (self st').
Proof.
  unfold export_text. intros H.
  apply (f_equal Json.loads) in H.
  rewrite !Decode.loads_dumps_listings in H.
  injection H as H.
  revert H. generalize (listings (self st')). generalize (listings (self st)).
  induction l as [|x l IH]; intros [|y l'] H; try discriminate; [reflexivity|].
  cbn [fmap list_fmap] in H.
  assert (Hxy : to_dict x = to_dict y) by congruence.
  assert (Hl : to_dict <$> l = to_dict <$> l') by congruence.
  f_equal; [now apply to_dict_inj|now apply IH].
Qed.

Lemma all_ascii_app (a b : list ascii) :
  all_ascii (a ++ b) = all_ascii a && all_ascii b.
Proof. apply forallb_app. Qed.

Lemma all_ascii_escape_char (c : ascii) : all_ascii (Json.escape_char c) = true.
Proof. destruct c as [[] [] [] [] [] [] [] []]; vm_compute; reflexivity. Qed.

Lemma all_ascii_encode_str (s : string) : all_ascii (Json.encode_str s) = true.
Proof.
  unfold Json.encode_str. change (all_ascii (dquote :: ?x)) with (all_ascii x).
  cbn [all_ascii forallb]. change (ascii_text dquote) with true. cbn [andb].
  fold (all_ascii (flat_map Json.escape_char (Json.chars s) ++ [dquote])).
  rewrite all_ascii_app. change (all_ascii [dquote]) with true.
  rewrite andb_true_r.
  induction (Json.chars s) as [|c cs IH]; [reflexivity|].
  cbn [flat_map]. now rewrite all_ascii_app, all_ascii_escape_char.
Qed.

Lemma number_char_ascii (c : ascii) : number_char c = true -> ascii_text c = true.
Proof. destruct c as [[] [] [] [] [] [] [] []]; vm_compute; congruence. Qed.

Lemma all_ascii_number_chars (s : list ascii) :
  Forall (fun c => number_char c = true) s -> all_ascii s = true.
Proof.
  induction 1 as [|c s Hc _ IH]; [reflexivity|].
  cbn [all_ascii forallb]. now rewrite (number_char_ascii c Hc).
Qed.

Lemma float_token_number_chars (body : list ascii) :
  float_token body -> Forall (fun c => number_char c = true) body.
Proof.
  intros (ip & frac & ex & -> & Hip & Hfrac & Hex & _).
  apply Forall_app. split; [apply digits_number_chars, int_part_digits, Hip|].
  apply Forall_app. split.
  - destruct Hfrac as [|fd _ Hfd]; constructor; [reflexivity|].
    now apply digits_number_chars.
  - destruct Hex as [|sg ed Hsg _ Hed]; constructor; [reflexivity|].
    apply Forall_app. split; [|now apply digits_number_chars].
    destruct Hsg; repeat constructor.
Qed.

Lemma all_ascii_encode_float (x : float) : all_ascii (Json.encode_float x) = true.
Proof.
  unfold Json.encode_float. destruct (Prim2SF x) as [s|s| |s m e];
    try (now destruct s); try reflexivity.
  unfold float_repr_sf, Json.chars. rewrite chars_of_string.
  destruct (finite_repr_token s m e) as (body & -> & Hb).
  apply all_ascii_number_chars, Forall_app. split.
  - apply sign_chars_number.
  - now apply float_token_number_chars.
Qed.

Lemma all_ascii_scalar (lvl : nat) (v : value) :
  scalar v -> all_ascii (Json.encode lvl v) = true.
Proof.
  destruct v; try contradiction; intros _; cbn [Json.encode].
  - reflexivity.
  - apply all_ascii_number_chars, int_digits_chars.
  - apply all_ascii_encode_float.
  - apply all_ascii_encode_str.
Qed.

Lemma all_ascii_newline_indent (k : nat) : all_ascii (Json.newline_indent k) = true.
Proof.
  unfold Json.newline_indent. cbn [all_ascii forallb].
  change (ascii_text (chr 10)) with true. cbn [andb].
  induction (2 * k)%nat as [|n IH]; [reflexivity|exact IH].
Qed.

Lemma all_ascii_join (sep : list ascii) (items : list (list ascii)) :
  all_ascii sep = true ->
  Forall (fun x => all_ascii x = true) items ->
  all_ascii (Json.join sep items) = true.
Proof.
  intros Hs. induction 1 as [|x xs Hx _ IH]; [reflexivity|].
  destruct xs as [|y ys]; [exact Hx|].
  change (Json.join sep (x :: y :: ys))
    with (x ++ sep ++ Json.join sep (y :: ys)).
  now rewrite !all_ascii_app, Hx, Hs, IH.
Qed.

Lemma all_ascii_to_dict (lvl : nat) (l : EbayListing) :
  all_ascii (Json.encode lvl (to_dict l)) = true.
Proof.
  unfold to_dict. rewrite encode_dict_cons.
  change (all_ascii ("{"%char :: ?x)) with (all_ascii x).
  cbn [all_ascii forallb]. change (ascii_text "{") with true. cbn [andb].
  fold all_ascii.
  rewrite !all_ascii_app, !all_ascii_newline_indent.
  change (all_ascii ["}"%char]) with true. rewrite andb_true_r. cbn [andb].
  apply all_ascii_join.
  - cbn [all_ascii forallb]. change (ascii_text ",") with true. cbn [andb].
    apply all_ascii_newline_indent.
  - assert (P : forall (k : string) (v : value),
               scalar v -> all_ascii (encode_pair (S lvl) (k, v)) = true).
    { intros k v Hv. unfold encode_pair. cbn [fst snd].
      rewrite all_ascii_app, all_ascii_encode_str.
      cbn [all_ascii forallb andb]. change (ascii_text ":") with true.
      change (ascii_text " ") with true. cbn [andb].
      now apply all_ascii_scalar. }
    cbn [map]. repeat constructor; apply P; cbn; try exact I;
      apply scalar_of_str_or_none.
Qed.

(** X12: the text of an export holds line breaks and printable ASCII
    characters only, whatever characters the titles and the other texts
    of the listings hold. *)
Theorem export_text_is_ascii (st : state) :
  forallb ascii_text (list_ascii_of_string (export_text st)) = true.
Proof.
  unfold export_text, Json.dumps. rewrite chars_of_string.
  fold (all_ascii (Json.encode 0 (VList (to_dict <$> listings (self st))))).
  destruct (listings (self st)) as [|l ls]; [reflexivity|].
  cbn [fmap list_fmap]. rewrite encode_list_cons.
  cbn [all_ascii forallb]. change (ascii_text "[") with true. cbn [andb].
  fold all_ascii.
  rewrite !all_ascii_app, !all_ascii_newline_indent.
  change (all_ascii ["]"%char]) with true. rewrite andb_true_r. cbn [andb].
  apply all_ascii_join.
  - cbn [all_ascii forallb]. change (ascii_text ",") with true. cbn [andb].
    apply all_ascii_newline_indent.
  - apply Forall_forall. intros x Hx.
    apply list_elem_of_fmap in Hx as (v & -> & Hv).
    apply elem_of_cons in Hv as [->|Hv]; [apply all_ascii_to_dict|].
    apply list_elem_of_fmap in Hv as (l' & -> & _).
    apply all_ascii_to_dict.
Qed.

(** ** [list_all] *)

(** X9: for a listing whose description is empty or [None], [list_all]
    prints no description line: the line of the category follows the line
    of the listing. *)
Theorem list_all_skips_an_empty_description
    (st : state) (i : nat) (l : EbayListing) :
  listings (self st) !! i = Some l ->
  description l = None \/ description l = Some "" ->
  exists before after,
    list_all st
    = (Ok (),
       printing st
         (before
          ++ [(str_of_int (Z.of_nat i + 1) ++ ". " ++ EbayListing_str l)%string;
              ("   Category: " ++ str_of (category l)
                 ++ " | Quantity: " ++ str_of_int (quantity l))%string;
              ""]
          ++ after)).
Proof.
  intros Hi Hd.
  destruct (Claims.listing_lines_entry _ _ _ Hi) as (b & a & E).
  exists b, a. rewrite list_all_run, E. unfold entry_lines.
  now destruct Hd as [-> | ->].
Qed.

Lemma enumerate_app {A : Type} (xs ys : list A) (k : Z) :
  enumerate k (xs ++ ys) = enumerate k xs ++ enumerate (k + Z.of_nat (length xs)) ys.
Proof.
  revert k. induction xs as [|x xs IH]; intros k.
  - cbn. now rewrite Z.add_0_r.
  - cbn [app enumerate length]. rewrite IH. cbn [app]. do 3 f_equal. lia.
Qed.

(** X8: [add_listing] puts the listing at the end of the store, after the
    listings that are there, which it leaves as they are; it prints the
    one line of the confirmation and changes no file; and a [list_all]
    that follows shows the new listing last, under the number of the
    listings that the store then holds. *)
Theorem add_listing_appends_and_list_all_shows_it_last
    (st : state) (l : EbayListing) :
  exists st' : state,
    add_listing l st = (Ok (), st')
    /\ listings (self st') = listings (self st) ++ [l]
    /\ Os.fs (os st') = Os.fs (os st)
    /\ Os.stdout (os st')
       = Os.stdout (os st) ++ [("✓ Added listing: " ++ EbayListing_str l)%string]
    /\ exists before : list string,
         list_all st'
         = (Ok (),
            printing st'
              (before
               ++ entry_lines (Z.of_nat (length (listings (self st'))))  l)).
Proof.
  rewrite add_listing_run. eexists. split; [reflexivity|].
  cbn [self os listings Os.fs Os.stdout].
  split; [reflexivity|]. split; [reflexivity|]. split; [reflexivity|].
  rewrite list_all_run. cbn [self listings].
  unfold listing_lines.
  destruct (listings (self st) ++ [l]) as [|x xs] eqn:E.
  { now destruct (listings (self st)). }
  rewrite <- E, enumerate_app, flat_map_app. cbn [enumerate flat_map fst snd].
  rewrite app_nil_r, length_app. cbn [length].
  replace (1 + Z.of_nat (length (listings (self st))))
    with (Z.of_nat (length (listings (self st)) + 1)) by lia.
  eexists. rewrite <- app_assoc. reflexivity.
Qed.

(** ** Import *)





Lemma imported_all (clock : nat -> string) (rows : list Csv.row) (n : nat) :
  forallb parses rows = true ->
  (imported clock n rows).2 = None
  /\ length (imported clock n rows).1 = length rows.
Proof.
  revert n. induction rows as [|row rows IH]; intros n H; [now split|].
  cbn [forallb] in H. apply andb_true_iff in H as [Hr H].
  destruct (parses_ok row (clock n) Hr) as [l El].
  cbn [imported]. rewrite El. specialize (IH (S n) H).
  destruct (imported clock (S n) rows) as [ls e]. cbn [fst snd length] in *.
  destruct IH as [-> ->]. now split.
Qed.

(** X15: when every row of the file is accepted, the import adds one
    listing for each row and its last line reports that number, which is
    0 for a file without rows. *)
Theorem import_reports_the_number_of_listings_added
    (st : state) (filepath text : string) (wr : bool) :
  Os.fs (os st) !! filepath = Some (Os.File true wr text) ->
  (Csv.DictReader text).2 = None ->
  forallb parses (Csv.DictReader text).1 = true ->
  exists (st' : state) (ls : list EbayListing),
    import_from_csv filepath st = (Ok (), st')
    /\ listings (self st') = listings (self st) ++ ls
    /\ length ls = length (Csv.DictReader text).1
    /\ Os.stdout (os st')
       = (Os.stdout (os st) ++ (added_line <$> ls))
         ++ [(nl ++ "✓ Successfully imported "
                ++ str_of_int (Z.of_nat (length ls))
                ++ " listings from " ++ filepath)%string].
Proof.
  intros Hf He Hp. rewrite (import_from_csv_run _ _ _ _ Hf). cbv zeta.
  destruct (imported_all (Os.clock (os st)) _ (Os.ticks (os st)) Hp) as [E2 EL].
  rewrite He, E2. eexists _, _. split; [reflexivity|].
  split; [reflexivity|]. split; [exact EL|].
  unfold import_report, printing, after_adding. cbn [os Os.stdout].
  now rewrite EL.
Qed.

Lemma imported_created_at (clock : nat -> string) (rows : list Csv.row)
    (n i : nat) (l : EbayListing) :
  (imported clock n rows).1 !! i = Some l -> created_at l = clock (n + i)%nat.
Proof.
  revert n i. induction rows as [|row rows IH]; intros n i H; [discriminate|].
  cbn [imported] in H.
  destruct (row_listing row (clock n)) as [l0|e] eqn:E; [|discriminate].
  specialize (IH (S n)).
  destruct (imported clock (S n) rows) as [ls e']. cbn [fst] in *.
  destruct i as [|i].
  - injection H as <-. rewrite Nat.add_0_r.
    unfold row_listing in E.
    destruct (get_float row "price" 0); [|discriminate].
    destruct (get_int row "quantity" 1); [|discriminate].
    cbn in E. now injection E as <-.
  - rewrite (IH i H). f_equal. lia.
Qed.

(** X16: an import reads the clock once for each listing that it adds, in
    the order of the rows, and not for a row that it refuses: the
    [created_at] of the [i]-th listing added is the [i]-th reading. *)
Theorem import_stamps_the_listings_in_order
    (st : state) (filepath text : string) (wr : bool) :
  Os.fs (os st) !! filepath = Some (Os.File true wr text) ->
  exists (st' : state) (ls : list EbayListing),
    import_from_csv filepath st = (Ok (), st')
    /\ listings (self st') = listings (self st) ++ ls
    /\ (forall (i : nat) (l : EbayListing),
          ls !! i = Some l ->
          created_at l = Os.clock (os st) (Os.ticks (os st) + i)%nat)
    /\ Os.ticks (os st') = (Os.ticks (os st) + length ls)%nat.
Proof.
  intros Hf. rewrite (import_from_csv_run _ _ _ _ Hf). cbv zeta.
  eexists _, _. split; [reflexivity|]. split; [reflexivity|].
  split; [|reflexivity].
  intros i l. apply imported_created_at.
Qed.

(** ** Short rows *)

Lemma fold_left_none_other (ks : list string) (d : Csv.row) (key : string) :
  key ∉ ks ->
  fold_left (fun (d : Csv.row) k => <[k := None]> d) ks d !! key = d !! key.
Proof.
  revert d. induction ks as [|k ks IH]; intros d H; [reflexivity|].
  apply not_elem_of_cons in H as [Hk H]. cbn [fold_left].
  rewrite IH by exact H. unfold Csv.row. now rewrite lookup_insert_ne.
Qed.

Lemma fold_left_none (ks : list string) (d : Csv.row) (key : string) :
  key ∈ ks ->
  fold_left (fun (d : Csv.row) k => <[k := None]> d) ks d !! key = Some None.
Proof.
  revert d. induction ks as [|k ks IH]; intros d H; [now apply elem_of_nil in H|].
  cbn [fold_left]. destruct (decide (key ∈ ks)) as [Hin|Hout].
  - now apply IH.
  - apply elem_of_cons in H as [->|H]; [|contradiction].
    rewrite fold_left_none_other by exact Hout.
    unfold Csv.row. now rewrite lookup_insert_eq.
Qed.

Lemma make_row_short (fieldnames rec : list string) (key : string) :
  key ∈ drop (length rec) fieldnames ->
  Csv.make_row fieldnames rec !! key = Some None.
Proof. intros H. unfold Csv.make_row. now apply fold_left_none. Qed.

Lemma row_listing_no_price (row : Csv.row) (t : string) :
  row !! "price" = Some None -> row_listing row t = Raise no_price.
Proof.
  intros H. unfold row_listing, get_float, Csv.get. now rewrite H.
Qed.

Lemma import_stops (st : state) (filepath text : string) (wr : bool)
    (pre post : list Csv.row) (bad : Csv.row) (e : exn) :
  Os.fs (os st) !! filepath = Some (Os.File true wr text) ->
  (Csv.DictReader text).1 = pre ++ bad :: post ->
  forallb parses pre = true ->
  row_listing bad "" = Raise e ->
  exists (st' : state) (ls : list EbayListing),
    import_from_csv filepath st = (Ok (), st')
    /\ listings (self st') = listings (self st) ++ ls
    /\ length ls = length pre
    /\ Os.stdout (os st')
       = (Os.stdout (os st) ++ (added_line <$> ls))
         ++ [("✗ Error importing CSV: " ++ exn_msg e)%string]
    /\ Os.fs (os st') = Os.fs (os st).
Proof.
  intros Hf Hrows Hpre Hbad.
  rewrite (import_from_csv_run _ _ _ _ Hf). cbv zeta. rewrite Hrows.
  destruct (imported_until (Os.clock (os st)) pre post bad _ (Os.ticks (os st))
              Hpre Hbad) as (ls & -> & HF).
  eexists _, ls. repeat split. symmetry. exact (Forall2_length _ _ _ HF).
Qed.

(** X17: a row that ends before the column of the price has [None] for its
    price, not the default: [float(None)] raises [TypeError], and the
    import stops at that row, keeps the listings of the rows before it
    and reports the error. *)
Theorem import_stops_at_a_row_without_a_price_cell
    (st : state) (filepath text : string) (wr : bool)
    (pre post : list Csv.row) (fieldnames rec : list string) :
  Os.fs (os st) !! filepath = Some (Os.File true wr text) ->
  (Csv.DictReader text).1 = pre ++ Csv.make_row fieldnames rec :: post ->
  forallb parses pre = true ->
  "price" ∈ drop (length rec) fieldnames ->
  exists (st' : state) (ls : list EbayListing),
    import_from_csv filepath st = (Ok (), st')
    /\ listings (self st') = listings (self st) ++ ls
    /\ length ls = length pre
    /\ Os.stdout (os st')
       = (Os.stdout (os st) ++ (added_line <$> ls))
         ++ ["✗ Error importing CSV: float() argument must be a string or a real number, not 'NoneType'"]
    /\ Os.fs (os st') = Os.fs (os st).
Proof.
  intros Hf Hrows Hpre Hin.
  apply (import_stops st filepath text wr pre post _ no_price Hf Hrows Hpre).
  apply row_listing_no_price. now apply make_row_short.
Qed.


(** ** The quantity of a row *)










(** ** The text of a listing *)

Lemma nearest_hundredth (num den : Z) :
  0 < den -> 0 <= num ->
  Z.abs (2 * (num - div_nearest_even num den * den)) <= den.
Proof.
  intros Hd Hn.
  destruct (Binary64.div_nearest_even_bounds num den Hd Hn) as (B & Lo & _ & Hi).
  cbv zeta in *.
  pose proof (Z.div_mod num den ltac:(lia)) as E.
  pose proof (Z.mod_pos_bound num den Hd) as R.
  set (q := num / den) in *. set (r := num mod den) in *.
  set (m := div_nearest_even num den) in *.
  destruct (Z.lt_trichotomy (2 * r) den) as [L|[L|L]].
  - rewrite (Lo L). nia.
  - assert (m = q \/ m = q + 1) as [-> | ->] by lia; nia.
  - rewrite (Hi L). nia.
Qed.

(** X10: the text of a listing is its title, its price in the format [.2f]
    after a dollar sign, and its condition in brackets.  For a finite
    price [m * 2^e] the price shown is a whole number of cents [h],
    written with two digits after the point, and it is the price rounded
    to the cent: it differs from the price by half a cent at most. *)
Theorem listing_text_shows_the_price_to_the_cent
    (l : EbayListing) (s : bool) (m : positive) (e : Z) :
  Prim2SF (price l) = S754_finite s m e ->
  exists h : Z,
    0 <= h
    /\ EbayListing_str l
       = (str_of (title l) ++ " - $"
            ++ string_of_list_ascii
                 (sign_chars s ++ nat_digits (h / 100)
                    ++ "."%char :: pad2 (h mod 100))
            ++ " (" ++ str_of (condition l) ++ ")")%string
    /\ (if 0 <=? e then h = Z.pos m * 2 ^ e * 100
        else Z.abs (2 * (Z.pos m * 100 - h * 2 ^ (- e))) <= 2 ^ (- e)).
Proof.
  intros H. unfold EbayListing_str, format_2f. rewrite H. cbn [format_2f_sf].
  destruct (Z.leb_spec 0 e) as [He|He].
  - exists (Z.pos m * 2 ^ e * 100). split; [|split; reflexivity].
    pose proof (pow2_pos e He). nia.
  - assert (Hd : 0 < 2 ^ (- e)) by (apply pow2_pos; lia).
    exists (div_nearest_even (Z.pos m * 100) (2 ^ (- e))).
    split; [|split; [reflexivity|]].
    + destruct (Binary64.div_nearest_even_bounds (Z.pos m * 100) (2 ^ (- e)) Hd
                  ltac:(lia)) as (B & _).
      cbv zeta in B.
      assert (0 <= Z.pos m * 100 / 2 ^ (- e)) by (apply Z.div_pos; lia). lia.
    + apply nearest_hundredth; lia.
Qed.

(** ** The listing step of [main] *)


(** ** [--add] *)

(** X1: [--add] with one value prints that a title and a price are needed,
    and changes neither the store nor the files. *)
Theorem add_with_one_value_is_refused (a : args) (v : string) (st : state) :
  add a = Some [v] ->
  exists st' : state,
    main_add a st = (Ok (), st')
    /\ self st' = self st
    /\ Os.fs (os st') = Os.fs (os st)
    /\ Os.stdout (os st')
       = Os.stdout (os st) ++ ["✗ Error: --add requires at least title and price"].
Proof.
  intros H. rewrite (main_add_one_value a v st H). eexists. repeat split.
Qed.

Lemma add_with_one_value_witness :
  exists st' : state,
    main_add Samples.only_title (Samples.fresh Samples.shop) = (Ok (), st')
    /\ self st' = self (Samples.fresh Samples.shop)
    /\ Os.fs (os st') = Os.fs (os (Samples.fresh Samples.shop))
    /\ Os.stdout (os st')
       = Os.stdout (os (Samples.fresh Samples.shop))
         ++ ["✗ Error: --add requires at least title and price"].
Proof.
  apply (add_with_one_value_is_refused Samples.only_title "Lamp").
  reflexivity.
Defined.

(** X2: [--add] with a price that [float()] does not read prints that the
    price must be a number; no listing is created, and the store and the
    files are as they were. *)
Theorem add_with_a_price_that_is_no_number_is_refused
    (a : args) (title price_text : string) (more : list string) (st : state) :
  add a = Some (title :: price_text :: more) ->
  float_literal price_text = None ->
  exists st' : state,
    main_add a st = (Ok (), st')
    /\ self st' = self st
    /\ Os.fs (os st') = Os.fs (os st)
    /\ Os.ticks (os st') = Os.ticks (os st)
    /\ Os.stdout (os st')
       = Os.stdout (os st) ++ ["✗ Error: Price must be a number"].
Proof.
  intros H E. rewrite (main_add_values a _ _ _ st H), E.
  eexists. repeat split.
Qed.

Lemma add_with_a_price_that_is_no_number_witness :
  exists st' : state,
    main_add Samples.no_number (Samples.fresh Samples.shop) = (Ok (), st')
    /\ self st' = self (Samples.fresh Samples.shop)
    /\ Os.fs (os st') = Os.fs (os (Samples.fresh Samples.shop))
    /\ Os.ticks (os st') = Os.ticks (os (Samples.fresh Samples.shop))
    /\ Os.stdout (os st')
       = Os.stdout (os (Samples.fresh Samples.shop))
         ++ ["✗ Error: Price must be a number"].
Proof.
  apply (add_with_a_price_that_is_no_number_is_refused
           Samples.no_number "Lamp" "cheap" []).
  - reflexivity.
  - vm_compute. reflexivity.
Defined.

(** X3: [--add] with a title and a price that [float()] reads adds one
    listing at the end of the store: its description is the third value,
    or the empty string when there is none, its category is the empty
    string, its condition "New" and its quantity 1; the values after the
    third are ignored. *)
Theorem add_creates_a_listing_with_defaults
    (a : args) (title price_text : string) (more : list string) (x : float)
    (st : state) :
  add a = Some (title :: price_text :: more) ->
  float_literal price_text = Some x ->
  exists (st' : state) (l : EbayListing),
    main_add a st = (Ok (), st')
    /\ listings (self st') = listings (self st) ++ [l]
    /\ l = mk_listing (Some title) x
             (Some (match more with d :: _ => d | [] => "" end))
             (Some "") (Some "New") 1
             (Os.clock (os st) (Os.ticks (os st)))
    /\ Os.fs (os st') = Os.fs (os st)
    /\ Os.stdout (os st')
       = Os.stdout (os st) ++ [("✓ Added listing: " ++ EbayListing_str l)%string].
Proof.
  intros H E. rewrite (main_add_values a _ _ _ st H), E.
  eexists _, _. split; [reflexivity|]. split; [reflexivity|].
  split; [|split; reflexivity].
  unfold added_listing. now destruct more.
Qed.

Lemma add_creates_a_listing_witness :
  exists (st' : state) (l : EbayListing),
    main_add Samples.lamp_args (Samples.fresh Samples.shop) = (Ok (), st')
    /\ listings (self st') = listings (self (Samples.fresh Samples.shop)) ++ [l]
    /\ l = mk_listing (Some "Lamp") 12.5 (Some "Brass") (Some "") (Some "New") 1
             (Os.clock (os (Samples.fresh Samples.shop))
                (Os.ticks (os (Samples.fresh Samples.shop))))
    /\ Os.fs (os st') = Os.fs (os (Samples.fresh Samples.shop))
    /\ Os.stdout (os st')
       = Os.stdout (os (Samples.fresh Samples.shop))
         ++ [("✓ Added listing: " ++ EbayListing_str l)%string].
Proof.
  apply (add_creates_a_listing_with_defaults
           Samples.lamp_args "Lamp" "12.5" ["Brass"; "extra"] 12.5).
  - reflexivity.
  - vm_compute. reflexivity.
Defined.

(** ** From a CSV file to a JSON file *)

(** X7: [main] with a file to import and a destination to export to, and
    nothing to add or to list, writes to the destination the listings of
    the rows of the file up to the first one that is refused: reparsing
    the destination gives the dicts of those listings. *)
Theorem main_converts_the_rows_to_json
    (a : args) (w : Os.world) (src out text : string) (wr : bool) :
  csv_file a = Some src -> src <> "" ->
  json_file a = Some out -> out <> "" ->
  add a = None -> list_flag a = false ->
  Os.fs w !! src = Some (Os.File true wr text) ->
  writable w out = true ->
  exists ls : list EbayListing,
    (main a w).1 = Ok ()
    /\ listings (self (main a w).2) = ls
    /\ Forall2 (fun row l => exists t, row_listing row t = Ok l)
         (parsed_prefix (Csv.DictReader text).1) ls
    /\ reparsed (os (main a w).2) out = Some (Ok (VList (to_dict <$> ls))).
Proof.
  intros Hc Hs Hj Ho Ha Hl Hf W.
  unfold main, main_body, main_import, main_export. rewrite Hc, Hj.
  rewrite (Claims.truthy_nonempty src Hs), (Claims.truthy_nonempty out Ho).
  cbn [str_of].
  set (st0 := mk_state EbayXlister_init w).
  erewrite bind_ok by (apply (import_from_csv_run src text wr st0); exact Hf).
  cbv zeta.
  erewrite bind_ok by (apply main_add_skipped; now rewrite Ha).
  assert (Hshow : shows_listings a = false).
  { unfold shows_listings. rewrite Hl, Hc, (Claims.truthy_nonempty src Hs).
    reflexivity. }
  erewrite bind_ok by (rewrite main_list_run, Hshow; reflexivity).
  rewrite export_to_json_run.
  match goal with
  | |- context [Os.open_write (os ?s) out] => set (st1 := s)
  end.
  assert (W1 : writable (os st1) out = true) by exact W.
  destruct (Claims.open_write_writable _ _ W1) as [w' E]. rewrite E.
  cbv zeta. cbn [fst snd].
  eexists. split; [reflexivity|]. split; [reflexivity|]. split.
  - unfold st1, printing, after_adding. cbn [self listings app].
    apply imported_parsed_prefix.
  - unfold reparsed, file_text, printing, written. cbn [os Os.fs].
    rewrite lookup_insert_eq. cbn [fmap option_fmap option_map].
    unfold export_text. now rewrite Decode.loads_dumps_listings.
Qed.

Lemma main_on_an_empty_store_witness :
  main Samples.list_and_export Samples.shop
  = main_export Samples.list_and_export
      (if shows_listings Samples.list_and_export
       then printing (mk_state EbayXlister_init Samples.shop) ["No listings found."]
       else mk_state EbayXlister_init Samples.shop)
  /\ (truthy (json_file Samples.list_and_export) = false ->
      shows_listings Samples.list_and_export = true)
  /\ (forall path : string,
        json_file Samples.list_and_export = Some path -> path <> "" ->
        writable Samples.shop path = true ->
        (main Samples.list_and_export Samples.shop).1 = Ok ()
        /\ listings (self (main Samples.list_and_export Samples.shop).2) = []
        /\ file_text (os (main Samples.list_and_export Samples.shop).2) path
           = Some "[]").
Proof.
  apply (main_on_an_empty_store Samples.list_and_export Samples.shop);
    reflexivity.
Defined.

Lemma export_twice_witness :
  exists st1 st2 : state,
    export_to_json "out.json" Samples.stocked = (Ok (), st1)
    /\ export_to_json "out.json" st1 = (Ok (), st2)
    /\ self st2 = self Samples.stocked
    /\ Os.fs (os st2) = Os.fs (os st1)
    /\ file_text (os st2) "out.json" = Some (export_text Samples.stocked)
    /\ Os.stdout (os st2)
       = Os.stdout (os Samples.stocked)
         ++ [export_success Samples.stocked "out.json";
             export_success Samples.stocked "out.json"].
Proof.
  apply (export_twice_is_export_once Samples.stocked "out.json").
  vm_compute. reflexivity.
Defined.

Lemma export_text_determines_witness :
  listings (self Samples.stocked)
  = listings (self (mk_state (self Samples.stocked) Samples.warehouse)).
Proof.
  apply (export_text_determines_the_listings Samples.stocked
           (mk_state (self Samples.stocked) Samples.warehouse)).
  reflexivity.
Defined.

Lemma list_all_skips_an_empty_description_witness :
  exists before after,
    list_all Samples.overstocked
    = (Ok (),
       printing Samples.overstocked
         (before
          ++ [(str_of_int (Z.of_nat 0 + 1) ++ ". " ++ EbayListing_str Samples.bulk)%string;
              ("   Category: " ++ str_of (category Samples.bulk)
                 ++ " | Quantity: " ++ str_of_int (quantity Samples.bulk))%string;
              ""]
          ++ after)).
Proof.
  apply (list_all_skips_an_empty_description Samples.overstocked 0 Samples.bulk).
  - reflexivity.
  - right. reflexivity.
Defined.

Lemma import_reports_the_number_witness :
  exists (st' : state) (ls : list EbayListing),
    import_from_csv "tidy.csv" (Samples.fresh Samples.depot) = (Ok (), st')
    /\ listings (self st') = listings (self (Samples.fresh Samples.depot)) ++ ls
    /\ length ls = length (Csv.DictReader Samples.tidy_csv).1
    /\ Os.stdout (os st')
       = (Os.stdout (os (Samples.fresh Samples.depot)) ++ (added_line <$> ls))
         ++ [(nl ++ "✓ Successfully imported "
                ++ str_of_int (Z.of_nat (length ls))
                ++ " listings from " ++ "tidy.csv")%string].
Proof.
  apply (import_reports_the_number_of_listings_added
           (Samples.fresh Samples.depot) "tidy.csv" Samples.tidy_csv true).
  - vm_compute. reflexivity.
  - vm_compute. reflexivity.
  - vm_compute. reflexivity.
Defined.

Lemma import_stamps_the_listings_witness :
  exists (st' : state) (ls : list EbayListing),
    import_from_csv "tidy.csv" (Samples.fresh Samples.depot) = (Ok (), st')
    /\ listings (self st') = listings (self (Samples.fresh Samples.depot)) ++ ls
    /\ (forall (i : nat) (l : EbayListing),
          ls !! i = Some l ->
          created_at l
          = Os.clock (os (Samples.fresh Samples.depot))
              (Os.ticks (os (Samples.fresh Samples.depot)) + i)%nat)
    /\ Os.ticks (os st')
       = (Os.ticks (os (Samples.fresh Samples.depot)) + length ls)%nat.
Proof.
  apply (import_stamps_the_listings_in_order
           (Samples.fresh Samples.depot) "tidy.csv" Samples.tidy_csv true).
  vm_compute. reflexivity.
Defined.

Lemma import_stops_at_a_short_row_witness :
  exists (st' : state) (ls : list EbayListing),
    import_from_csv "short.csv" (Samples.fresh Samples.depot) = (Ok (), st')
    /\ listings (self st') = listings (self (Samples.fresh Samples.depot)) ++ ls
    /\ length ls = length [Samples.lamp_row]
    /\ Os.stdout (os st')
       = (Os.stdout (os (Samples.fresh Samples.depot)) ++ (added_line <$> ls))
         ++ ["✗ Error importing CSV: float() argument must be a string or a real number, not 'NoneType'"]
    /\ Os.fs (os st') = Os.fs (os (Samples.fresh Samples.depot)).
Proof.
  apply (import_stops_at_a_row_without_a_price_cell
           (Samples.fresh Samples.depot) "short.csv" Samples.short_csv true
           [Samples.lamp_row] [] ["title"; "price"] ["Desk"]).
  - vm_compute. reflexivity.
  - vm_compute. reflexivity.
  - vm_compute. reflexivity.
  - cbn [length drop]. constructor.
Defined.




Lemma listing_text_shows_the_price_witness :
  exists h : Z,
    0 <= h
    /\ EbayListing_str Samples.widget
       = (str_of (title Samples.widget) ++ " - $"
            ++ string_of_list_ascii
                 (sign_chars false ++ nat_digits (h / 100)
                    ++ "."%char :: pad2 (h mod 100))
            ++ " (" ++ str_of (condition Samples.widget) ++ ")")%string
    /\ (if 0 <=? -48 then h = 8303511812964352 * 2 ^ (-48) * 100
        else Z.abs (2 * (8303511812964352 * 100 - h * 2 ^ (- -48))) <= 2 ^ (- -48)).
Proof.
  apply (listing_text_shows_the_price_to_the_cent Samples.widget false
           8303511812964352 (-48)).
  vm_compute. reflexivity.
Defined.


Lemma main_converts_the_rows_witness :
  exists ls : list EbayListing,
    (main Samples.convert Samples.depot).1 = Ok ()
    /\ listings (self (main Samples.convert Samples.depot).2) = ls
    /\ Forall2 (fun row l => exists t, row_listing row t = Ok l)
         (parsed_prefix (Csv.DictReader Samples.tidy_csv).1) ls
    /\ reparsed (os (main Samples.convert Samples.depot).2) "out.json"
       = Some (Ok (VList (to_dict <$> ls))).
Proof.
  apply (main_converts_the_rows_to_json Samples.convert Samples.depot
           "tidy.csv" "out.json" Samples.tidy_csv true).
  - reflexivity.
  - discriminate.
  - reflexivity.
  - discriminate.
  - reflexivity.
  - reflexivity.
  - vm_compute. reflexivity.
  - vm_compute. reflexivity.
Defined.

End Extras.
